(** * Shot quality loop of the image pipeline (phase 6: validation)

    A shallow embedding of [src/utils/vision-validator.js]
    ([validateImage], [refinePrompt]) and of the phase 6 validation script
    ([validateShot], [validateExercise], [generateValidationSummary],
    [main]), followed by the properties of the validate / refine /
    regenerate loop.  The embedding also covers [getMediaType] of the
    validator and the use the pipeline script (generate-video.js) makes of
    the validation: [parseArgs], the phase 6 block of [runPipeline] and
    the [readyForAssembly] of its report.

    Conventions of the embedding.
    - A path is the list of its segments; [path.join] appends a segment (a
      name is one segment, and joining the empty name changes nothing).
    - The local file system is a finite map from paths to typed file
      contents, and a map from directories to their listings.  Reading a
      missing file raises; writing always succeeds, and enters the file in
      the listing of its directory.
    - The remote services (the two Claude calls, the fal.ai edit call and
      the download of the result) are oracles: the n-th call of a kind
      receives the n-th reply of that kind, and the replies are arbitrary.
      Every remote call is recorded in the trace of the world together with
      the arguments of the function that makes it.
    - The text of a reply of the judge that parses is any JSON value
      ([JSON]); so is the content of script.json.  Nothing checks their
      shape, and the program reads them as JavaScript does: a property
      that is absent is [undefined] ([None]), conditions test truthiness,
      and a method call on a value that has no such method raises a
      [TypeError].  prompt.json and the prompts configuration are written
      by the repository's own code and are read at their types.
    - JavaScript exceptions are an explicit result [Throw]; [try]/[catch]
      is [try_catch].
    - The rate-limit sleeps are left out.  Console output is not kept, but
      the expressions a [console.log] evaluates are, where they can raise.
      The text of the requests sent to the remote services is not built,
      only the steps of building it that can raise: the replies are
      arbitrary, so nothing else depends on it. *)

From Stdlib Require Import QArith.
From stdpp Require Import base strings list gmap pretty.

Local Open Scope string_scope.
Local Open Scope list_scope.
Local Open Scope nat_scope.

(** ** Data *)

Abbreviation path := (list string).

(** [path.join(p, name)] for a name of one segment; [path.join(p, "")] is
    [p]. *)
Definition path_join (p : path) (name : string) : path :=
  if String.eqb name "" then p else p ++ [name].

(** [path.dirname] and [path.basename] of a path that has a last
    segment. *)
Definition dirname (p : path) : path := removelast p.

(** The exceptions of the program: [Error], the [SyntaxError] the code
    tells apart ([error instanceof SyntaxError]), and the [TypeError] of
    the runtime. *)
Inductive Exn :=
| Error (msg : string)
| SyntaxError (msg : string)
| TypeError (msg : string).

Definition message (e : Exn) : string :=
  match e with Error m => m | SyntaxError m => m | TypeError m => m end.

Definition instanceof_SyntaxError (e : Exn) : bool :=
  match e with SyntaxError _ => true | _ => false end.

Definition instanceof_TypeError (e : Exn) : bool :=
  match e with TypeError _ => true | _ => false end.

(** A value [JSON.parse] returns.  The members of an object are kept in
    the order of the text; where a key occurs twice the later member is the
    one the object has. *)
#[warnings="-register-all"] Inductive JSON :=
| JNull
| JBool (b : bool)
| JNumber (q : Q)
| JString (s : string)
| JArray (elements : list JSON)
| JObject (members : list (string * JSON)).

(** A JavaScript object whose properties are JSON values, as an object
    literal lists them: a later property overrides an earlier one of the
    same name. *)
Abbreviation Obj := (list (string * JSON)).

(** [o[k]], [undefined] ([None]) when [o] has no property [k]. *)
Fixpoint obj_get (k : string) (o : Obj) : option JSON :=
  match o with
  | [] => None
  | (k', v) :: o' =>
      match obj_get k o' with
      | Some v' => Some v'
      | None => if String.eqb k' k then Some v else None
      end
  end.

(** [v.k] for a value [v] that is not [null] and a key [k] the program
    reads ([shots], [shot_number], [type], [shot_id], [tts_text],
    [description]): none of them is a property of an array, a string, a
    number or a boolean. *)
Definition member (k : string) (v : JSON) : option JSON :=
  match v with
  | JObject m => obj_get k m
  | _ => None
  end.

(** Truthiness; [None] is [undefined]. *)
Definition js_truthy (v : option JSON) : bool :=
  match v with
  | None | Some JNull => false
  | Some (JBool b) => b
  | Some (JNumber q) => negb (Qeq_bool q 0)
  | Some (JString s) => negb (String.eqb s "")
  | Some (JArray _) | Some (JObject _) => true
  end.

Definition is_number (v : option JSON) : bool :=
  match v with Some (JNumber _) => true | _ => false end.

Definition is_array (v : JSON) : bool :=
  match v with JArray _ => true | _ => false end.

(** The number [n] as a JSON value. *)
Definition js_nat (n : nat) : JSON := JNumber (inject_Z (Z.of_nat n)).

(** The properties [{ ...v }] copies: the members of an object, the
    elements of an array and the characters of a string under their
    indices, nothing for the other values. *)
Definition indexed (l : list JSON) : Obj := imap (fun i x => (pretty i, x)) l.

Definition characters (s : string) : list JSON :=
  map (fun c => JString (String c "")) (String.list_ascii_of_string s).

Definition spread (v : JSON) : Obj :=
  match v with
  | JObject m => m
  | JArray l => indexed l
  | JString s => indexed (characters s)
  | JNull | JBool _ | JNumber _ => []
  end.

(** [x || []]. *)
Definition or_empty (v : option JSON) : JSON :=
  match v with
  | Some x => if js_truthy v then x else JArray []
  | None => JArray []
  end.

(** A content block of an Anthropic message. *)
Record ContentBlock := { cb_type : string; cb_text : string }.

(** Outcome of [anthropic.messages.create]: the promise rejects, or a
    response with its content blocks. *)
Inductive ApiReply :=
| ApiRejects (e : Exn)
| ApiResponse (content : list ContentBlock).

(** Return value of [validateImage]: the object [{ success: true,
    ...result }], or the fallback object of the [SyntaxError] handler.  The
    properties the loop reads: *)
Abbreviation ValidationResult := Obj.

Definition overall_pass (validationResult : ValidationResult) : bool :=
  js_truthy (obj_get "overall_pass" validationResult).
Definition confidence (validationResult : ValidationResult) : option JSON :=
  obj_get "confidence" validationResult.
Definition criteria_scores (validationResult : ValidationResult)
    : option JSON :=
  obj_get "criteria_scores" validationResult.
Definition issues (validationResult : ValidationResult) : option JSON :=
  obj_get "issues" validationResult.
Definition suggestions (validationResult : ValidationResult) : option JSON :=
  obj_get "suggestions" validationResult.

(** [config/exercise-prompts.json], the two sections the validator reads. *)
Record PromptsConfig := {
  validation_system : string;
  validation_criteria : list (string * string);
  confidence_threshold : Q;
  refinement_system : string;
  refinement_constraints : list string
}.

(** An entry of [prompt_history] in prompt.json. *)
Record HistoryEntry := {
  h_iteration : nat;
  h_prompt : string;
  h_issues : option JSON
}.

(** prompt.json: the fields the loop reads and writes.  A record created
    by phase 5 has [prompt_history: []] and no [validation_iteration]. *)
Record PromptData := {
  anchor_image : path;
  engineered_prompt : string;
  validation_iteration : option nat;
  prompt_history : option (list HistoryEntry)
}.

Inductive Status := approved | flagged | rejected | no_image | error.

#[global] Instance Status_eq_dec : EqDecision Status.
Proof. solve_decision. Defined.

Definition status_name (s : Status) : string :=
  match s with
  | approved => "approved"
  | flagged => "flagged"
  | rejected => "rejected"
  | no_image => "no_image"
  | error => "error"
  end.

(** validation.json: the object [{ ...validationResult, iteration,
    timestamp, prompt_used, status?, error? }], and its properties. *)
Abbreviation ValidationData := Obj.

Definition vd_iteration (vd : ValidationData) : option JSON :=
  obj_get "iteration" vd.
Definition vd_prompt_used (vd : ValidationData) : option JSON :=
  obj_get "prompt_used" vd.

(** Return value of [validateShot]. *)
Record Outcome := {
  status : Status;
  o_message : option string;
  validation : option ValidationData
}.

(** validation-summary.json. *)
Record Counts := {
  c_approved : nat;
  c_flagged : nat;
  c_rejected : nat;
  c_no_image : nat;
  c_errors : nat
}.

Record BlockingIssue := { bi_shot : string; bi_issues : JSON }.

Record ShotLists := {
  sl_approved : list string;
  sl_flagged : list string;
  sl_rejected : list string;
  sl_no_image : list string;
  sl_errors : list string
}.

Record Summary := {
  exercise : string;
  total_shots : nat;
  counts : Counts;
  ready_for_assembly : bool;
  blocking_issues : list BlockingIssue;
  summary_shots : ShotLists
}.

(** Typed contents of a file.  [ScriptJson s] is a script.json whose text
    parses, to the value [s]. *)
Inductive File :=
| ImageFile (content : string)
| PromptJson (p : PromptData)
| ValidationJson (v : ValidationData)
| SummaryJson (s : Summary)
| ScriptJson (s : JSON)
| ConfigJson (c : PromptsConfig)
| OtherFile (content : string).

(** Output of the fal.ai edit call, after [fal.subscribe]: the image urls
    under [result.data.images] and under [result.images]. *)
Inductive FalReply :=
| FalRejects (e : Exn)
| FalResult (data_images : list string) (images : list string).

Inductive FetchReply :=
| FetchRejects (e : Exn)
| FetchBody (content : string).

(** Remote calls and file writes, in the order they happen. *)
Inductive Event :=
| EvVision (imagePath anchorPath : path) (prompt : string) (ttsContext : JSON)
| EvRefine (originalPrompt : string) (iss sugg : JSON)
    (criteriaScores : option JSON)
| EvEdit (anchor : File) (prompt : string)
| EvFetch (url : string)
| EvWrite (p : path) (f : File).

Definition is_vision (e : Event) : bool :=
  match e with EvVision _ _ _ _ => true | _ => false end.
Definition is_refine (e : Event) : bool :=
  match e with EvRefine _ _ _ _ => true | _ => false end.
Definition is_edit (e : Event) : bool :=
  match e with EvEdit _ _ => true | _ => false end.
Definition is_fetch (e : Event) : bool :=
  match e with EvFetch _ => true | _ => false end.

(** The number of events of a kind in a trace: the index of the next
    reply of that kind. *)
Definition count_ev (f : Event -> bool) (t : list Event) : nat :=
  length (filter (fun e => f e = true) t).

(** ** The world *)

(** What the environment decides: the replies of the remote services, the
    clock, and the runtime functions the model does not spell out:
    [String.prototype.trim]; [JSON.parse] on the judge's text ([inl] is the
    message of the [SyntaxError]); [localeCompare]; the text of a number
    that is not a whole number below 10^21; whether a string or an array
    converts to a number above 0; and the two entries [Array.prototype.sort]
    puts first under the comparator [a - b] when some score is not a
    number (the order is then the implementation's). *)
Record Env := {
  vision_reply : nat -> ApiReply;
  refine_reply : nat -> ApiReply;
  fal_reply : nat -> FalReply;
  fetch_reply : nat -> FetchReply;
  now : nat -> string;
  trim : string -> string;
  JSON_parse : string -> string + JSON;
  localeCompare : string -> string -> Z;
  number_text : Q -> string;
  converts_above_zero : JSON -> bool;
  lowest_two : list (string * JSON) -> list (string * JSON)
}.

(** The state the program runs in: the files; the directories, each with
    its entries as [readdir] with [withFileTypes] gives them (name and
    [isDirectory()]); the module-level cache [PROMPTS_CONFIG] of
    vision-validator.js; the [anchorCache] map of the validation script;
    and the trace. *)
Record World := {
  fs : gmap path File;
  dirs : gmap path (gmap string bool);
  PROMPTS_CONFIG : option PromptsConfig;
  anchorCache : gmap path File;
  trace : list Event
}.

Definition set_fs (f : gmap path File) (w : World) : World :=
  {| fs := f; dirs := dirs w; PROMPTS_CONFIG := PROMPTS_CONFIG w;
     anchorCache := anchorCache w; trace := trace w |}.
Definition set_dirs (d : gmap path (gmap string bool)) (w : World) : World :=
  {| fs := fs w; dirs := d; PROMPTS_CONFIG := PROMPTS_CONFIG w;
     anchorCache := anchorCache w; trace := trace w |}.
Definition set_PROMPTS_CONFIG (c : option PromptsConfig) (w : World) : World :=
  {| fs := fs w; dirs := dirs w; PROMPTS_CONFIG := c;
     anchorCache := anchorCache w; trace := trace w |}.
Definition set_anchorCache (c : gmap path File) (w : World) : World :=
  {| fs := fs w; dirs := dirs w; PROMPTS_CONFIG := PROMPTS_CONFIG w;
     anchorCache := c; trace := trace w |}.
Definition set_trace (t : list Event) (w : World) : World :=
  {| fs := fs w; dirs := dirs w; PROMPTS_CONFIG := PROMPTS_CONFIG w;
     anchorCache := anchorCache w; trace := t |}.

(** ** The monad of the embedding: state and exceptions *)

(** [Diverge] is the result of a loop that used up the steps it was
    given; the theorems show the loop of [validateShot] never does. *)
Inductive Res (A : Type) :=
| Ok (a : A)
| Throw (e : Exn)
| Diverge.
Arguments Ok {A} a.
Arguments Throw {A} e.
Arguments Diverge {A}.

Definition M (A : Type) : Type := World -> Res A * World.

#[global] Instance M_ret : MRet M := fun A a w => (Ok a, w).
#[global] Instance M_bind : MBind M := fun A B f m w =>
  match m w with
  | (Ok a, w') => f a w'
  | (Throw e, w') => (Throw e, w')
  | (Diverge, w') => (Diverge, w')
  end.

Definition throw {A} (e : Exn) : M A := fun w => (Throw e, w).
Definition diverge {A} : M A := fun w => (Diverge, w).

Definition try_catch {A} (body : M A) (handler : Exn -> M A) : M A :=
  fun w =>
    match body w with
    | (Throw e, w') => handler e w'
    | r => r
    end.

(** A step that returns or raises without touching the world. *)
Definition lift {A} (r : Exn + A) : M A :=
  match r with
  | inl e => throw e
  | inr a => mret a
  end.

Definition get_world : M World := fun w => (Ok w, w).
Definition modify_world (f : World -> World) : M unit := fun w => (Ok tt, f w).
Definition log (e : Event) : M unit :=
  modify_world (fun w => set_trace (trace w ++ [e]) w).

(** A pass through the body of a loop either goes on with a new state or
    executes a [return]. *)
Inductive Step (S R : Type) :=
| Continue (s : S)
| Return (r : R).
Arguments Continue {S R} s.
Arguments Return {S R} r.

(** [while (cond) { body }], given [fuel] passes.  [Continue s] is the exit
    through the condition, with the variables as [s]. *)
Fixpoint while {S R} (fuel : nat) (cond : S -> bool)
    (body : S -> M (Step S R)) (s : S) : M (Step S R) :=
  if cond s then
    match fuel with
    | 0 => diverge
    | S fuel' =>
        r ← body s;
        match r with
        | Continue s' => while fuel' cond body s'
        | Return v => mret (Return v)
        end
    end
  else mret (Continue s).

(** [CONFIG] of the validation script.  [rateLimit] and
    [confidenceThreshold] are carried for completeness. *)
Record Config := {
  videoScriptsDir : path;
  anchorsDir : path;
  rateLimit : nat;
  maxIterations : nat;
  confidenceThreshold : Q
}.

(** The configuration of the source, relative to the project root
    ([__dirname/..]). *)
Definition CONFIG (root : path) : Config :=
  {| videoScriptsDir := root ++ ["output"; "video-scripts"];
     anchorsDir := root ++ ["output"; "anchors-selected"];
     rateLimit := 500;
     maxIterations := 2;
     confidenceThreshold := 7 # 10 |}.

(** A shot folder, as [getShotFolders] builds it. *)
Record Shot := {
  id : string;
  dir : path;
  promptPath : path
}.

(** ** File system primitives *)

Definition path_exists (w : World) (p : path) : bool :=
  bool_decide (is_Some (fs w !! p)) || bool_decide (is_Some (dirs w !! p)).

Definition show_path (p : path) : string := String.concat "/" p.

(** [fs.access]: resolves when the path names a file or a directory. *)
Definition fs_access (p : path) : M unit :=
  fun w =>
    if path_exists w p then (Ok tt, w)
    else (Throw (Error ("ENOENT: no such file or directory, access "
                          +:+ show_path p)), w).

(** [fs.readFile]: the contents of a file; raises when there is none. *)
Definition fs_readFile (p : path) : M File :=
  fun w =>
    match fs w !! p with
    | Some f => (Ok f, w)
    | None => (Throw (Error ("ENOENT: no such file or directory, open "
                               +:+ show_path p)), w)
    end.

(** The listings after the file [p] is created or overwritten: the
    directory of [p], when it is a known directory, lists the name of [p]
    (as a file, unless the name is listed already). *)
Definition add_entry (p : path) (d : gmap path (gmap string bool))
    : gmap path (gmap string bool) :=
  match last p with
  | Some name =>
      alter (fun entries =>
               match entries !! name with
               | Some _ => entries
               | None => <[name := false]> entries
               end) (dirname p) d
  | None => d
  end.

(** [fs.writeFile]: creates or overwrites the file. *)
Definition fs_writeFile (p : path) (f : File) : M unit :=
  modify_world (fun w =>
    set_trace (trace w ++ [EvWrite p f])
      (set_dirs (add_entry p (dirs w)) (set_fs (<[p := f]> (fs w)) w))).

(** [JSON.parse] of a file read from disk, at the type the caller uses. *)
Definition parse_file {A} (pick : File -> option A) (f : File) : M A :=
  match pick f with
  | Some a => mret a
  | None => throw (SyntaxError "Unexpected token in JSON")
  end.

Definition as_config (f : File) : option PromptsConfig :=
  match f with ConfigJson c => Some c | _ => None end.
Definition as_prompt (f : File) : option PromptData :=
  match f with PromptJson p => Some p | _ => None end.
Definition as_script (f : File) : option JSON :=
  match f with ScriptJson s => Some s | _ => None end.

(** ** Pure helpers *)

Definition truthy (o : option string) : bool :=
  match o with
  | Some s => negb (String.eqb s "")
  | None => false
  end.

(** [s.padStart(2, "0")]. *)
Definition padStart2 (s : string) : string :=
  match String.length s with
  | 0 => "00"
  | 1 => "0" +:+ s
  | _ => s
  end.

(** [x.toFixed(2)]: a number has the method; a property of a value parsed
    from JSON is never a function.  (The digits are console output.) *)
Definition toFixed (x : option JSON) : Exn + unit :=
  match x with
  | Some (JNumber _) => inr tt
  | None =>
      inl (TypeError "Cannot read properties of undefined (reading 'toFixed')")
  | Some JNull =>
      inl (TypeError "Cannot read properties of null (reading 'toFixed')")
  | Some _ => inl (TypeError "toFixed is not a function")
  end.

(** [x.map(...)] with a callback that does not raise: only an array has
    the method. *)
Definition Array_map (x : JSON) : Exn + unit :=
  if is_array x then inr tt else inl (TypeError "map is not a function").

(** The own properties of an object, each once, with the value the object
    has for it. *)
Definition own_entries (o : Obj) : list (string * JSON) :=
  map (fun k => (k, default JNull (obj_get k o))) (remove_dups o.*1).

(** [Object.entries(x)]. *)
Definition Object_entries (x : option JSON) : Exn + list (string * JSON) :=
  match x with
  | None | Some JNull =>
      inl (TypeError "Cannot convert undefined or null to object")
  | Some v => inr (own_entries (spread v))
  end.

Definition score_is_number (e : string * JSON) : bool := is_number (Some e.2).

Section Program.

Variable env : Env.
Variable root : path.
Variable cfg : Config.

(** ** Conversions of the runtime *)

(** [String(q)]: the digits of a whole number below 10^21, otherwise the
    text the runtime gives. *)
Definition Number_toString (q : Q) : string :=
  let r := Qred q in
  if Pos.eqb (Qden r) 1 && (Z.abs (Qnum r) <? 10 ^ 21)%Z
  then pretty (Qnum r) else number_text env q.

(** [String(v)]; an array is the texts of its elements ([null] is the
    empty text) with commas between them. *)
Fixpoint js_String (v : JSON) : string :=
  match v with
  | JNull => "null"
  | JBool true => "true"
  | JBool false => "false"
  | JNumber q => Number_toString q
  | JString s => s
  | JArray l =>
      (fix join (l : list JSON) : string :=
         match l with
         | [] => ""
         | x :: l' =>
             (match x with JNull => "" | _ => js_String x end)
             +:+ (match l' with [] => "" | _ :: _ => "," +:+ join l' end)
         end) l
  | JObject _ => "[object Object]"
  end.

(** [String(x)] and [`${x}`] for a property that may be absent. *)
Definition to_text (x : option JSON) : string :=
  match x with
  | None => "undefined"
  | Some v => js_String v
  end.

(** [x > 0]. *)
Definition above_zero (x : option JSON) : bool :=
  match x with
  | Some (JNumber q) => negb (Qle_bool q 0)
  | Some (JBool b) => b
  | Some (JString s) => converts_above_zero env (JString s)
  | Some (JArray l) => converts_above_zero env (JArray l)
  | Some JNull | Some (JObject _) | None => false
  end.

(** The lines 244 to 246 of the loop:
    [if (issues?.length > 0) console.log(issues.slice(0, 2).join(", "))].
    An array has both methods; a non-empty string has [slice] and its
    result no [join]; an object has neither. *)
Definition log_issues (iss : option JSON) : Exn + unit :=
  match iss with
  | Some (JString s) =>
      if String.eqb s "" then inr tt
      else inl (TypeError "validationResult.issues.slice(...).join is not a function")
  | Some (JObject m) =>
      if above_zero (obj_get "length" m)
      then inl (TypeError "validationResult.issues.slice is not a function")
      else inr tt
  | _ => inr tt
  end.

(** What the two [console.log] of a failed validation evaluate. *)
Definition log_failed (validationResult : ValidationResult) : Exn + unit :=
  match toFixed (confidence validationResult) with
  | inl e => inl e
  | inr _ => log_issues (issues validationResult)
  end.

(** [sortedCriteria] of [refinePrompt]: the entries are sorted by score,
    and the first two are formatted with [score.toFixed(2)].  When every
    score is a number nothing raises; when there are at most two entries
    all of them are formatted; otherwise the runtime decides which two
    come first. *)
Definition sortedCriteria (entries : list (string * JSON)) : Exn + unit :=
  if forallb score_is_number entries then inr tt
  else if length entries <=? 2
       then inl (TypeError "score.toFixed is not a function")
       else if forallb score_is_number (take 2 (lowest_two env entries))
            then inr tt
            else inl (TypeError "score.toFixed is not a function").

(** The part of [refinePrompt] that builds the text of the request, before
    the [try]: [Object.entries(criteriaScores)], the two formatted scores,
    [issues.map] and [suggestions.map].  ([refinementConfig.constraints] is
    a list of the configuration.) *)
Definition userPrompt (iss sugg : JSON) (criteriaScores : option JSON)
    : Exn + unit :=
  match Object_entries criteriaScores with
  | inl e => inl e
  | inr entries =>
      match sortedCriteria entries with
      | inl e => inl e
      | inr _ =>
          match Array_map iss with
          | inl e => inl e
          | inr _ => Array_map sugg
          end
      end
  end.

(** ** getTtsContextForShot *)

(** The callback of [scriptData.shots.find]. *)
Definition shot_matches (shotId : string) (s : JSON) : bool :=
  let scriptShotId :=
    padStart2 (to_text (member "shot_number" s)) +:+ "-"
    +:+ to_text (member "type" s) in
  String.eqb scriptShotId shotId
  || match member "shot_id" s with
     | Some (JString i) => String.eqb i shotId
     | _ => false
     end.

(** [shots.find(...)]: the callback reads a property of each element in
    turn, and raises at an element that is [null]. *)
Fixpoint find_shot (shotId : string) (shots : list JSON)
    : Exn + option JSON :=
  match shots with
  | [] => inr None
  | JNull :: _ =>
      inl (TypeError "Cannot read properties of null (reading 'shot_number')")
  | s :: rest =>
      if shot_matches shotId s then inr (Some s) else find_shot shotId rest
  end.

Definition getTtsContextForShot (shotId : string) (scriptData : JSON)
    : Exn + JSON :=
  if negb (js_truthy (member "shots" scriptData))
  then inr (JString "No script context available")
  else
    match member "shots" scriptData with
    | Some (JArray shots) =>
        match find_shot shotId shots with
        | inl e => inl e
        | inr shot =>
            if js_truthy shot then
              let s := default JNull shot in
              if js_truthy (member "tts_text" s)
              then inr (default JNull (member "tts_text" s))
              else if js_truthy (member "description" s)
                   then inr (default JNull (member "description" s))
                   else inr (JString "No TTS context")
            else inr (JString "Shot not found in script")
        end
    | _ => inl (TypeError "scriptData.shots.find is not a function")
    end.

(** ** src/utils/vision-validator.js *)

Definition promptsPath : path := root ++ ["config"; "exercise-prompts.json"].

Definition loadPromptsConfig : M PromptsConfig :=
  w ← get_world;
  match PROMPTS_CONFIG w with
  | Some c => mret c
  | None =>
      data ← fs_readFile promptsPath;
      c ← parse_file as_config data;
      modify_world (set_PROMPTS_CONFIG (Some c));;
      mret c
  end.

(** The base64 text of a file stands for the file: the encoding is
    one-to-one. *)
Definition fileToBase64 (filepath : path) : M File := fs_readFile filepath.

(** The request sent by [validateImage]; the reply is the next one of
    [vision_reply]. *)
Definition anthropic_create_vision (imagePath anchorPath : path)
    (prompt : string) (ttsContext : JSON) : M (list ContentBlock) :=
  w ← get_world;
  log (EvVision imagePath anchorPath prompt ttsContext);;
  match vision_reply env (count_ev is_vision (trace w)) with
  | ApiRejects e => throw e
  | ApiResponse content => mret content
  end.

Definition anthropic_create_refine (originalPrompt : string)
    (iss sugg : JSON) (criteriaScores : option JSON)
    : M (list ContentBlock) :=
  w ← get_world;
  log (EvRefine originalPrompt iss sugg criteriaScores);;
  match refine_reply env (count_ev is_refine (trace w)) with
  | ApiRejects e => throw e
  | ApiResponse content => mret content
  end.

Definition find_text (content : list ContentBlock) : option ContentBlock :=
  find (fun c => String.eqb (cb_type c) "text") content.

(** The object returned by the [SyntaxError] handler of [validateImage]. *)
Definition parse_failure_result (msg : string) : ValidationResult :=
  [("success", JBool false);
   ("overall_pass", JBool false);
   ("confidence", JNumber 0);
   ("criteria_scores",
    JObject [("character_consistency", JNumber 0);
             ("pose_accuracy", JNumber 0);
             ("muscle_highlighting", JNumber 0);
             ("matches_tts_context", JNumber 0);
             ("no_hallucinations", JNumber 0)]);
   ("issues", JArray [JString "Failed to parse validation response"]);
   ("suggestions", JArray [JString "Retry validation"]);
   ("error", JString msg)].

(** [{ success: true, ...result }]. *)
Definition success_result (result : JSON) : ValidationResult :=
  ("success", JBool true) :: spread result.

Definition validateImage (imagePath anchorPath : path)
    (prompt : string) (ttsContext : JSON) : M ValidationResult :=
  config ← loadPromptsConfig;
  generatedBase64 ← fileToBase64 imagePath;
  anchorBase64 ← fileToBase64 anchorPath;
  try_catch
    (content ← anthropic_create_vision imagePath anchorPath prompt ttsContext;
     match find_text content with
     | None => throw (Error "No text response from Claude")
     | Some textContent =>
         match JSON_parse env (trim env (cb_text textContent)) with
         | inl msg => throw (SyntaxError msg)
         | inr result => mret (success_result result)
         end
     end)
    (fun error =>
       if instanceof_SyntaxError error
       then mret (parse_failure_result (message error))
       else throw error).

Definition refinePrompt (originalPrompt : string) (iss sugg : JSON)
    (criteriaScores : option JSON) : M string :=
  config ← loadPromptsConfig;
  (* Identify lowest scoring criteria, and build the text of the request *)
  lift (userPrompt iss sugg criteriaScores);;
  try_catch
    (content ← anthropic_create_refine originalPrompt iss sugg criteriaScores;
     match find_text content with
     | None => throw (Error "No text response from Claude")
     | Some textContent => mret (trim env (cb_text textContent))
     end)
    (fun error => mret originalPrompt).

(** ** The validation script: helpers *)

(** [fal.subscribe("fal-ai/nano-banana/edit", ...)] and the choice of the
    first image url. *)
Definition editImage (imageUrl : File) (prompt : string) : M string :=
  w ← get_world;
  log (EvEdit imageUrl prompt);;
  match fal_reply env (count_ev is_edit (trace w)) with
  | FalRejects e => throw e
  | FalResult data_images images =>
      match data_images, images with
      | url :: _, _ => mret url
      | [], url :: _ => mret url
      | [], [] => throw (Error "No image returned from nano-banana")
      end
  end.

Definition downloadImage (url : string) (filepath : path) : M unit :=
  w ← get_world;
  log (EvFetch url);;
  match fetch_reply env (count_ev is_fetch (trace w)) with
  | FetchRejects e => throw e
  | FetchBody buffer => fs_writeFile filepath (ImageFile buffer)
  end.

(** Likewise for the data URL of a file. *)
Definition fileToDataUrl (filepath : path) : M File := fs_readFile filepath.

(** [try { x = await body } catch (error) { ... }]: the result of the
    block, or the exception it raised. *)
Definition attempt {A} (body : M A) : M (Exn + A) :=
  try_catch (a ← body; mret (inr a)) (fun e => mret (inl e)).

Definition loadPromptJson (promptPath : path) : M PromptData :=
  data ← fs_readFile promptPath;
  parse_file as_prompt data.

Definition savePromptJson (promptPath : path) (promptData : PromptData)
    : M unit :=
  fs_writeFile promptPath (PromptJson promptData).

(** [JSON.parse] of the script, whatever it is; [null] when the file
    cannot be read or parsed. *)
Definition loadScriptJson (exerciseDir : path) : M JSON :=
  try_catch
    (data ← fs_readFile (path_join exerciseDir "script.json");
     parse_file as_script data)
    (fun _ => mret JNull).

Definition getAnchorPath (anchorRelativePath : path) : M path :=
  let absolutePath := root ++ anchorRelativePath in
  try_catch
    (fs_access absolutePath;; mret absolutePath)
    (fun _ => throw (Error ("Anchor image not found: "
                              +:+ show_path absolutePath))).

Definition getAnchorDataUrl (anchorRelativePath : path) : M File :=
  absolutePath ← getAnchorPath anchorRelativePath;
  w ← get_world;
  match anchorCache w !! absolutePath with
  | Some dataUrl => mret dataUrl
  | None =>
      dataUrl ← fileToDataUrl absolutePath;
      modify_world (fun w =>
        set_anchorCache (<[absolutePath := dataUrl]> (anchorCache w)) w);;
      mret dataUrl
  end.

(** [fs.readdir(p, { withFileTypes: true })]. *)
Definition fs_readdir (p : path) : M (list (string * bool)) :=
  fun w =>
    match dirs w !! p with
    | Some entries => (Ok (map_to_list entries), w)
    | None => (Throw (Error ("ENOTDIR: not a directory, scandir "
                               +:+ show_path p)), w)
    end.

(** [Array.prototype.sort] with a comparator: a stable sort. *)
Fixpoint insert_by {A} (cmp : A -> A -> Z) (x : A) (l : list A) : list A :=
  match l with
  | [] => [x]
  | y :: l' =>
      if (0 <? cmp x y)%Z then y :: insert_by cmp x l' else x :: y :: l'
  end.

Definition sort_by {A} (cmp : A -> A -> Z) (l : list A) : list A :=
  foldr (insert_by cmp) [] l.

Fixpoint collect_shots (shotsDir : path) (entries : list (string * bool))
    : M (list Shot) :=
  match entries with
  | [] => mret []
  | (name, isDirectory) :: rest =>
      if isDirectory then
        let promptPath := path_join (path_join shotsDir name) "prompt.json" in
        r ← attempt (fs_access promptPath);
        shotFolders ← collect_shots shotsDir rest;
        match r with
        | inr _ =>
            mret ({| id := name; dir := path_join shotsDir name;
                     promptPath := promptPath |} :: shotFolders)
        | inl _ => mret shotFolders
        end
      else collect_shots shotsDir rest
  end.

Definition getShotFolders (exerciseDir : path) : M (list Shot) :=
  let shotsDir := path_join exerciseDir "shots" in
  r ← attempt (fs_access shotsDir);
  match r with
  | inl _ => mret []
  | inr _ =>
      entries ← fs_readdir shotsDir;
      shotFolders ← collect_shots shotsDir entries;
      mret (sort_by (fun a b => localeCompare env (id a) (id b)) shotFolders)
  end.

(** ** The validation loop with regeneration *)

(** The variables of [validateShot] that change in the loop. *)
Record LoopState := {
  iteration : nat;
  currentPrompt : string;
  promptData : PromptData
}.

Definition validation_error_outcome (err : Exn) : Outcome :=
  {| status := error;
     o_message := Some ("Validation failed: " +:+ message err);
     validation := None |}.

(** [new Date().toISOString()]: the clock is read after the events so
    far. *)
Definition timestamp (w : World) : string := now env (length (trace w)).

(** The object written to validation.json:
    [{ ...validationResult, iteration, timestamp, prompt_used, status?,
    error? }].  The properties of the result come first, so the ones the
    literal names override them, and a [status] or [error] of the result
    stays where the literal names none. *)
Definition validationData_of (validationResult : ValidationResult)
    (st : LoopState) (time : string) (st_status : option Status)
    (err : option string) : ValidationData :=
  validationResult
  ++ [("iteration", js_nat (iteration st));
      ("timestamp", JString time);
      ("prompt_used", JString (currentPrompt st))]
  ++ match st_status with
     | Some s => [("status", JString (status_name s))]
     | None => []
     end
  ++ match err with
     | Some e => [("error", JString e)]
     | None => []
     end.

(** The record written to prompt.json after a regeneration. *)
Definition updated_promptData (validationResult : ValidationResult)
    (refinedPrompt : string) (st : LoopState) : PromptData :=
  {| anchor_image := anchor_image (promptData st);
     engineered_prompt := refinedPrompt;
     validation_iteration := Some (iteration st + 1);
     prompt_history :=
       Some (default [] (prompt_history (promptData st))
             ++ [{| h_iteration := iteration st;
                    h_prompt := currentPrompt st;
                    h_issues := issues validationResult |}]) |}.

(** The [try] block of the loop: refine the prompt, regenerate the image,
    then update prompt.json and the loop variables. *)
Definition regenerate (shot : Shot) (imagePath : path)
    (validationResult : ValidationResult) (st : LoopState) : M LoopState :=
  (* Refine the prompt *)
  refinedPrompt ← refinePrompt (currentPrompt st)
                     (or_empty (issues validationResult))
                     (or_empty (suggestions validationResult))
                     (criteria_scores validationResult);
  (* Get anchor data URL for regeneration *)
  anchorDataUrl ← getAnchorDataUrl (anchor_image (promptData st));
  (* Regenerate image *)
  newImageUrl ← editImage anchorDataUrl refinedPrompt;
  (* Download new image (overwrite existing) *)
  downloadImage newImageUrl imagePath;;
  (* Update prompt data *)
  let promptData' := updated_promptData validationResult refinedPrompt st in
  savePromptJson (promptPath shot) promptData';;
  mret {| iteration := iteration st + 1;
          currentPrompt := refinedPrompt;
          promptData := promptData' |}.

(** The loop body after [validateImage] has returned [validationResult]. *)
Definition handle_validation (shot : Shot) (imagePath validationPath : path)
    (skipRegen : bool) (validationResult : ValidationResult) (st : LoopState)
    : M (Step LoopState Outcome) :=
  (* Check if passed *)
  if overall_pass validationResult then
    (* console.log: Passed (confidence: ${confidence.toFixed(2)}) *)
    lift (toFixed (confidence validationResult));;
    (* Save validation result *)
    w ← get_world;
    let validationData :=
      validationData_of validationResult st (timestamp w) None None in
    fs_writeFile validationPath (ValidationJson validationData);;
    mret (Return {| status := approved; o_message := None;
                    validation := Some validationData |})
  else
    (* Failed validation; console.log: Failed (confidence:
       ${confidence.toFixed(2)}), and the first two issues *)
    lift (log_failed validationResult);;
    (* Check if we should regenerate *)
    if skipRegen || (maxIterations cfg <=? iteration st) then
      w ← get_world;
      let validationData :=
        validationData_of validationResult st (timestamp w) (Some flagged)
          None in
      fs_writeFile validationPath (ValidationJson validationData);;
      mret (Return {| status := flagged; o_message := None;
                      validation := Some validationData |})
    else
      (* Refine prompt and regenerate *)
      try_catch
        (st' ← regenerate shot imagePath validationResult st;
         mret (Continue st'))
        (fun err =>
           (* Save as error state *)
           w ← get_world;
           let validationData :=
             validationData_of validationResult st (timestamp w) (Some error)
               (Some (message err)) in
           fs_writeFile validationPath (ValidationJson validationData);;
           mret (Return {| status := error;
                           o_message := Some (message err);
                           validation := Some validationData |})).

(** One pass through the body of the [while] of [validateShot]. *)
Definition loop_body (shot : Shot) (imagePath validationPath anchorPath : path)
    (ttsContext : JSON) (skipRegen : bool) (st : LoopState)
    : M (Step LoopState Outcome) :=
  (* Validate the image *)
  r ← attempt (validateImage imagePath anchorPath (currentPrompt st) ttsContext);
  match r with
  | inl err => mret (Return (validation_error_outcome err))
  | inr validationResult =>
      handle_validation shot imagePath validationPath skipRegen
        validationResult st
  end.

Definition loop_cond (st : LoopState) : bool :=
  iteration st <=? maxIterations cfg.

Definition validateShot_fuel (fuel : nat) (shot : Shot)
    (scriptData : JSON) (skipRegen : bool) : M Outcome :=
  let imagePath := path_join (dir shot) "image.png" in
  let validationPath := path_join (dir shot) "validation.json" in
  (* Check if image exists *)
  r ← attempt (fs_access imagePath);
  match r with
  | inl _ =>
      mret {| status := no_image;
              o_message := Some "No image.png found in shot folder";
              validation := None |}
  | inr _ =>
      (* Load prompt data *)
      r ← attempt (loadPromptJson (promptPath shot));
      match r with
      | inl err =>
          mret {| status := error;
                  o_message := Some ("Failed to load prompt.json: "
                                       +:+ message err);
                  validation := None |}
      | inr promptData0 =>
          (* Get TTS context from script *)
          ttsContext ← lift (getTtsContextForShot (id shot) scriptData);
          (* Get anchor path *)
          r ← attempt (getAnchorPath (anchor_image promptData0));
          match r with
          | inl err =>
              mret {| status := error; o_message := Some (message err);
                      validation := None |}
          | inr anchorPath =>
              r ← while fuel loop_cond
                    (loop_body shot imagePath validationPath anchorPath
                       ttsContext skipRegen)
                    {| iteration := default 0 (validation_iteration promptData0);
                       currentPrompt := engineered_prompt promptData0;
                       promptData := promptData0 |};
              match r with
              | Return outcome => mret outcome
              | Continue _ =>
                  (* Should not reach here, but just in case *)
                  mret {| status := error;
                          o_message := Some "Unexpected end of validation loop";
                          validation := None |}
              end
          end
      end
  end.

(** The loop makes at most [maxIterations + 1] passes, so this many are
    enough (lemma [validateShot_fuel_enough] below). *)
Definition validateShot (shot : Shot) (scriptData : JSON)
    (skipRegen : bool) : M Outcome :=
  validateShot_fuel (S (maxIterations cfg)) shot scriptData skipRegen.

(** ** The exercise orchestrator *)

(** The five buckets of [validateExercise]; an entry is
    [{ shot: shot.id, ...result }]. *)
Record Results := {
  r_approved : list (string * Outcome);
  r_flagged : list (string * Outcome);
  r_rejected : list (string * Outcome);
  r_no_image : list (string * Outcome);
  r_errors : list (string * Outcome)
}.

Definition empty_results : Results :=
  {| r_approved := []; r_flagged := []; r_rejected := [];
     r_no_image := []; r_errors := [] |}.

(** The [switch (result.status)] of [validateExercise]. *)
Definition push_result (results : Results) (shot : Shot) (result : Outcome)
    : Results :=
  let entry := (id shot, result) in
  match status result with
  | approved =>
      {| r_approved := r_approved results ++ [entry];
         r_flagged := r_flagged results; r_rejected := r_rejected results;
         r_no_image := r_no_image results; r_errors := r_errors results |}
  | flagged =>
      {| r_approved := r_approved results;
         r_flagged := r_flagged results ++ [entry];
         r_rejected := r_rejected results;
         r_no_image := r_no_image results; r_errors := r_errors results |}
  | rejected =>
      {| r_approved := r_approved results; r_flagged := r_flagged results;
         r_rejected := r_rejected results ++ [entry];
         r_no_image := r_no_image results; r_errors := r_errors results |}
  | no_image =>
      {| r_approved := r_approved results; r_flagged := r_flagged results;
         r_rejected := r_rejected results;
         r_no_image := r_no_image results ++ [entry];
         r_errors := r_errors results |}
  | error =>
      {| r_approved := r_approved results; r_flagged := r_flagged results;
         r_rejected := r_rejected results; r_no_image := r_no_image results;
         r_errors := r_errors results ++ [entry] |}
  end.

(** [if (item.validation?.issues)]: the entry of a flagged shot whose
    record has issues. *)
Definition flagged_issue (item : string * Outcome) : option BlockingIssue :=
  v ← validation item.2;
  if js_truthy (issues v)
  then Some {| bi_shot := item.1; bi_issues := default JNull (issues v) |}
  else None.

(** [issues: [item.message]]; every error outcome of [validateShot]
    carries a message. *)
Definition error_issue (item : string * Outcome) : BlockingIssue :=
  {| bi_shot := item.1;
     bi_issues := JArray [JString (default "" (o_message item.2))] |}.

Definition generateValidationSummary (exerciseName : string)
    (results : Results) (totalShots : nat) : Summary :=
  let approved := length (r_approved results) in
  let flagged := length (r_flagged results) in
  let rejected := length (r_rejected results) in
  let noImage := length (r_no_image results) in
  let errors := length (r_errors results) in
  (* Collect blocking issues *)
  let blockingIssues :=
    omap flagged_issue (r_flagged results)
    ++ map error_issue (r_errors results) in
  (* Determine if ready for assembly *)
  let readyForAssembly :=
    (flagged =? 0) && (rejected =? 0) && (errors =? 0) && (noImage =? 0)
    && (approved =? totalShots) in
  {| exercise := exerciseName;
     total_shots := totalShots;
     counts := {| c_approved := approved; c_flagged := flagged;
                  c_rejected := rejected; c_no_image := noImage;
                  c_errors := errors |};
     ready_for_assembly := readyForAssembly;
     blocking_issues := blockingIssues;
     summary_shots :=
       {| sl_approved := map fst (r_approved results);
          sl_flagged := map fst (r_flagged results);
          sl_rejected := map fst (r_rejected results);
          sl_no_image := map fst (r_no_image results);
          sl_errors := map fst (r_errors results) |} |}.

(** The [for] loop of [validateExercise] over the shots. *)
Fixpoint validate_shots (scriptData : JSON) (skipRegen : bool)
    (shots : list Shot) (results : Results) : M Results :=
  match shots with
  | [] => mret results
  | shot :: rest =>
      result ← validateShot shot scriptData skipRegen;
      validate_shots scriptData skipRegen rest (push_result results shot result)
  end.

Definition validateExercise (exerciseName : string) (skipRegen : bool)
    : M (Results * Summary) :=
  let exerciseDir := path_join (videoScriptsDir cfg) exerciseName in
  (* Validate exercise directory exists *)
  r ← attempt (fs_access exerciseDir);
  match r with
  | inl _ => throw (Error ("Exercise not found: " +:+ exerciseName))
  | inr _ =>
      (* Load script for TTS context *)
      scriptData ← loadScriptJson exerciseDir;
      (* Get all shot folders *)
      shots ← getShotFolders exerciseDir;
      if length shots =? 0 then
        throw (Error ("No shots found in: " +:+ show_path exerciseDir
                        +:+ "/shots/"))
      else
        results ← validate_shots scriptData skipRegen shots empty_results;
        (* Generate and save summary *)
        let summary :=
          generateValidationSummary exerciseName results (length shots) in
        fs_writeFile (path_join exerciseDir "validation-summary.json")
          (SummaryJson summary);;
        mret (results, summary)
  end.

(** ** main *)

(** An element of [allResults]: [{ exercise, success: true, summary }] or
    [{ exercise, success: false, error }]. *)
Record ExerciseResult := {
  er_exercise : string;
  er_outcome : string + Summary
}.

Definition er_success (r : ExerciseResult) : bool :=
  match er_outcome r with inr _ => true | inl _ => false end.

(** The [for (const exercise of exercises)] loop of [main]. *)
Fixpoint run_exercises (skipRegen : bool) (exercises : list string)
    (allResults : list ExerciseResult) : M (list ExerciseResult) :=
  match exercises with
  | [] => mret allResults
  | exercise :: rest =>
      r ← attempt (validateExercise exercise skipRegen);
      run_exercises skipRegen rest
        (allResults ++
           [{| er_exercise := exercise;
               er_outcome := match r with
                             | inr (_, summary) => inr summary
                             | inl err => inl (message err)
                             end |}])
  end.

Definition total_of (f : Counts -> nat) (allResults : list ExerciseResult)
    : nat :=
  foldl (fun acc r =>
           match er_outcome r with
           | inr summary => acc + f (counts summary)
           | inl _ => acc
           end) 0 allResults.

(** The last statement of [main]: [process.exit(1)] if any issues. *)
Definition exit_code (allResults : list ExerciseResult) : nat :=
  let totalFlagged := total_of c_flagged allResults in
  let totalErrors := total_of c_errors allResults in
  if (0 <? totalFlagged) || (0 <? totalErrors)
     || existsb (fun r => negb (er_success r)) allResults
  then 1 else 0.

(** The process: [process.argv] and the two keys of [process.env]. *)
Record Process := {
  argv : list string;
  FAL_KEY : option string;
  ANTHROPIC_API_KEY : option string
}.

(** [main], returning the exit code of the process and [allResults] (empty
    when the process exits before the loop). *)
Definition main (process : Process) : M (nat * list ExerciseResult) :=
  let args := drop 2 (argv process) in
  let exerciseName := find (fun a => negb (String.prefix "--" a)) args in
  let processAll := bool_decide ("--all" ∈ args) in
  let skipRegen := bool_decide ("--skip-regen" ∈ args) in
  if negb (truthy exerciseName) && negb processAll then mret (1, [])
  (* Validate environment *)
  else if negb (truthy (FAL_KEY process)) then mret (1, [])
  else if negb (truthy (ANTHROPIC_API_KEY process)) then mret (1, [])
  else
    (* Validate video-scripts directory *)
    r ← attempt (fs_access (videoScriptsDir cfg));
    match r with
    | inl _ => mret (1, [])
    | inr _ =>
        if processAll then
          entries ← fs_readdir (videoScriptsDir cfg);
          let exercises := map fst (filter (fun e => e.2 = true) entries) in
          if length exercises =? 0 then mret (1, [])
          else
            allResults ← run_exercises skipRegen exercises [];
            mret (exit_code allResults, allResults)
        else
          allResults ← run_exercises skipRegen [default "" exerciseName] [];
          mret (exit_code allResults, allResults)
    end.

(** The entry point: [main().catch(... process.exit(1))]. *)
Definition run_main (process : Process) : M nat :=
  try_catch (r ← main process; mret r.1) (fun _ => mret 1).

End Program.

(** * The rest of the validator, and the pipeline that calls the validation *)

(** ** src/utils/vision-validator.js: the media type of an image *)

(** [String.prototype.toLowerCase] on the ASCII letters.  The extensions
    [getMediaType] looks for are ASCII, and no character outside ASCII
    becomes one of their letters in lower case, so the rest of Unicode
    does not matter to the lookup. *)
Definition ascii_toLowerCase (c : Ascii.ascii) : Ascii.ascii :=
  let n := Ascii.nat_of_ascii c in
  if (65 <=? n) && (n <=? 90) then Ascii.ascii_of_nat (n + 32) else c.

Fixpoint toLowerCase (s : string) : string :=
  match s with
  | EmptyString => EmptyString
  | String c s' => String (ascii_toLowerCase c) (toLowerCase s')
  end.

(** The part of a string from its last dot on, if it has a dot. *)
Fixpoint from_last_dot (s : string) : option string :=
  match s with
  | EmptyString => None
  | String c s' =>
      match from_last_dot s' with
      | Some ext => Some ext
      | None => if String.eqb (String c "") "." then Some s else None
      end
  end.

(** [path.extname]: the extension of the last segment of the path, from
    its last dot on; empty when there is no dot, when the only dot is the
    first character of the name, and for the name [..]. *)
Definition extname (p : path) : string :=
  match last p with
  | Some (String c rest as name) =>
      if String.eqb name ".." then "" else default "" (from_last_dot rest)
  | _ => ""
  end.

(** The table [types] of [getMediaType]. *)
Definition types : list (string * string) :=
  [(".png", "image/png"); (".jpg", "image/jpeg"); (".jpeg", "image/jpeg");
   (".webp", "image/webp"); (".gif", "image/gif")].

(** [types[ext] || "image/png"]: every value of the table is a non-empty
    string, and an extension is empty or starts with a dot, so it names no
    inherited property of the object. *)
Definition getMediaType (filepath : path) : string :=
  let ext := toLowerCase (extname filepath) in
  match find (fun kv => String.eqb kv.1 ext) types with
  | Some kv => kv.2
  | None => "image/png"
  end.

(** ** The pipeline script (generate-video.js): its use of the validation *)

(** The options [parseArgs] collects. *)
Record Options := {
  opt_exerciseName : option string;
  opt_skipRegen : bool;
  opt_force : bool;
  opt_verbose : bool;
  opt_help : bool
}.

(** The body of the [for (const arg of args)] of [parseArgs]. *)
Definition parse_arg (options : Options) (arg : string) : Options :=
  if String.eqb arg "--skip-regen" then
    {| opt_exerciseName := opt_exerciseName options; opt_skipRegen := true;
       opt_force := opt_force options; opt_verbose := opt_verbose options;
       opt_help := opt_help options |}
  else if String.eqb arg "--force" then
    {| opt_exerciseName := opt_exerciseName options;
       opt_skipRegen := opt_skipRegen options; opt_force := true;
       opt_verbose := opt_verbose options; opt_help := opt_help options |}
  else if String.eqb arg "--verbose" then
    {| opt_exerciseName := opt_exerciseName options;
       opt_skipRegen := opt_skipRegen options; opt_force := opt_force options;
       opt_verbose := true; opt_help := opt_help options |}
  else if String.eqb arg "--help" || String.eqb arg "-h" then
    {| opt_exerciseName := opt_exerciseName options;
       opt_skipRegen := opt_skipRegen options; opt_force := opt_force options;
       opt_verbose := opt_verbose options; opt_help := true |}
  else if negb (String.prefix "--" arg) then
    {| opt_exerciseName := Some arg;
       opt_skipRegen := opt_skipRegen options; opt_force := opt_force options;
       opt_verbose := opt_verbose options; opt_help := opt_help options |}
  else options.

Definition parseArgs (args : list string) : Options :=
  foldl parse_arg
    {| opt_exerciseName := None; opt_skipRegen := false; opt_force := false;
       opt_verbose := false; opt_help := false |} args.

(** [results.phase6] of [runPipeline]: the sizes of the five buckets. *)
Record Phase6 := {
  p6_approved : nat;
  p6_flagged : nat;
  p6_rejected : nat;
  p6_noImage : nat;
  p6_errors : nat
}.

Definition phase6_of (validationResults : Results) : Phase6 :=
  {| p6_approved := length (r_approved validationResults);
     p6_flagged := length (r_flagged validationResults);
     p6_rejected := length (r_rejected validationResults);
     p6_noImage := length (r_no_image validationResults);
     p6_errors := length (r_errors validationResults) |}.

(** [readyForAssembly] of [generateReport]. *)
Definition readyForAssembly (phase6 : Phase6) : bool :=
  (p6_flagged phase6 =? 0) && (p6_errors phase6 =? 0)
  && (p6_noImage phase6 =? 0).

Section Pipeline.

Variable env : Env.
Variable root : path.
Variable cfg : Config.

(** The phase 6 block of [runPipeline]: the validation of the exercise,
    whose failure is raised again as "Phase 6 failed: ...".  (The record
    the [catch] stores in [results.phase6] before it raises is local to
    [runPipeline] and lost with it.) *)
Definition run_phase6 (exerciseName : string) (options : Options)
    : M (Phase6 * Summary) :=
  try_catch
    (r ← validateExercise env root cfg exerciseName (opt_skipRegen options);
     mret (phase6_of r.1, r.2))
    (fun error => throw (Error ("Phase 6 failed: " +:+ message error))).

End Pipeline.

(** * Vocabulary of the proofs *)

(** ** How a run changes the world *)

(** The file system after a run is the file system before it with the
    writes of the trace applied in order. *)
Definition apply_event (f : gmap path File) (e : Event) : gmap path File :=
  match e with
  | EvWrite p c => <[p := c]> f
  | _ => f
  end.

Definition apply_writes (t : list Event) (f : gmap path File)
    : gmap path File :=
  foldl apply_event f t.

Definition writes_to (p : path) (t : list Event) : list File :=
  omap (fun e => match e with
                 | EvWrite q c => if bool_decide (q = p) then Some c else None
                 | _ => None
                 end) t.

(** The listings after a run: each write of the trace enters its file in
    the listing of its directory. *)
Definition apply_entry (d : gmap path (gmap string bool)) (e : Event)
    : gmap path (gmap string bool) :=
  match e with
  | EvWrite p _ => add_entry p d
  | _ => d
  end.

Definition apply_entries (t : list Event) (d : gmap path (gmap string bool))
    : gmap path (gmap string bool) :=
  foldl apply_entry d t.

(** [evolves t w w']: the run from [w] to [w'] appended [t] to the trace,
    changed the files and the listings by the writes of [t] only, and lost
    no cached configuration. *)
Record evolves (t : list Event) (w w' : World) : Prop := {
  ev_trace : trace w' = trace w ++ t;
  ev_fs : fs w' = apply_writes t (fs w);
  ev_dirs : dirs w' = apply_entries t (dirs w);
  ev_cfg : PROMPTS_CONFIG w' = PROMPTS_CONFIG w
           \/ (PROMPTS_CONFIG w = None /\ is_Some (PROMPTS_CONFIG w'))
}.

(** ** Results of the remote calls *)

Definition edit_result (reply : FalReply) : Res string :=
  match reply with
  | FalRejects e => Throw e
  | FalResult (url :: _) _ => Ok url
  | FalResult [] (url :: _) => Ok url
  | FalResult [] [] => Throw (Error "No image returned from nano-banana")
  end.

Definition refine_event (vr : ValidationResult) (st : LoopState) : Event :=
  EvRefine (currentPrompt st) (or_empty (issues vr))
    (or_empty (suggestions vr)) (criteria_scores vr).

(** The outcome of a run of the loop: the [return] executed in it, or the
    [return] after it. *)
Definition Res_map {A B} (f : A -> B) (r : Res A) : Res B :=
  match r with
  | Ok a => Ok (f a)
  | Throw e => Throw e
  | Diverge => Diverge
  end.

(** ** Shots, loop states, persisted records *)

Definition imagePath_of (shot : Shot) : path := path_join (dir shot) "image.png".
Definition validationPath_of (shot : Shot) : path :=
  path_join (dir shot) "validation.json".

(** The files [validateShot] may write. *)
Definition shot_files (shot : Shot) : list path :=
  [imagePath_of shot; validationPath_of shot; promptPath shot].

(** A shot as [getShotFolders] builds it: prompt.json lies in the folder. *)
Definition well_formed_shot (shot : Shot) : Prop :=
  promptPath shot = path_join (dir shot) "prompt.json".

Definition initial_state (pd : PromptData) : LoopState :=
  {| iteration := default 0 (validation_iteration pd);
     currentPrompt := engineered_prompt pd;
     promptData := pd |}.

Definition unexpected_end : Outcome :=
  {| status := error;
     o_message := Some "Unexpected end of validation loop";
     validation := None |}.

Definition loop_result (r : Step LoopState Outcome) : Outcome :=
  match r with
  | Return o => o
  | Continue _ => unexpected_end
  end.

(** The iteration counts written to prompt.json at path [pp], in order. *)
Definition iteration_written (pp : path) (e : Event) : option nat :=
  match e with
  | EvWrite p (PromptJson pd) =>
      if bool_decide (p = pp) then validation_iteration pd else None
  | _ => None
  end.

Definition iteration_writes (pp : path) (t : list Event) : list nat :=
  omap (iteration_written pp) t.

Definition history_length (pd : PromptData) : nat :=
  length (default [] (prompt_history pd)).

(** In state [st] the history has one entry per iteration, and the record
    carries the iteration count of the state. *)
Definition history_consistent (st : LoopState) : Prop :=
  history_length (promptData st) = iteration st
  /\ default 0 (validation_iteration (promptData st)) = iteration st.

(** The time stamp of a record written after the events [t]. *)
Definition timestamp_after (env : Env) (w : World) (t : list Event) : string :=
  now env (length (trace w) + length t).

Definition approved_outcome (vd : ValidationData) : Outcome :=
  {| status := approved; o_message := None; validation := Some vd |}.
Definition flagged_outcome (vd : ValidationData) : Outcome :=
  {| status := flagged; o_message := None; validation := Some vd |}.
Definition error_outcome (msg : string) (vd : ValidationData) : Outcome :=
  {| status := error; o_message := Some msg; validation := Some vd |}.

Definition bucket_total (results : Results) : nat :=
  length (r_approved results) + length (r_flagged results)
  + length (r_rejected results) + length (r_no_image results)
  + length (r_errors results).

(** The number of outcomes with a given status. *)
Definition count_status (s : Status) (outcomes : list Outcome) : nat :=
  length (filter (fun o => status o = s) outcomes).

(** The buckets after the outcomes of some shots have been pushed. *)
Definition push_results (results : Results) (l : list (Shot * Outcome))
    : Results :=
  foldl (fun r so => push_result r so.1 so.2) results l.

(** Nothing in [validateExercise] runs on: each step returns or raises. *)
Definition terminates {A} (m : M A) : Prop := forall w, (m w).1 <> Diverge.

(** ** Outcomes of the functions, as relations *)

Section Vocabulary.

Context (env : Env) (root : path) (cfg : Config).

(** The configuration can be loaded: it is cached, or the file is there. *)
Definition config_available (w : World) : Prop :=
  is_Some (PROMPTS_CONFIG w)
  \/ exists c, fs w !! promptsPath root = Some (ConfigJson c).

(** What [validateImage] returns, as a function of the reply to its
    request: the [try] block and its [catch]. *)
Definition judge_result (reply : ApiReply) : Res ValidationResult :=
  match reply with
  | ApiRejects e =>
      if instanceof_SyntaxError e then Ok (parse_failure_result (message e))
      else Throw e
  | ApiResponse content =>
      match find_text content with
      | None => Throw (Error "No text response from Claude")
      | Some textContent =>
          match JSON_parse env (trim env (cb_text textContent)) with
          | inl msg => Ok (parse_failure_result msg)
          | inr result => Ok (success_result result)
          end
      end
  end.

(** What the [console.log] of a pass evaluate once the judge has answered. *)
Definition log_lines (vr : ValidationResult) : Exn + unit :=
  if overall_pass vr then toFixed (confidence vr) else log_failed env vr.

(** The request [refinePrompt] builds for a failed validation. *)
Definition refine_request (vr : ValidationResult) : Exn + unit :=
  userPrompt env (or_empty (issues vr)) (or_empty (suggestions vr))
    (criteria_scores vr).

(** Every result [validateImage] makes of a reply of the judge can be
    logged: its confidence is a number, and the issues of a failed
    validation can be printed. *)
Definition replies_loggable : Prop :=
  forall n vr,
    judge_result (vision_reply env n) = Ok vr -> log_lines vr = inr tt.

(** What [refinePrompt] returns once its request is made: the trimmed text
    of the reply, or the original prompt when the call fails. *)
Definition refine_result (originalPrompt : string) (reply : ApiReply)
    : string :=
  match reply with
  | ApiRejects _ => originalPrompt
  | ApiResponse content =>
      match find_text content with
      | None => originalPrompt
      | Some textContent => trim env (cb_text textContent)
      end
  end.

(** The prompt [refinePrompt] hands back in state [st] of world [w]. *)
Definition refined_prompt (st : LoopState) (w : World) : string :=
  refine_result (currentPrompt st)
    (refine_reply env (count_ev is_refine (trace w))).

Definition regenerated_state (vr : ValidationResult) (st : LoopState)
    (w : World) : LoopState :=
  {| iteration := iteration st + 1;
     currentPrompt := refined_prompt st w;
     promptData := updated_promptData vr (refined_prompt st w) st |}.

Section PassVocabulary.

Context (shot : Shot) (ip vp ap : path) (tts : JSON) (skipRegen : bool).

(** The ways the [try] block [regenerate] ends, with the events of each. *)
Inductive regen_outcome (vr : ValidationResult) (st : LoopState) (w : World)
  : Res LoopState -> list Event -> Prop :=
| regen_no_config e :
    ~ config_available w ->
    regen_outcome vr st w (Throw e) []
| regen_no_request e :
    refine_request vr = inl e ->
    regen_outcome vr st w (Throw e) []
| regen_no_anchor e :
    fs w !! (root ++ anchor_image (promptData st)) = None ->
    regen_outcome vr st w (Throw e) [refine_event vr st]
| regen_edit_failed a e :
    edit_result (fal_reply env (count_ev is_edit (trace w))) = Throw e ->
    regen_outcome vr st w (Throw e)
      [refine_event vr st; EvEdit a (refined_prompt st w)]
| regen_fetch_failed a url e :
    edit_result (fal_reply env (count_ev is_edit (trace w))) = Ok url ->
    fetch_reply env (count_ev is_fetch (trace w)) = FetchRejects e ->
    regen_outcome vr st w (Throw e)
      [refine_event vr st; EvEdit a (refined_prompt st w); EvFetch url]
| regen_done a url b :
    edit_result (fal_reply env (count_ev is_edit (trace w))) = Ok url ->
    fetch_reply env (count_ev is_fetch (trace w)) = FetchBody b ->
    regen_outcome vr st w (Ok (regenerated_state vr st w))
      [refine_event vr st; EvEdit a (refined_prompt st w); EvFetch url;
       EvWrite ip (ImageFile b);
       EvWrite (promptPath shot)
         (PromptJson (updated_promptData vr (refined_prompt st w) st))].

(** The records of the three outcomes a pass can write. *)
Definition approved_record (vr : ValidationResult) (st : LoopState)
    (w : World) : ValidationData :=
  validationData_of vr st (timestamp env w) None None.
Definition flagged_record (vr : ValidationResult) (st : LoopState)
    (w : World) : ValidationData :=
  validationData_of vr st (timestamp env w) (Some flagged) None.
Definition error_record (vr : ValidationResult) (st : LoopState)
    (w : World) (t : list Event) (e : Exn) : ValidationData :=
  validationData_of vr st (timestamp_after env w t) (Some error)
    (Some (message e)).

(** The ways a pass ends once the judge has answered [vr]: it raises when
    a [console.log] does, before anything is written; otherwise it returns
    or goes on. *)
Inductive pass_outcome (vr : ValidationResult) (st : LoopState) (w : World)
  : Res (Step LoopState Outcome) -> list Event -> Prop :=
| pass_raised e :
    log_lines vr = inl e ->
    pass_outcome vr st w (Throw e) []
| pass_approved :
    overall_pass vr = true ->
    log_lines vr = inr tt ->
    pass_outcome vr st w
      (Ok (Return (approved_outcome (approved_record vr st w))))
      [EvWrite vp (ValidationJson (approved_record vr st w))]
| pass_flagged :
    overall_pass vr = false ->
    log_lines vr = inr tt ->
    skipRegen || (maxIterations cfg <=? iteration st) = true ->
    pass_outcome vr st w
      (Ok (Return (flagged_outcome (flagged_record vr st w))))
      [EvWrite vp (ValidationJson (flagged_record vr st w))]
| pass_regenerated st' t :
    overall_pass vr = false ->
    log_lines vr = inr tt ->
    skipRegen = false -> iteration st < maxIterations cfg ->
    regen_outcome vr st w (Ok st') t ->
    pass_outcome vr st w (Ok (Continue st')) t
| pass_regen_failed e t :
    overall_pass vr = false ->
    log_lines vr = inr tt ->
    skipRegen = false -> iteration st < maxIterations cfg ->
    regen_outcome vr st w (Throw e) t ->
    pass_outcome vr st w
      (Ok (Return (error_outcome (message e) (error_record vr st w t e))))
      (t ++ [EvWrite vp (ValidationJson (error_record vr st w t e))]).

Definition vision_event (st : LoopState) : Event :=
  EvVision ip ap (currentPrompt st) tts.

(** The ways a pass through the loop body ends. *)
Inductive body_outcome (st : LoopState) (w : World)
  : Res (Step LoopState Outcome) -> list Event -> Prop :=
| body_judge_failed e t :
    (validateImage env root ip ap (currentPrompt st) tts w).1 = Throw e ->
    t = [] \/ t = [vision_event st] ->
    body_outcome st w (Ok (Return (validation_error_outcome e))) t
| body_validated vr w1 r t :
    validateImage env root ip ap (currentPrompt st) tts w = (Ok vr, w1) ->
    evolves [vision_event st] w w1 ->
    is_Some (PROMPTS_CONFIG w1) ->
    pass_outcome vr st w1 r t ->
    body_outcome st w r (vision_event st :: t).

(** A run of the [while] loop from state [st] in world [w]: its result and
    the events it adds. *)
Inductive loop_run : LoopState -> World -> Res (Step LoopState Outcome)
    -> list Event -> Prop :=
| loop_exit st w :
    loop_cond cfg st = false ->
    loop_run st w (Ok (Continue st)) []
| loop_return st w o t :
    loop_cond cfg st = true ->
    body_outcome st w (Ok (Return o)) t ->
    loop_run st w (Ok (Return o)) t
| loop_raised st w e t :
    loop_cond cfg st = true ->
    body_outcome st w (Throw e) t ->
    loop_run st w (Throw e) t
| loop_continue st w st' w' t r t' :
    loop_cond cfg st = true ->
    body_outcome st w (Ok (Continue st')) t ->
    evolves t w w' ->
    loop_run st' w' r t' ->
    loop_run st w r (t ++ t').

End PassVocabulary.

(** The ways [validateShot] ends, with the events of each. *)
Inductive shot_outcome (shot : Shot) (scriptData : JSON)
    (skipRegen : bool) (w : World) : Res Outcome -> list Event -> Prop :=
| shot_no_image :
    path_exists w (imagePath_of shot) = false ->
    shot_outcome shot scriptData skipRegen w
      (Ok {| status := no_image;
             o_message := Some "No image.png found in shot folder";
             validation := None |}) []
| shot_prompt_unreadable e :
    path_exists w (imagePath_of shot) = true ->
    loadPromptJson (promptPath shot) w = (Throw e, w) ->
    shot_outcome shot scriptData skipRegen w
      (Ok {| status := error;
             o_message := Some ("Failed to load prompt.json: " +:+ message e);
             validation := None |}) []
| shot_script_raised pd e :
    path_exists w (imagePath_of shot) = true ->
    loadPromptJson (promptPath shot) w = (Ok pd, w) ->
    getTtsContextForShot env (id shot) scriptData = inl e ->
    shot_outcome shot scriptData skipRegen w (Throw e) []
| shot_anchor_missing pd tts :
    path_exists w (imagePath_of shot) = true ->
    loadPromptJson (promptPath shot) w = (Ok pd, w) ->
    getTtsContextForShot env (id shot) scriptData = inr tts ->
    path_exists w (root ++ anchor_image pd) = false ->
    shot_outcome shot scriptData skipRegen w
      (Ok {| status := error;
             o_message := Some ("Anchor image not found: "
                                  +:+ show_path (root ++ anchor_image pd));
             validation := None |}) []
| shot_looped pd tts r t :
    path_exists w (imagePath_of shot) = true ->
    loadPromptJson (promptPath shot) w = (Ok pd, w) ->
    getTtsContextForShot env (id shot) scriptData = inr tts ->
    path_exists w (root ++ anchor_image pd) = true ->
    loop_run shot (imagePath_of shot) (validationPath_of shot)
      (root ++ anchor_image pd) tts skipRegen (initial_state pd) w r t ->
    shot_outcome shot scriptData skipRegen w (Res_map loop_result r) t.

(** The outcomes [validateShot] returns for the shots of a list, one shot
    after the other, each in the world the one before it left. *)
Inductive shots_run (scriptData : JSON) (skipRegen : bool)
    : list Shot -> World -> list Outcome -> World -> Prop :=
| shots_run_nil w : shots_run scriptData skipRegen [] w [] w
| shots_run_cons shot rest w o w1 outcomes w' :
    validateShot env root cfg shot scriptData skipRegen w = (Ok o, w1) ->
    shots_run scriptData skipRegen rest w1 outcomes w' ->
    shots_run scriptData skipRegen (shot :: rest) w (o :: outcomes) w'.

(** The states the loop passes through: [reaches st w st' w'] when the
    loop started in [st], [w] is at the head of a pass in [st'], [w']. *)
Inductive reaches (shot : Shot) (ip vp ap : path) (tts : JSON)
    (skipRegen : bool) : LoopState -> World -> LoopState -> World -> Prop :=
| reaches_here st w : reaches shot ip vp ap tts skipRegen st w st w
| reaches_next st w st' w' st'' w'' :
    loop_cond cfg st = true ->
    loop_body env root cfg shot ip vp ap tts skipRegen st w
    = (Ok (Continue st'), w') ->
    reaches shot ip vp ap tts skipRegen st' w' st'' w'' ->
    reaches shot ip vp ap tts skipRegen st w st'' w''.

End Vocabulary.

(** A run without writes leaves the files and the listings as they
    were. *)
Definition no_writes (t : list Event) : Prop :=
  Forall (fun e => match e with EvWrite _ _ => False | _ => True end) t.

(** The directories in which a run has written. *)
Definition written_dirs (t : list Event) : list path :=
  omap (fun e => match e with
                 | EvWrite p _ => Some (dirname p)
                 | _ => None
                 end) t.

(** The state a pass leaves behind: the new one when the loop goes on,
    the old one when the pass returns or raises. *)
Definition state_after (st : LoopState) (r : Res (Step LoopState Outcome))
    : LoopState :=
  match r with
  | Ok (Continue st') => st'
  | _ => st
  end.

(** * Vocabulary of the further properties *)


(** The prompts the judge was asked about, in the order of the calls. *)
Definition judged_prompts (t : list Event) : list string :=
  omap (fun e => match e with
                 | EvVision _ _ prompt _ => Some prompt
                 | _ => None
                 end) t.

(** The judge fails every image it is shown, with a result that can be
    logged and from which the request of the refiner can be built. *)
Definition judge_always_fails (env : Env) : Prop :=
  forall n, exists vr,
    judge_result env (vision_reply env n) = Ok vr /\ overall_pass vr = false
    /\ log_lines env vr = inr tt /\ refine_request env vr = inr tt.

(** The generator always returns an image, and its download succeeds. *)
Definition generation_always_succeeds (env : Env) : Prop :=
  (forall n, exists url, edit_result (fal_reply env n) = Ok url)
  /\ (forall n, exists b, fetch_reply env n = FetchBody b).

(** The shot folder [getShotFolders] builds for the entry [name] of the
    shots directory. *)
Definition shot_folder (shotsDir : path) (name : string) : Shot :=
  {| id := name;
     dir := path_join shotsDir name;
     promptPath := path_join (path_join shotsDir name) "prompt.json" |}.

(** The entries [getShotFolders] keeps: directories that hold a
    prompt.json. *)
Definition is_shot_entry (w : World) (shotsDir : path) (e : string * bool)
    : bool :=
  e.2 && path_exists w (promptPath (shot_folder shotsDir e.1)).

Definition shot_folders_of (w : World) (shotsDir : path)
    (entries : list (string * bool)) : list Shot :=
  map (fun e => shot_folder shotsDir e.1)
    (filter (fun e => is_shot_entry w shotsDir e = true) entries).

(** Each shot comes before the next one in the order of [localeCompare]. *)
Fixpoint ascending (cmp : string -> string -> Z) (shots : list Shot) : Prop :=
  match shots with
  | a :: (b :: _) as rest => (cmp (id a) (id b) <= 0)%Z /\ ascending cmp rest
  | _ => True
  end.

(** The script [loadScriptJson] finds in an exercise directory: the value
    of script.json, [null] when there is none. *)
Definition script_of (w : World) (exerciseDir : path) : JSON :=
  default JNull (fs w !! path_join exerciseDir "script.json" ≫= as_script).

(** The shot ids of the five buckets, and of the five lists of a summary. *)
Definition bucket_ids (results : Results) : list string :=
  map fst (r_approved results) ++ map fst (r_flagged results)
  ++ map fst (r_rejected results) ++ map fst (r_no_image results)
  ++ map fst (r_errors results).

Definition summary_ids (s : Summary) : list string :=
  sl_approved (summary_shots s) ++ sl_flagged (summary_shots s)
  ++ sl_rejected (summary_shots s) ++ sl_no_image (summary_shots s)
  ++ sl_errors (summary_shots s).

(** An exercise that [main] counts as clean: it succeeded, with no flagged
    shot and no error. *)
Definition clean_exercise (r : ExerciseResult) : Prop :=
  exists s, er_outcome r = inr s
    /\ c_flagged (counts s) = 0 /\ c_errors (counts s) = 0.

(** The media types [getMediaType] knows. *)
Definition media_types : list string :=
  ["image/png"; "image/jpeg"; "image/webp"; "image/gif"].

(** An argument [parseArgs] takes for the exercise name: neither [-h] nor
    a word that starts with two dashes. *)
Definition positional (arg : string) : bool :=
  negb (String.prefix "--" arg) && negb (String.eqb arg "-h").

(** * Concrete worlds and runs *)

Module Example.

Definition root : path := ["proj"].
Definition cfg : Config := CONFIG root.

Definition pass_judgement : JSON :=
  JObject [("overall_pass", JBool true); ("confidence", JNumber (9 # 10));
           ("criteria_scores", JObject [("pose_accuracy", JNumber (9 # 10))]);
           ("issues", JArray []); ("suggestions", JArray [])].

Definition fail_judgement : JSON :=
  JObject [("overall_pass", JBool false); ("confidence", JNumber (3 # 10));
           ("criteria_scores", JObject [("pose_accuracy", JNumber (3 # 10))]);
           ("issues", JArray [JString "pose wrong"])].

(** Two replies that lack the confidence: [{"overall_pass": false,
    "issues": ["x"]}] and [{"overall_pass": true}]. *)
Definition fail_without_confidence : JSON :=
  JObject [("overall_pass", JBool false); ("issues", JArray [JString "x"])].

Definition pass_without_confidence : JSON :=
  JObject [("overall_pass", JBool true)].

(** A stand-in for [JSON.parse] on the replies used below. *)
Definition parse (s : string) : string + JSON :=
  if String.eqb s "PASS" then inr pass_judgement
  else if String.eqb s "FAIL" then inr fail_judgement
  else if String.eqb s "FAIL, NO CONFIDENCE" then inr fail_without_confidence
  else if String.eqb s "PASS, NO CONFIDENCE" then inr pass_without_confidence
  else inl "Unexpected token g in JSON at position 0".

Definition text (s : string) : ApiReply :=
  ApiResponse [{| cb_type := "text"; cb_text := s |}].

Definition make_env (vision refine : nat -> ApiReply) (fal : nat -> FalReply)
    : Env :=
  {| vision_reply := vision;
     refine_reply := refine;
     fal_reply := fal;
     fetch_reply := fun _ => FetchBody "png bytes";
     now := fun _ => "2025-01-01T00:00:00.000Z";
     trim := fun s => s;
     JSON_parse := parse;
     localeCompare := fun a b =>
       match String.compare a b with
       | Lt => (-1)%Z | Eq => 0%Z | Gt => 1%Z
       end;
     number_text := fun _ => "0.5";
     converts_above_zero := fun _ => false;
     lowest_two := take 2 |}.

(** The judge passes every image. *)
Definition env_pass : Env :=
  make_env (fun _ => text "PASS") (fun _ => text "better prompt")
    (fun _ => FalResult ["http://fal/img.png"] []).

(** The first reply of the judge is not JSON; the later ones pass. *)
Definition env_unparseable : Env :=
  make_env (fun n => if Nat.eqb n 0 then text "garbage" else text "PASS")
    (fun _ => text "better prompt")
    (fun _ => FalResult ["http://fal/img.png"] []).

(** The judge fails the first image and passes the later ones; the
    generator fails. *)
Definition env_generation_fails : Env :=
  make_env (fun n => if Nat.eqb n 0 then text "FAIL" else text "PASS")
    (fun _ => text "better prompt")
    (fun _ => FalRejects (Error "fal: service unavailable")).

(** The judge fails the first image; the request of the refiner fails. *)
Definition env_refiner_fails : Env :=
  make_env (fun n => if Nat.eqb n 0 then text "FAIL" else text "PASS")
    (fun _ => ApiRejects (Error "529 overloaded"))
    (fun _ => FalResult ["http://fal/img.png"] []).

(** The judge fails every image. *)
Definition env_fail : Env :=
  make_env (fun _ => text "FAIL") (fun _ => text "better prompt")
    (fun _ => FalResult ["http://fal/img.png"] []).

(** The first reply of the judge fails the image and has no confidence;
    the later ones pass. *)
Definition env_fail_without_confidence : Env :=
  make_env
    (fun n => if Nat.eqb n 0 then text "FAIL, NO CONFIDENCE" else text "PASS")
    (fun _ => text "better prompt")
    (fun _ => FalResult ["http://fal/img.png"] []).

(** The judge passes every image, without a confidence. *)
Definition env_pass_without_confidence : Env :=
  make_env (fun _ => text "PASS, NO CONFIDENCE")
    (fun _ => text "better prompt")
    (fun _ => FalResult ["http://fal/img.png"] []).

Definition anchor : path := ["output"; "anchors-selected"; "bent.png"].

(** prompt.json as phase 5 writes it. *)
Definition pd0 : PromptData :=
  {| anchor_image := anchor; engineered_prompt := "orange mannequin, rowing";
     validation_iteration := None; prompt_history := Some [] |}.

Definition shots_dir : path := videoScriptsDir cfg ++ ["row"; "shots"].

Definition shot_of (name : string) : Shot :=
  {| id := name; dir := shots_dir ++ [name];
     promptPath := shots_dir ++ [name; "prompt.json"] |}.

Definition shotA : Shot := shot_of "01-start".
Definition shotB : Shot := shot_of "02-pull".
Definition shotC : Shot := shot_of "03-end".

Definition prompts_config : PromptsConfig :=
  {| validation_system := "You are a strict visual QA judge.";
     validation_criteria := [("pose_accuracy", "The pose matches the prompt")];
     confidence_threshold := 7 # 10;
     refinement_system := "You improve image prompts.";
     refinement_constraints := ["Keep the character description"] |}.

(** Exercise "row": shots 01-start and 02-pull have an image, 03-end has
    none.  Exercise "empty" has no shots folder. *)
Definition w0 : World :=
  {| fs :=
       <[imagePath_of shotA := ImageFile "image A"]>
       (<[promptPath shotA := PromptJson pd0]>
       (<[imagePath_of shotB := ImageFile "image B"]>
       (<[promptPath shotB := PromptJson pd0]>
       (<[promptPath shotC := PromptJson pd0]>
       (<[root ++ anchor := ImageFile "anchor"]>
       (<[promptsPath root := ConfigJson prompts_config]> ∅))))));
     dirs :=
       <[videoScriptsDir cfg := {["empty" := true; "row" := true]}]>
       (<[videoScriptsDir cfg ++ ["empty"] := ∅]>
       (<[videoScriptsDir cfg ++ ["row"] := {["shots" := true]}]>
       (<[shots_dir := {["01-start" := true; "02-pull" := true;
                         "03-end" := true]}]>
       (<[dir shotA := {["image.png" := false; "prompt.json" := false]}]>
       (<[dir shotB := {["image.png" := false; "prompt.json" := false]}]>
       (<[dir shotC := {["prompt.json" := false]}]> ∅))))));
     PROMPTS_CONFIG := None;
     anchorCache := ∅;
     trace := [] |}.

(** The exercises of the examples have no script.json. *)
Definition tts0 : JSON := JString "No script context available".

Definition process_row : Process :=
  {| argv := ["node"; "phase6-validation.js"; "row"];
     FAL_KEY := Some "fal-key"; ANTHROPIC_API_KEY := Some "sk-key" |}.

(** Runs used by the witnesses and the counterexamples. *)

Definition garbage_block : ContentBlock :=
  {| cb_type := "text"; cb_text := "garbage" |}.

Definition parse_error : string := "Unexpected token g in JSON at position 0".

Definition run_unparseable : Res Outcome * World :=
  validateShot env_unparseable root cfg shotA JNull false w0.


Definition run_no_image : Res Outcome * World :=
  validateShot env_pass root cfg shotC JNull false w0.

(** One pass of the loop on shot 01-start when the generator fails. *)
Definition pass_generation_fails : Res (Step LoopState Outcome) * World :=
  loop_body env_generation_fails root cfg shotA (imagePath_of shotA)
    (validationPath_of shotA) (root ++ anchor) tts0 false
    (initial_state pd0) w0.

Definition step_of (r : Res (Step LoopState Outcome))
    : Step LoopState Outcome :=
  match r with
  | Ok s => s
  | _ => Continue (initial_state pd0)
  end.

Definition judged_once (e : Env) : Res ValidationResult * World :=
  validateImage e root (imagePath_of shotA) (root ++ anchor)
    (engineered_prompt pd0) tts0 w0.

Definition exercise_run : Res (Results * Summary) * World :=
  validateExercise env_pass root cfg "row" false w0.

Definition exercise_results : Results :=
  match exercise_run.1 with
  | Ok (results, _) => results
  | _ => empty_results
  end.

Definition exercise_summary : Summary :=
  match exercise_run.1 with
  | Ok (_, summary) => summary
  | _ => generateValidationSummary "row" empty_results 0
  end.

(** A batch of two exercises, the first of which fails. *)
Definition batch_run : Res (list ExerciseResult) * World :=
  run_exercises env_pass root cfg false ["empty"; "row"] [] w0.

Definition batch_results : list ExerciseResult :=
  match batch_run.1 with
  | Ok allResults => allResults
  | _ => []
  end.

(** The outcome a run returned, if it returned one. *)
Definition outcome_of (r : Res Outcome) : option Outcome :=
  match r with
  | Ok o => Some o
  | _ => None
  end.

(** prompt.json of shot 01-start with iteration count 1 and no history:
    the two fields are read independently of each other. *)
Definition pd_inconsistent : PromptData :=
  {| anchor_image := anchor; engineered_prompt := "orange mannequin, rowing";
     validation_iteration := Some 1; prompt_history := None |}.

Definition w_inconsistent : World :=
  set_fs (<[promptPath shotA := PromptJson pd_inconsistent]> (fs w0)) w0.

Definition run_inconsistent : Res Outcome * World :=
  validateShot env_fail root cfg shotA JNull false w_inconsistent.

(** The runs in which a reply of the judge lacks the confidence. *)
Definition shot_fail_without_confidence : Res Outcome * World :=
  validateShot env_fail_without_confidence root cfg shotA JNull false w0.

Definition shots_fail_without_confidence : Res Results * World :=
  validate_shots env_fail_without_confidence root cfg JNull false
    [shotA; shotB; shotC] empty_results w0.

Definition exercise_fail_without_confidence
    : Res (Results * Summary) * World :=
  validateExercise env_fail_without_confidence root cfg "row" false w0.

Definition main_fail_without_confidence
    : Res (nat * list ExerciseResult) * World :=
  main env_fail_without_confidence root cfg process_row w0.

Definition shot_pass_without_confidence : Res Outcome * World :=
  validateShot env_pass_without_confidence root cfg shotA JNull false w0.

Definition toFixed_of_undefined : Exn :=
  TypeError "Cannot read properties of undefined (reading 'toFixed')".

(** The request of the refiner for one issue, when its service rejects
    the request. *)
Definition refiner_rejected : Res string * World :=
  refinePrompt env_refiner_fails root "orange mannequin, rowing"
    (JArray [JString "pose wrong"]) (JArray [])
    (Some (JObject [("pose_accuracy", JNumber (3 # 10))])) w0.



Definition approved_count (r : ExerciseResult) : nat :=
  match er_outcome r with
  | inr summary => c_approved (counts summary)
  | inl _ => 0
  end.

End Example.

(** * Further concrete worlds and runs *)

Module Scenarios.

Import Example.

(** The judge's service is down. *)
Definition env_judge_down : Env :=
  make_env (fun _ => ApiRejects (Error "529 overloaded"))
    (fun _ => text "better prompt")
    (fun _ => FalResult ["http://fal/img.png"] []).

(** The world once the configuration has been loaded, and the same world
    with the configuration file gone. *)
Definition config_loaded : Res PromptsConfig * World :=
  loadPromptsConfig root w0.

Definition config_file_deleted : World :=
  set_fs (delete (promptsPath root) (fs config_loaded.2)) config_loaded.2.

(** prompt.json of shot 01-start with an iteration count above the
    bound. *)
Definition pd_beyond : PromptData :=
  {| anchor_image := anchor; engineered_prompt := "orange mannequin, rowing";
     validation_iteration := Some 3; prompt_history := Some [] |}.

Definition w_beyond : World :=
  set_fs (<[promptPath shotA := PromptJson pd_beyond]> (fs w0)) w0.

(** The first pass of the loop on shot 01-start when the judge fails
    every image. *)
Definition first_pass : Res (Step LoopState Outcome) * World :=
  loop_body env_fail root cfg shotA (imagePath_of shotA)
    (validationPath_of shotA) (root ++ anchor_image pd0)
    tts0 false (initial_state pd0) w0.

Definition state_after_first_pass : LoopState :=
  match first_pass.1 with
  | Ok (Continue st) => st
  | _ => initial_state pd0
  end.

(** The anchor of the shots, read for the first time, and the world in
    which the file has been replaced since. *)
Definition anchor_read : Res File * World := getAnchorDataUrl root anchor w0.

Definition anchor_replaced : World :=
  set_fs (<[root ++ anchor := ImageFile "another anchor"]> (fs anchor_read.2))
    anchor_read.2.

Definition row_dir : path := videoScriptsDir cfg ++ ["row"].

(** The shot folders of exercise "row", and the validation of exercise
    "empty". *)
Definition row_shots : Res (list Shot) * World :=
  getShotFolders env_pass row_dir w0.

Definition empty_run : Res (Results * Summary) * World :=
  validateExercise env_pass root cfg "empty" false w0.

(** A command line with no exercise and no [--all]. *)
Definition process_bare : Process :=
  {| argv := ["node"; "phase6-validation.js"; "--skip-regen"];
     FAL_KEY := Some "fal-key"; ANTHROPIC_API_KEY := Some "sk-key" |}.

End Scenarios.


(** * Reasoning about runs *)

(** ** The monad *)

Lemma bind_run {A B} (m : M A) (f : A -> M B) (w : World) :
  (m ≫= f) w =
  match m w with
  | (Ok a, w') => f a w'
  | (Throw e, w') => (Throw e, w')
  | (Diverge, w') => (Diverge, w')
  end.
Proof. reflexivity. Qed.

Lemma bind_ok {A B} (m : M A) (f : A -> M B) w a w' :
  m w = (Ok a, w') -> (m ≫= f) w = f a w'.
Proof. intros E. rewrite bind_run, E. reflexivity. Qed.

Lemma try_catch_run {A} (m : M A) (h : Exn -> M A) (w : World) :
  try_catch m h w =
  match m w with
  | (Throw e, w') => h e w'
  | r => r
  end.
Proof. reflexivity. Qed.

Lemma attempt_run {A} (m : M A) (w : World) :
  attempt m w =
  match m w with
  | (Ok a, w') => (Ok (inr a), w')
  | (Throw e, w') => (Ok (inl e), w')
  | (Diverge, w') => (Diverge, w')
  end.
Proof.
  unfold attempt. rewrite try_catch_run, bind_run.
  destruct (m w) as [[a|e|] w']; reflexivity.
Qed.

(** ** How a run changes the world *)

Lemma evolves_refl w : evolves [] w w.
Proof.
  split; simpl; auto. by rewrite app_nil_r.
Qed.

Lemma evolves_trans t1 t2 w w1 w2 :
  evolves t1 w w1 -> evolves t2 w1 w2 -> evolves (t1 ++ t2) w w2.
Proof.
  intros [T1 F1 D1 C1] [T2 F2 D2 C2]. split.
  - by rewrite T2, T1, app_assoc.
  - unfold apply_writes in *. by rewrite foldl_app, <- F1.
  - unfold apply_entries in *. by rewrite foldl_app, <- D1.
  - destruct C2 as [C2|[C2 S2]]; destruct C1 as [C1|[C1 S1]].
    + left. congruence.
    + right. split; [done|]. by rewrite C2.
    + right. split; [congruence|done].
    + right. split; done.
Qed.

Lemma apply_writes_lookup_other t f p :
  writes_to p t = [] -> apply_writes t f !! p = f !! p.
Proof.
  revert f. induction t as [|e t IH]; intros f H; [done|].
  simpl in *. destruct e as [| | | |q c]; simpl in *; try (by apply IH).
  case_bool_decide as Hq; [done|].
  rewrite IH by done. by apply lookup_insert_ne.
Qed.

Lemma writes_to_app p t1 t2 :
  writes_to p (t1 ++ t2) = writes_to p t1 ++ writes_to p t2.
Proof. unfold writes_to. apply omap_app. Qed.

Lemma apply_writes_no_writes t f : no_writes t -> apply_writes t f = f.
Proof.
  revert f. induction t as [|e t IH]; intros f H; [done|].
  apply Forall_cons in H as [He H]. simpl. destruct e; try done; by apply IH.
Qed.

Lemma apply_entries_no_writes t d : no_writes t -> apply_entries t d = d.
Proof.
  revert d. induction t as [|e t IH]; intros d H; [done|].
  apply Forall_cons in H as [He H]. simpl. destruct e; try done; by apply IH.
Qed.

(** The listing of a directory changes only by the writes into it. *)
Lemma add_entry_lookup_other (p : path) (d : gmap path (gmap string bool))
    (q : path) :
  q <> dirname p -> add_entry p d !! q = d !! q.
Proof.
  intros Hq. unfold add_entry. destruct (last p); [|done].
  by rewrite lookup_alter_ne.
Qed.

Lemma add_entry_is_Some (p : path) (d : gmap path (gmap string bool))
    (q : path) :
  is_Some (add_entry p d !! q) <-> is_Some (d !! q).
Proof.
  unfold add_entry. destruct (last p); [|done].
  destruct (decide (dirname p = q)) as [<-|Hne].
  - rewrite lookup_alter_eq. by rewrite fmap_is_Some.
  - by rewrite lookup_alter_ne.
Qed.

Lemma apply_entries_lookup_other (t : list Event)
    (d : gmap path (gmap string bool)) (q : path) :
  q ∉ written_dirs t -> apply_entries t d !! q = d !! q.
Proof.
  revert d. induction t as [|e t IH]; intros d H; [done|].
  simpl in *. destruct e as [| | | |p c]; simpl in *; try (by apply IH).
  apply not_elem_of_cons in H as [H1 H2].
  rewrite IH by done. by apply add_entry_lookup_other.
Qed.

Lemma apply_entries_is_Some (t : list Event)
    (d : gmap path (gmap string bool)) (q : path) :
  is_Some (apply_entries t d !! q) <-> is_Some (d !! q).
Proof.
  revert d. induction t as [|e t IH]; intros d; [done|].
  simpl. destruct e as [| | | |p c]; simpl; try apply IH.
  rewrite IH. apply add_entry_is_Some.
Qed.

Lemma count_ev_app f t1 t2 :
  count_ev f (t1 ++ t2) = count_ev f t1 + count_ev f t2.
Proof. unfold count_ev. by rewrite filter_app, length_app. Qed.

(** ** The primitives *)

Lemma fs_access_run p w :
  fs_access p w = (if path_exists w p then Ok tt else
     Throw (Error ("ENOENT: no such file or directory, access "
                     +:+ show_path p)), w).
Proof. unfold fs_access. by destruct (path_exists w p). Qed.

Lemma fs_readFile_ok p w f :
  fs w !! p = Some f -> fs_readFile p w = (Ok f, w).
Proof. unfold fs_readFile. by intros ->. Qed.

Lemma fs_writeFile_run p f w :
  exists w', fs_writeFile p f w = (Ok tt, w') /\ evolves [EvWrite p f] w w'.
Proof.
  eexists. split; [reflexivity|]. split; simpl; auto.
Qed.

(** ** The functions of the validator *)

Section Specs.

Context (env : Env) (root : path) (cfg : Config).

#[local] Abbreviation config_available := (config_available root).
#[local] Abbreviation judge_result := (judge_result env).
#[local] Abbreviation refine_result := (refine_result env).
#[local] Abbreviation refined_prompt := (refined_prompt env).
#[local] Abbreviation regenerated_state := (regenerated_state env).
#[local] Abbreviation regen_outcome := (regen_outcome env root).
#[local] Abbreviation pass_outcome := (pass_outcome env root cfg).
#[local] Abbreviation body_outcome := (body_outcome env root cfg).
#[local] Abbreviation loop_run := (loop_run env root cfg).
#[local] Abbreviation shot_outcome := (shot_outcome env root cfg).
#[local] Abbreviation reaches := (reaches env root cfg).

Lemma loadPromptsConfig_spec w :
  exists r w', loadPromptsConfig root w = (r, w') /\ evolves [] w w'
    /\ r <> Diverge
    /\ (forall c, r = Ok c -> PROMPTS_CONFIG w' = Some c)
    /\ (config_available w -> exists c, r = Ok c).
Proof.
  unfold loadPromptsConfig, config_available.
  rewrite bind_run. unfold get_world.
  destruct (PROMPTS_CONFIG w) as [c|] eqn:Ec.
  - exists (Ok c), w.
    split_and!; [done|apply evolves_refl|done|by intros c' [= <-]|by eauto].
  - rewrite bind_run. unfold fs_readFile.
    destruct (fs w !! promptsPath root) as [f|] eqn:Ef.
    + rewrite bind_run. unfold parse_file.
      destruct (as_config f) as [c|] eqn:Ea.
      * eexists (Ok c), _. split; [reflexivity|].
        split_and!; [|done|by intros c' [= <-]|by eauto].
        split; simpl; auto. by rewrite app_nil_r.
      * eexists _, _. split; [reflexivity|].
        split_and!; [apply evolves_refl|done|done|].
        intros [[? [=]]|[c Hc]]. by destruct f; simplify_eq/=.
    + eexists _, _. split; [reflexivity|].
      split_and!; [apply evolves_refl|done|done|].
      intros [[? [=]]|[c Hc]]. simplify_eq/=.
Qed.

Lemma anthropic_create_vision_run ip ap p (tts : JSON) w :
  exists w', evolves [EvVision ip ap p tts] w w'
    /\ PROMPTS_CONFIG w' = PROMPTS_CONFIG w
    /\ anthropic_create_vision env ip ap p tts w
       = (match vision_reply env (count_ev is_vision (trace w)) with
          | ApiRejects e => Throw e
          | ApiResponse content => Ok content
          end, w').
Proof.
  eexists. split_and!; [|shelve|].
  2:{ unfold anthropic_create_vision.
      rewrite bind_run. unfold get_world. rewrite bind_run. unfold log, modify_world.
      destruct (vision_reply env (count_ev is_vision (trace w))); reflexivity. }
  - split; simpl; auto.
  Unshelve. reflexivity.
Qed.

Lemma validateImage_try_run ip ap p (tts : JSON) w :
  exists w', evolves [EvVision ip ap p tts] w w'
    /\ PROMPTS_CONFIG w' = PROMPTS_CONFIG w
    /\ try_catch
         (content ← anthropic_create_vision env ip ap p tts;
          match find_text content with
          | None => throw (Error "No text response from Claude")
          | Some textContent =>
              match JSON_parse env (trim env (cb_text textContent)) with
              | inl msg => throw (SyntaxError msg)
              | inr result => mret (success_result result)
              end
          end)
         (fun error =>
            if instanceof_SyntaxError error
            then mret (parse_failure_result (message error))
            else throw error) w
       = (judge_result (vision_reply env (count_ev is_vision (trace w))), w').
Proof.
  destruct (anthropic_create_vision_run ip ap p tts w) as (w' & Hev & Hc & E).
  exists w'. split; [done|]. split; [done|].
  rewrite try_catch_run, bind_run, E. unfold judge_result.
  destruct (vision_reply env (count_ev is_vision (trace w))) as [e|content].
  - unfold throw. by destruct e.
  - destruct (find_text content) as [tc|]; [|done].
    by destruct (JSON_parse env (trim env (cb_text tc))).
Qed.

Lemma judge_result_not_diverge reply : judge_result reply <> Diverge.
Proof.
  unfold judge_result. destruct reply as [e|content].
  - by destruct (instanceof_SyntaxError e).
  - destruct (find_text content) as [tc|]; [|done].
    by destruct (JSON_parse env (trim env (cb_text tc))).
Qed.

(** When the configuration and the two images can be read, the request is
    made and the result is [judge_result] of the reply. *)
Lemma validateImage_called ip ap p (tts : JSON) w :
  config_available w -> is_Some (fs w !! ip) -> is_Some (fs w !! ap) ->
  exists w', evolves [EvVision ip ap p tts] w w'
    /\ is_Some (PROMPTS_CONFIG w')
    /\ validateImage env root ip ap p tts w
       = (judge_result (vision_reply env (count_ev is_vision (trace w))), w').
Proof.
  intros Hc [fi Hi] [fa Ha]. unfold validateImage.
  destruct (loadPromptsConfig_spec w) as (r & w1 & E1 & Ev1 & _ & Hcfg & Hok).
  destruct (Hok Hc) as [c ->]. specialize (Hcfg c eq_refl).
  rewrite (bind_ok _ _ _ _ _ E1).
  assert (fs w1 = fs w) as Hfs by (by destruct Ev1).
  unfold fileToBase64.
  rewrite (bind_ok _ _ w1 fi w1) by (apply fs_readFile_ok; by rewrite Hfs).
  rewrite (bind_ok _ _ w1 fa w1) by (apply fs_readFile_ok; by rewrite Hfs).
  destruct (validateImage_try_run ip ap p tts w1) as (w' & Ev2 & Hc2 & ->).
  exists w'. split; [|split].
  - apply (evolves_trans [] _ _ _ _ Ev1 Ev2).
  - rewrite Hc2, Hcfg. eauto.
  - do 3 f_equal. destruct Ev1 as [-> _ _ _]. by rewrite app_nil_r.
Qed.

Lemma validateImage_spec ip ap p (tts : JSON) w :
  exists r w' t, validateImage env root ip ap p tts w = (r, w')
    /\ evolves t w w' /\ r <> Diverge
    /\ (t = [] \/ t = [EvVision ip ap p tts])
    /\ (forall vr, r = Ok vr ->
          t = [EvVision ip ap p tts] /\ is_Some (PROMPTS_CONFIG w')
          /\ is_Some (fs w !! ip) /\ is_Some (fs w !! ap)
          /\ judge_result (vision_reply env (count_ev is_vision (trace w)))
             = Ok vr).
Proof.
  unfold validateImage.
  destruct (loadPromptsConfig_spec w) as (r & w1 & E1 & Ev1 & Hd & Hcfg & _).
  rewrite bind_run, E1.
  assert (fs w1 = fs w) as Hfs by (by destruct Ev1).
  destruct r as [c|e|]; [| |done].
  2:{ eexists _, _, []. split_and!; [reflexivity|done|done|by left|done]. }
  rewrite bind_run. unfold fileToBase64, fs_readFile.
  destruct (fs w1 !! ip) as [fi|] eqn:Ei.
  2:{ eexists _, _, []. split_and!; [reflexivity|done|done|by left|done]. }
  rewrite bind_run.
  destruct (fs w1 !! ap) as [fa|] eqn:Ea.
  2:{ eexists _, _, []. split_and!; [reflexivity|done|done|by left|done]. }
  destruct (validateImage_try_run ip ap p tts w1) as (w' & Ev2 & Hc2 & ->).
  eexists _, w', _. split; [reflexivity|]. split.
  { apply (evolves_trans [] _ _ _ _ Ev1 Ev2). }
  split; [apply judge_result_not_diverge|]. split; [by right|].
  assert (trace w1 = trace w) as ->.
  { destruct Ev1 as [-> _ _ _]. by rewrite app_nil_r. }
  intros vr ->. rewrite <- Hfs, Ei, Ea, Hc2, (Hcfg c eq_refl). eauto.
Qed.

Lemma anthropic_create_refine_run p i s c w :
  exists w', evolves [EvRefine p i s c] w w'
    /\ PROMPTS_CONFIG w' = PROMPTS_CONFIG w
    /\ anthropic_create_refine env p i s c w
       = (match refine_reply env (count_ev is_refine (trace w)) with
          | ApiRejects e => Throw e
          | ApiResponse content => Ok content
          end, w').
Proof.
  eexists. split_and!; [|shelve|].
  2:{ unfold anthropic_create_refine.
      rewrite bind_run. unfold get_world. rewrite bind_run.
      unfold log, modify_world.
      destruct (refine_reply env (count_ev is_refine (trace w))); reflexivity. }
  - split; simpl; auto.
  Unshelve. reflexivity.
Qed.

Lemma lift_run {A} (r : Exn + A) w :
  lift r w = (match r with inl e => Throw e | inr a => Ok a end, w).
Proof. by destruct r. Qed.

Lemma refinePrompt_spec p i s c w :
  exists r w' t, refinePrompt env root p i s c w = (r, w')
    /\ evolves t w w'
    /\ ((exists e, r = Throw e /\ t = []
                   /\ (~ config_available w \/ userPrompt env i s c = inl e))
        \/ (r = Ok (refine_result p
                      (refine_reply env (count_ev is_refine (trace w))))
            /\ t = [EvRefine p i s c]
            /\ config_available w /\ userPrompt env i s c = inr tt)).
Proof.
  unfold refinePrompt.
  destruct (loadPromptsConfig_spec w) as (r & w1 & E1 & Ev1 & Hd & Hcfg & Hok).
  rewrite bind_run, E1.
  destruct r as [cf|e|]; [| |done].
  2:{ eexists _, _, []. split_and!; [reflexivity|done|]. left.
      exists e. split_and!; [done|done|]. left. intros H. by destruct (Hok H). }
  assert (config_available w) as Hav.
  { pose proof (Hcfg cf eq_refl) as Hs. destruct Ev1 as [_ Hf _ Hc].
    simpl in Hf. unfold config_available.
    destruct (PROMPTS_CONFIG w) as [c0|] eqn:E0; [left; eauto|].
    right. revert E1. unfold loadPromptsConfig.
    rewrite bind_run. unfold get_world. rewrite E0, bind_run.
    unfold fs_readFile. destruct (fs w !! promptsPath root) as [f|]; [|done].
    rewrite bind_run. unfold parse_file.
    destruct f; simpl; try done. eauto. }
  rewrite bind_run, lift_run.
  destruct (userPrompt env i s c) as [e|[]] eqn:Eu.
  { eexists _, _, []. split_and!; [reflexivity|done|]. left.
    exists e. split_and!; [done|done|by right]. }
  destruct (anthropic_create_refine_run p i s c w1) as (w' & Ev2 & Hc2 & E2).
  rewrite try_catch_run, bind_run, E2.
  assert (trace w1 = trace w) as ->.
  { destruct Ev1 as [-> _ _ _]. by rewrite app_nil_r. }
  pose proof (evolves_trans [] _ _ _ _ Ev1 Ev2) as Ev.
  unfold refine_result.
  destruct (refine_reply env (count_ev is_refine (trace w))) as [e|content].
  - eexists _, _, _. split_and!; [reflexivity|exact Ev|]. by right.
  - destruct (find_text content) as [tc|];
      (eexists _, _, _; split_and!; [reflexivity|exact Ev|]; by right).
Qed.

Lemma get_world_bind {A} (f : World -> M A) w : (get_world ≫= f) w = f w w.
Proof. reflexivity. Qed.

Lemma modify_world_bind {A} (g : World -> World) (f : unit -> M A) w :
  (modify_world g ≫= f) w = f tt (g w).
Proof. reflexivity. Qed.

Lemma getAnchorPath_spec a w :
  getAnchorPath root a w
  = (if path_exists w (root ++ a) then Ok (root ++ a)
     else Throw (Error ("Anchor image not found: " +:+ show_path (root ++ a))),
     w).
Proof.
  unfold getAnchorPath. rewrite try_catch_run, bind_run, fs_access_run.
  by destruct (path_exists w (root ++ a)).
Qed.

Lemma count_ev_nil f : count_ev f [] = 0.
Proof. reflexivity. Qed.

Lemma count_ev_cons f e t :
  count_ev f (e :: t) = (if f e then 1 else 0) + count_ev f t.
Proof.
  unfold count_ev. rewrite filter_cons.
  destruct (f e); case_decide; simpl; congruence.
Qed.

Lemma path_exists_file w (p : path) f :
  fs w !! p = Some f -> path_exists w p = true.
Proof.
  intros H. unfold path_exists. rewrite bool_decide_eq_true_2; eauto.
Qed.

Lemma getAnchorDataUrl_spec a w :
  exists r w', getAnchorDataUrl root a w = (r, w') /\ evolves [] w w'
    /\ r <> Diverge.
Proof.
  unfold getAnchorDataUrl. rewrite bind_run, getAnchorPath_spec.
  destruct (path_exists w (root ++ a)).
  2:{ eexists _, _. split_and!; [reflexivity|apply evolves_refl|done]. }
  rewrite get_world_bind.
  destruct (anchorCache w !! _) as [d|].
  { eexists _, _. split_and!; [reflexivity|apply evolves_refl|done]. }
  rewrite bind_run. unfold fileToDataUrl, fs_readFile.
  destruct (fs w !! _) as [f|].
  2:{ eexists _, _. split_and!; [reflexivity|apply evolves_refl|done]. }
  rewrite modify_world_bind.
  eexists _, _. split_and!; [reflexivity| |done].
  split; simpl; auto. by rewrite app_nil_r.
Qed.

Lemma edit_result_not_diverge reply : edit_result reply <> Diverge.
Proof. destruct reply as [e|[|u d] [|u' i]]; discriminate. Qed.

Lemma editImage_spec a p w :
  exists w', evolves [EvEdit a p] w w'
    /\ editImage env a p w
       = (edit_result (fal_reply env (count_ev is_edit (trace w))), w').
Proof.
  eexists. split; [shelve|].
  unfold editImage. rewrite bind_run. unfold get_world. rewrite bind_run.
  unfold log, modify_world, edit_result.
  destruct (fal_reply env (count_ev is_edit (trace w))) as [e|[|u d] [|u' i]];
    reflexivity.
  Unshelve. split; simpl; auto.
Qed.

Lemma downloadImage_spec url fp w :
  exists w', downloadImage env url fp w
             = (match fetch_reply env (count_ev is_fetch (trace w)) with
                | FetchRejects e => Throw e
                | FetchBody _ => Ok tt
                end, w')
    /\ evolves (match fetch_reply env (count_ev is_fetch (trace w)) with
                | FetchRejects e => [EvFetch url]
                | FetchBody b => [EvFetch url; EvWrite fp (ImageFile b)]
                end) w w'.
Proof.
  unfold downloadImage. rewrite bind_run. unfold get_world. rewrite bind_run.
  unfold log, modify_world.
  destruct (fetch_reply env (count_ev is_fetch (trace w))) as [e|b].
  - eexists. split; [reflexivity|]. split; simpl; auto.
  - eexists. split; [reflexivity|]. split; simpl; auto.
    by rewrite <- app_assoc.
Qed.

(** ** One pass of the loop *)

Section Pass.

Context (shot : Shot) (ip vp ap : path) (tts : JSON) (skipRegen : bool).

#[local] Abbreviation regen_outcome := (regen_outcome shot ip).
#[local] Abbreviation pass_outcome := (pass_outcome shot ip vp skipRegen).
#[local] Abbreviation vision_event := (vision_event ip ap tts).
#[local] Abbreviation body_outcome :=
  (body_outcome shot ip vp ap tts skipRegen).

Lemma regenerate_spec vr st w :
  exists r w' t, regenerate env root shot ip vr st w = (r, w')
    /\ evolves t w w' /\ regen_outcome vr st w r t.
Proof.
  unfold regenerate.
  destruct (refinePrompt_spec (currentPrompt st) (or_empty (issues vr))
              (or_empty (suggestions vr)) (criteria_scores vr) w)
    as (r1 & w1 & t1 & E1 & Ev1 & [(e & -> & -> & Hc)|(-> & -> & _ & _)]);
    rewrite bind_run, E1.
  { eexists _, _, _. split_and!; [reflexivity|exact Ev1|].
    destruct Hc as [Hc|Hc]; [by apply regen_no_config|by apply regen_no_request]. }
  fold (refined_prompt st w). fold (refine_event vr st) in Ev1.
  destruct (getAnchorDataUrl_spec (anchor_image (promptData st)) w1)
    as (r2 & w2 & E2 & Ev2 & Hd2).
  pose proof (evolves_trans _ _ _ _ _ Ev1 Ev2) as Ev12.
  rewrite app_nil_r in Ev12.
  rewrite bind_run, E2.
  destruct r2 as [a|e|]; [| |done].
  2:{ eexists _, _, _. split_and!; [reflexivity|exact Ev12|].
      apply regen_no_anchor.
      destruct (fs w !! (root ++ anchor_image (promptData st))) as [f|] eqn:Ef;
        [|done].
      exfalso. revert E2. unfold getAnchorDataUrl.
      rewrite bind_run, getAnchorPath_spec.
      assert (fs w1 = fs w) as Hfs by (by destruct Ev1).
      rewrite (path_exists_file _ _ f) by (by rewrite Hfs).
      rewrite get_world_bind.
      destruct (anchorCache w1 !! _); [done|].
      rewrite bind_run. unfold fileToDataUrl.
      rewrite (fs_readFile_ok _ _ f) by (by rewrite Hfs).
      rewrite modify_world_bind. unfold mret, M_ret. congruence. }
  assert (count_ev is_edit (trace w2) = count_ev is_edit (trace w)) as Hce.
  { destruct Ev12 as [-> _ _ _].
    rewrite count_ev_app, count_ev_cons, count_ev_nil. simpl. lia. }
  assert (count_ev is_fetch (trace w2) = count_ev is_fetch (trace w)) as Hcf.
  { destruct Ev12 as [-> _ _ _].
    rewrite count_ev_app, count_ev_cons, count_ev_nil. simpl. lia. }
  destruct (editImage_spec a (refined_prompt st w) w2) as (w3 & Ev3 & E3).
  pose proof (evolves_trans _ _ _ _ _ Ev12 Ev3) as Ev13.
  rewrite bind_run, E3, Hce.
  destruct (edit_result (fal_reply env (count_ev is_edit (trace w))))
    as [url|e|] eqn:Eed.
  3:{ by destruct (edit_result_not_diverge _ Eed). }
  2:{ eexists _, _, _. split_and!; [reflexivity|exact Ev13|].
      by apply regen_edit_failed. }
  destruct (downloadImage_spec url ip w3) as (w4 & E4 & Ev4).
  assert (count_ev is_fetch (trace w3) = count_ev is_fetch (trace w)) as Hcf3.
  { destruct Ev3 as [-> _ _ _].
    rewrite count_ev_app, Hcf, count_ev_cons, count_ev_nil. simpl. lia. }
  rewrite Hcf3 in E4, Ev4.
  pose proof (evolves_trans _ _ _ _ _ Ev13 Ev4) as Ev14.
  rewrite bind_run, E4.
  destruct (fetch_reply env (count_ev is_fetch (trace w))) as [e|b] eqn:Ef.
  { eexists _, _, _. split_and!; [reflexivity|exact Ev14|].
    by apply regen_fetch_failed. }
  unfold savePromptJson.
  destruct (fs_writeFile_run (promptPath shot)
              (PromptJson (updated_promptData vr (refined_prompt st w) st)) w4)
    as (w5 & E5 & Ev5).
  pose proof (evolves_trans _ _ _ _ _ Ev14 Ev5) as Ev15.
  rewrite bind_run, E5.
  eexists _, _, _. split_and!; [reflexivity|exact Ev15|].
  by apply regen_done.
Qed.

Lemma length_trace_evolves t w w' :
  evolves t w w' -> length (trace w') = length (trace w) + length t.
Proof. intros [-> _ _ _]. by rewrite length_app. Qed.

Lemma handle_validation_spec vr st w :
  exists r w' t,
    handle_validation env root cfg shot ip vp skipRegen vr st w = (r, w')
    /\ evolves t w w' /\ pass_outcome vr st w r t.
Proof.
  unfold handle_validation.
  destruct (overall_pass vr) eqn:Ep.
  { rewrite bind_run, lift_run.
    destruct (toFixed (confidence vr)) as [e|[]] eqn:El.
    { eexists _, _, []. split_and!; [reflexivity|apply evolves_refl|].
      apply pass_raised. unfold log_lines. by rewrite Ep. }
    rewrite get_world_bind.
    destruct (fs_writeFile_run vp
                (ValidationJson (approved_record env vr st w)) w)
      as (w' & E & Ev).
    unfold approved_record in E. rewrite bind_run, E.
    eexists _, _, _. split_and!; [reflexivity|exact Ev|].
    apply pass_approved; [done|]. unfold log_lines. by rewrite Ep. }
  rewrite bind_run, lift_run.
  destruct (log_failed env vr) as [e|[]] eqn:El.
  { eexists _, _, []. split_and!; [reflexivity|apply evolves_refl|].
    apply pass_raised. unfold log_lines. by rewrite Ep. }
  assert (log_lines env vr = inr tt) as Hl.
  { unfold log_lines. by rewrite Ep. }
  destruct (skipRegen || (maxIterations cfg <=? iteration st)) eqn:Es.
  { rewrite get_world_bind.
    destruct (fs_writeFile_run vp
                (ValidationJson (flagged_record env vr st w)) w)
      as (w' & E & Ev).
    unfold flagged_record in E. rewrite bind_run, E.
    eexists _, _, _. split_and!; [reflexivity|exact Ev|by constructor]. }
  apply orb_false_iff in Es as [Hs Hi]. apply Nat.leb_gt in Hi.
  destruct (regenerate_spec vr st w) as (r & w1 & t & E1 & Ev1 & Ho).
  rewrite try_catch_run, bind_run, E1.
  destruct r as [st'|e|].
  - eexists _, _, _. split_and!; [reflexivity|exact Ev1|by constructor].
  - rewrite get_world_bind.
    assert (timestamp env w1 = timestamp_after env w t) as Htime.
    { unfold timestamp, timestamp_after.
      by rewrite (length_trace_evolves _ _ _ Ev1). }
    destruct (fs_writeFile_run vp
                (ValidationJson (error_record env vr st w t e)) w1)
      as (w' & E & Ev).
    unfold error_record in E. rewrite <- Htime in E.
    rewrite bind_run, E.
    eexists _, _, _. split_and!; [reflexivity| |].
    + exact (evolves_trans _ _ _ _ _ Ev1 Ev).
    + unfold error_record in Ev |- *. rewrite Htime. by constructor.
  - inversion Ho.
Qed.

Lemma loop_body_spec st w :
  exists r w' t,
    loop_body env root cfg shot ip vp ap tts skipRegen st w = (r, w')
    /\ evolves t w w' /\ body_outcome st w r t.
Proof.
  unfold loop_body.
  destruct (validateImage_spec ip ap (currentPrompt st) tts w)
    as (r & w1 & t1 & E1 & Ev1 & Hd & Ht & Hok).
  rewrite bind_run, attempt_run, E1.
  destruct r as [vr|e|]; [| |done].
  - destruct (Hok vr eq_refl) as (-> & Hc & _).
    destruct (handle_validation_spec vr st w1) as (r & w' & t & E & Ev & Ho).
    rewrite E. eexists _, _, _. split_and!; [reflexivity| |].
    + exact (evolves_trans _ _ _ _ _ Ev1 Ev).
    + by eapply body_validated.
  - eexists _, _, _. split_and!; [reflexivity|exact Ev1|].
    constructor; [by rewrite E1|done].
Qed.

End Pass.


(** ** The whole loop *)

Section Loop.

Context (shot : Shot) (ip vp ap : path) (tts : JSON) (skipRegen : bool).

#[local] Abbreviation body := (loop_body env root cfg shot ip vp ap tts skipRegen).
#[local] Abbreviation body_outcome := (body_outcome shot ip vp ap tts skipRegen).
#[local] Abbreviation pass_outcome := (pass_outcome shot ip vp skipRegen).
#[local] Abbreviation regen_outcome := (regen_outcome shot ip).
#[local] Abbreviation loop_run := (loop_run shot ip vp ap tts skipRegen).

Lemma regen_ok_inv vr st w st' t :
  regen_outcome vr st w (Ok st') t ->
  st' = regenerated_state vr st w
  /\ exists a url b,
       t = [refine_event vr st; EvEdit a (refined_prompt st w); EvFetch url;
            EvWrite ip (ImageFile b);
            EvWrite (promptPath shot)
              (PromptJson (updated_promptData vr (refined_prompt st w) st))].
Proof. inversion 1; subst. split; [done|]. eauto. Qed.

Lemma body_continue_inv st w st' t :
  body_outcome st w (Ok (Continue st')) t ->
  exists vr w1,
    validateImage env root ip ap (currentPrompt st) tts w = (Ok vr, w1)
    /\ evolves [vision_event ip ap tts st] w w1
    /\ overall_pass vr = false /\ skipRegen = false
    /\ iteration st < maxIterations cfg
    /\ st' = regenerated_state vr st w1
    /\ exists a url b,
         t = [vision_event ip ap tts st; refine_event vr st;
              EvEdit a (refined_prompt st w1); EvFetch url;
              EvWrite ip (ImageFile b);
              EvWrite (promptPath shot) (PromptJson (promptData st'))].
Proof.
  inversion 1 as [|vr w1 r t0 Hv Hev Hc Hp]; subst.
  inversion Hp as [| | |st0 t1 Hpass Hl Hs Hi Hr|]; subst.
  apply regen_ok_inv in Hr as [-> (a & url & b & ->)].
  exists vr, w1. split_and!; try done. eauto.
Qed.

Lemma body_outcome_not_diverge st w t : ~ body_outcome st w Diverge t.
Proof.
  inversion 1 as [|vr w1 r t0 Hv Hev Hc Hp]; subst. inversion Hp.
Qed.

Lemma while_loop_run fuel st w :
  S (maxIterations cfg) - iteration st <= fuel ->
  exists r w' t,
    while fuel (loop_cond cfg) body st w = (r, w')
    /\ evolves t w w' /\ loop_run st w r t.
Proof.
  revert st w. induction fuel as [|fuel IH]; intros st w Hf;
    destruct (loop_cond cfg st) eqn:Hc.
  - unfold loop_cond in Hc. apply Nat.leb_le in Hc. lia.
  - simpl. rewrite Hc. eexists _, _, _.
    split_and!; [reflexivity|apply evolves_refl|by constructor].
  - simpl. rewrite Hc.
    destruct (loop_body_spec shot ip vp ap tts skipRegen st w)
      as (r & w1 & t & E & Ev & Ho).
    rewrite bind_run, E. destruct r as [[st'|o]|e|].
    + destruct (body_continue_inv _ _ _ _ Ho)
        as (vr & w0 & _ & _ & _ & _ & Hi & -> & _).
      destruct (IH (regenerated_state vr st w0) w1)
        as (r & w' & t' & E' & Ev' & Hr).
      { simpl. lia. }
      rewrite E'. eexists _, _, _. split_and!; [reflexivity| |].
      * exact (evolves_trans _ _ _ _ _ Ev Ev').
      * by eapply loop_continue.
    + eexists _, _, _. split_and!; [reflexivity|exact Ev|by constructor].
    + eexists _, _, _. split_and!; [reflexivity|exact Ev|by constructor].
    + by destruct (body_outcome_not_diverge _ _ _ Ho).
  - simpl. rewrite Hc. eexists _, _, _.
    split_and!; [reflexivity|apply evolves_refl|by constructor].
Qed.

End Loop.

Lemma while_fuel_irrelevant shot ip vp ap (tts : JSON) skipRegen fuel1 fuel2
    st w :
  S (maxIterations cfg) - iteration st <= fuel1 ->
  S (maxIterations cfg) - iteration st <= fuel2 ->
  while fuel1 (loop_cond cfg)
    (loop_body env root cfg shot ip vp ap tts skipRegen) st w
  = while fuel2 (loop_cond cfg)
      (loop_body env root cfg shot ip vp ap tts skipRegen) st w.
Proof.
  revert fuel2 st w. induction fuel1 as [|fuel1 IH]; intros fuel2 st w H1 H2;
    destruct (loop_cond cfg st) eqn:Hc.
  - unfold loop_cond in Hc. apply Nat.leb_le in Hc. lia.
  - destruct fuel2; simpl; by rewrite Hc.
  - destruct fuel2 as [|fuel2].
    { unfold loop_cond in Hc. apply Nat.leb_le in Hc. lia. }
    simpl. rewrite Hc, !bind_run.
    destruct (loop_body_spec shot ip vp ap tts skipRegen st w)
      as (r & w1 & t & E & Ev & Ho).
    rewrite E. destruct r as [[st'|o]|e|]; [|done|done|done].
    destruct (body_continue_inv _ _ _ _ _ _ _ _ _ _ Ho)
      as (vr & w0 & _ & _ & _ & _ & Hi & -> & _).
    apply IH; simpl; lia.
  - destruct fuel2; simpl; by rewrite Hc.
Qed.

(** ** validateShot *)

Lemma loadPromptJson_run (pp : path) w :
  loadPromptJson pp w
  = (match fs w !! pp with
     | Some f =>
         match as_prompt f with
         | Some p => Ok p
         | None => Throw (SyntaxError "Unexpected token in JSON")
         end
     | None => Throw (Error ("ENOENT: no such file or directory, open "
                               +:+ show_path pp))
     end, w).
Proof.
  unfold loadPromptJson. rewrite bind_run. unfold fs_readFile.
  destruct (fs w !! pp) as [f|]; [|done].
  unfold parse_file. by destruct (as_prompt f).
Qed.

Lemma validateShot_fuel_spec fuel shot scriptData skipRegen w :
  S (maxIterations cfg) <= fuel ->
  exists r w' t,
    validateShot_fuel env root cfg fuel shot scriptData skipRegen w = (r, w')
    /\ evolves t w w' /\ shot_outcome shot scriptData skipRegen w r t.
Proof.
  intros Hf. unfold validateShot_fuel.
  fold (imagePath_of shot). fold (validationPath_of shot).
  rewrite bind_run, attempt_run, fs_access_run.
  destruct (path_exists w (imagePath_of shot)) eqn:Hi.
  2:{ eexists _, _, _.
      split_and!; [reflexivity|apply evolves_refl|by constructor]. }
  rewrite bind_run, attempt_run.
  pose proof (loadPromptJson_run (promptPath shot) w) as Hl.
  destruct (fs w !! promptPath shot) as [f|] eqn:Ef.
  2:{ rewrite Hl. eexists _, _, _.
      split_and!; [reflexivity|apply evolves_refl|].
      by apply shot_prompt_unreadable. }
  destruct (as_prompt f) as [pd|] eqn:Ep.
  2:{ rewrite Hl. eexists _, _, _.
      split_and!; [reflexivity|apply evolves_refl|].
      by apply shot_prompt_unreadable. }
  rewrite Hl, bind_run, lift_run.
  destruct (getTtsContextForShot env (id shot) scriptData) as [e|tts] eqn:Et.
  { eexists _, _, _.
    split_and!; [reflexivity|apply evolves_refl|].
    by eapply shot_script_raised. }
  rewrite bind_run, attempt_run, getAnchorPath_spec.
  destruct (path_exists w (root ++ anchor_image pd)) eqn:Ha.
  2:{ eexists _, _, _.
      split_and!; [reflexivity|apply evolves_refl|].
      by eapply shot_anchor_missing. }
  destruct (while_loop_run shot (imagePath_of shot) (validationPath_of shot)
              (root ++ anchor_image pd) tts skipRegen fuel
              (initial_state pd) w) as (r & w' & t & E & Ev & Hr); [lia|].
  rewrite bind_run. fold (initial_state pd). rewrite E.
  exists (Res_map loop_result r), w', t.
  split_and!; [by destruct r as [[?|?]| |]|exact Ev|by eapply shot_looped].
Qed.

Lemma validateShot_spec shot scriptData skipRegen w :
  exists r w' t,
    validateShot env root cfg shot scriptData skipRegen w = (r, w')
    /\ evolves t w w' /\ shot_outcome shot scriptData skipRegen w r t.
Proof. by apply validateShot_fuel_spec. Qed.

(** Any supply of at least [maxIterations + 1] passes gives the result of
    [validateShot]. *)
Lemma validateShot_fuel_enough fuel shot scriptData skipRegen w :
  S (maxIterations cfg) <= fuel ->
  validateShot_fuel env root cfg fuel shot scriptData skipRegen w
  = validateShot env root cfg shot scriptData skipRegen w.
Proof.
  intros Hf. unfold validateShot, validateShot_fuel.
  rewrite !bind_run. destruct (attempt _ w) as [[[?|?]| |] w0]; try done.
  rewrite !bind_run. destruct (attempt _ w0) as [[[?|pd]| |] w1]; try done.
  rewrite !bind_run. destruct (lift _ w1) as [[tts| |] w2]; try done.
  rewrite !bind_run. destruct (attempt _ w2) as [[[?|anchorPath]| |] w3];
    try done.
  rewrite !bind_run.
  by rewrite (while_fuel_irrelevant _ _ _ _ _ _ fuel (S (maxIterations cfg)))
    by (simpl; lia).
Qed.

(** ** Facts read off the outcome relations *)

Ltac count_events :=
  repeat (rewrite ?count_ev_app, ?count_ev_cons, ?count_ev_nil);
  unfold refine_event, vision_event; simpl.

Lemma regen_outcome_no_vision shot ip vr st w r t :
  regen_outcome shot ip vr st w r t -> count_ev is_vision t = 0.
Proof. inversion 1; subst; count_events; lia. Qed.

Lemma pass_outcome_no_vision shot ip vp skipRegen vr st w r t :
  pass_outcome shot ip vp skipRegen vr st w r t -> count_ev is_vision t = 0.
Proof.
  inversion 1 as [| | |st' t' _ _ _ _ Hr|e t' _ _ _ _ Hr]; subst;
    try apply regen_outcome_no_vision in Hr; count_events; lia.
Qed.

Lemma body_outcome_vision shot ip vp ap (tts : JSON) skipRegen st w r t :
  body_outcome shot ip vp ap tts skipRegen st w r t ->
  count_ev is_vision t <= 1.
Proof.
  inversion 1 as [e t' _ [->| ->]|vr w1 r' t' _ _ _ Hp]; subst.
  - count_events. lia.
  - count_events. lia.
  - apply pass_outcome_no_vision in Hp. count_events. lia.
Qed.

Lemma body_return_status shot ip vp ap (tts : JSON) skipRegen st w o t :
  body_outcome shot ip vp ap tts skipRegen st w (Ok (Return o)) t ->
  status o = approved \/ status o = flagged \/ status o = error.
Proof.
  inversion 1 as [|vr w1 r' t' _ _ _ Hp]; subst; [by auto|].
  inversion Hp; subst; simpl; auto.
Qed.

Lemma loop_run_vision shot ip vp ap (tts : JSON) skipRegen st w r t :
  loop_run shot ip vp ap tts skipRegen st w r t ->
  count_ev is_vision t <= S (maxIterations cfg) - iteration st.
Proof.
  induction 1 as [st w Hc|st w o t Hc Hb|st w e t Hc Hb
                  |st w st' w' t r t' Hc Hb Hev Hr IH].
  - rewrite count_ev_nil. lia.
  - apply body_outcome_vision in Hb.
    unfold loop_cond in Hc. apply Nat.leb_le in Hc. lia.
  - apply body_outcome_vision in Hb.
    unfold loop_cond in Hc. apply Nat.leb_le in Hc. lia.
  - pose proof (body_outcome_vision _ _ _ _ _ _ _ _ _ _ Hb) as Hv.
    destruct (body_continue_inv _ _ _ _ _ _ _ _ _ _ Hb)
      as (vr & w0 & _ & _ & _ & _ & Hi & -> & _).
    rewrite count_ev_app. simpl in IH. lia.
Qed.

Lemma loop_run_status shot ip vp ap (tts : JSON) skipRegen st w r t :
  loop_run shot ip vp ap tts skipRegen st w (Ok r) t ->
  status (loop_result r) = approved \/ status (loop_result r) = flagged
  \/ status (loop_result r) = error.
Proof.
  intros H. remember (Ok r) as r0 eqn:Er. revert r Er.
  induction H as [st w Hc|st w o t Hc Hb|st w e t Hc Hb
                  |st w st' w' t r0 t' Hc Hb Hev Hr IH];
    intros r Er; simplify_eq; simpl; auto.
  by eapply body_return_status.
Qed.

Lemma loop_run_not_diverge shot ip vp ap (tts : JSON) skipRegen st w t :
  ~ loop_run shot ip vp ap tts skipRegen st w Diverge t.
Proof.
  intros H. remember Diverge as r0 eqn:Er.
  induction H; simplify_eq; auto.
Qed.

(** When the judge's replies can be logged and the script can be searched,
    nothing in [validateShot] raises. *)
Lemma pass_outcome_raised shot ip vp skipRegen vr st w e t :
  pass_outcome shot ip vp skipRegen vr st w (Throw e) t ->
  log_lines env vr = inl e /\ t = [].
Proof. by inversion 1. Qed.


Lemma body_outcome_raised shot ip vp ap (tts : JSON) skipRegen st w e t :
  body_outcome shot ip vp ap tts skipRegen st w (Throw e) t ->
  t = [vision_event ip ap tts st]
  /\ exists vr,
       judge_result (vision_reply env (count_ev is_vision (trace w))) = Ok vr
       /\ log_lines env vr = inl e.
Proof.
  inversion 1 as [|vr w1 r t0 Hv Hev Hc Hp]; subst.
  apply pass_outcome_raised in Hp as [Hl ->]. split; [done|].
  exists vr. split; [|done].
  destruct (validateImage_spec ip ap (currentPrompt st) tts w)
    as (r & w' & t & E & _ & _ & _ & Hok).
  rewrite Hv in E. injection E as <- <-.
  by destruct (Hok vr eq_refl) as (_ & _ & _ & _ & ?).
Qed.

Lemma loop_run_raised shot ip vp ap (tts : JSON) skipRegen st w e t :
  loop_run shot ip vp ap tts skipRegen st w (Throw e) t ->
  exists n vr,
    judge_result (vision_reply env n) = Ok vr /\ log_lines env vr = inl e.
Proof.
  intros H. remember (Throw e) as r0 eqn:Er.
  induction H as [st w Hc|st w o t Hc Hb|st w e' t Hc Hb
                  |st w st' w' t r0 t' Hc Hb Hev Hr IH]; simplify_eq; auto.
  apply body_outcome_raised in Hb as (_ & vr & ? & ?). eauto.
Qed.

(** The status of an outcome [validateShot] returns. *)
Lemma validateShot_status shot scriptData skipRegen w o w' :
  validateShot env root cfg shot scriptData skipRegen w = (Ok o, w') ->
  (status o = approved \/ status o = flagged \/ status o = error
   \/ status o = no_image)
  /\ (status o = no_image <-> path_exists w (imagePath_of shot) = false).
Proof.
  intros E0.
  destruct (validateShot_spec shot scriptData skipRegen w)
    as (r & w1 & t & E & _ & Ho).
  rewrite E0 in E. injection E as <- <-.
  inversion Ho as [Hi|e Hi| |pd tts Hi|pd tts r0 t' Hi _ _ _ Hr];
    simplify_eq/=;
    [split; [by auto 6|done]|split; [by auto|split; congruence]
    |split; [by auto|split; congruence]|].
  destruct r0 as [s|e|]; simplify_eq/=.
  apply loop_run_status in Hr. split; [tauto|]. split; [|congruence].
  intros Hn. rewrite Hn in Hr. by destruct Hr as [|[|]].
Qed.

(** [validateShot] returns an outcome whenever the script can be searched
    for the shot and the results of the judge's replies can be logged. *)
Lemma validateShot_returns_ok shot scriptData skipRegen w r w' :
  validateShot env root cfg shot scriptData skipRegen w = (r, w') ->
  (exists tts, getTtsContextForShot env (id shot) scriptData = inr tts) ->
  replies_loggable env -> exists o, r = Ok o.
Proof.
  intros E0 [tts Htts] Hlog.
  destruct (validateShot_spec shot scriptData skipRegen w)
    as (r1 & w1 & t & E & _ & Ho).
  rewrite E0 in E. injection E as <- <-.
  inversion Ho as [| |pd e _ _ He| |pd tts' r0 t' _ _ _ _ Hr]; subst;
    try (by eexists); [congruence|].
  destruct r0 as [s|e|]; simpl; [by eexists| |].
  - apply loop_run_raised in Hr as (n & vr & Hj & Hl).
    rewrite (Hlog n vr Hj) in Hl. done.
  - by destruct (loop_run_not_diverge _ _ _ _ _ _ _ _ _ Hr).
Qed.

(** * Properties of the loop *)

(** C3 (amended).  Whatever the judge, the refiner and the generator
    answer, [validateShot] never runs on: the run makes at most
    [maxIterations + 1] judge calls and then ends, and giving the loop more
    passes than [maxIterations + 1] changes nothing.  An outcome it returns
    has the status approved, flagged, error or no_image (never rejected),
    and it is no_image exactly when the shot has no image.png.  It returns
    an outcome whenever the script can be searched for the shot and the
    results of the judge's replies can be logged. *)
Theorem validateShot_terminates shot scriptData skipRegen w :
  exists r w',
    validateShot env root cfg shot scriptData skipRegen w = (r, w')
    /\ r <> Diverge
    /\ (forall o, r = Ok o ->
          (status o = approved \/ status o = flagged \/ status o = error
           \/ status o = no_image)
          /\ (status o = no_image <-> path_exists w (imagePath_of shot) = false))
    /\ count_ev is_vision (trace w')
       <= count_ev is_vision (trace w) + (maxIterations cfg + 1)
    /\ (forall fuel, S (maxIterations cfg) <= fuel ->
          validateShot_fuel env root cfg fuel shot scriptData skipRegen w
          = (r, w'))
    /\ ((exists tts, getTtsContextForShot env (id shot) scriptData = inr tts) ->
        replies_loggable env -> exists o, r = Ok o).
Proof.
  destruct (validateShot_spec shot scriptData skipRegen w)
    as (r & w' & t & E & Ev & Ho).
  exists r, w'. split; [done|].
  assert (trace w' = trace w ++ t) as Ht by (by destruct Ev).
  rewrite Ht, count_ev_app.
  split_and!.
  - inversion Ho as [| | | |pd tts r0 t' _ _ _ _ Hr]; subst; try done.
    destruct r0 as [s|e|]; try done.
    by destruct (loop_run_not_diverge _ _ _ _ _ _ _ _ _ Hr).
  - intros o ->.
    inversion Ho as [Hi|e Hi| |pd tts Hi|pd tts r0 t' Hi _ _ _ Hr];
      simplify_eq/=;
      [split; [by auto 6|done]|split; [by auto|split; congruence]
      |split; [by auto|split; congruence]|].
    destruct r0 as [s|e|]; simplify_eq/=.
    apply loop_run_status in Hr. split; [tauto|]. split; [|congruence].
    intros Hn. rewrite Hn in Hr. by destruct Hr as [|[|]].
  - inversion Ho as [| | | |pd tts r0 t' _ _ _ _ Hr]; subst;
      rewrite ?count_ev_nil; try lia.
    apply loop_run_vision in Hr. lia.
  - intros fuel Hf. by rewrite validateShot_fuel_enough.
  - intros [tts Htts] Hlog.
    inversion Ho as [| |pd e _ _ He| |pd tts' r0 t' _ _ _ _ Hr]; subst;
      try (by eexists); [congruence|].
    destruct r0 as [s|e|]; simpl; [by eexists| |].
    + apply loop_run_raised in Hr as (n & vr & Hj & Hl).
      rewrite (Hlog n vr Hj) in Hl. done.
    + by destruct (loop_run_not_diverge _ _ _ _ _ _ _ _ _ Hr).
Qed.

(** ** The records written to validation.json *)

Lemma obj_get_app k (a b : Obj) :
  obj_get k (a ++ b)
  = match obj_get k b with Some v => Some v | None => obj_get k a end.
Proof.
  induction a as [|[k' v] a IH]; simpl.
  - by destruct (obj_get k b).
  - rewrite IH. by destruct (obj_get k b).
Qed.

Lemma vd_iteration_of vr st time s e :
  vd_iteration (validationData_of vr st time s e) = Some (js_nat (iteration st)).
Proof.
  unfold vd_iteration, validationData_of. rewrite obj_get_app.
  by destruct s, e.
Qed.

Lemma vd_prompt_used_of vr st time s e :
  vd_prompt_used (validationData_of vr st time s e)
  = Some (JString (currentPrompt st)).
Proof.
  unfold vd_prompt_used, validationData_of. rewrite obj_get_app.
  by destruct s, e.
Qed.




(** ** The iteration counts of a run *)

Lemma iteration_writes_app pp t1 t2 :
  iteration_writes pp (t1 ++ t2)
  = iteration_writes pp t1 ++ iteration_writes pp t2.
Proof. apply omap_app. Qed.

Lemma regen_failed_no_writes shot ip vr st w e t :
  regen_outcome shot ip vr st w (Throw e) t ->
  forall p, writes_to p t = [].
Proof. inversion 1; subst; intros p; reflexivity. Qed.

Lemma writes_to_iteration_writes pp t :
  writes_to pp t = [] -> iteration_writes pp t = [].
Proof.
  induction t as [|e t IH]; [done|]. simpl.
  destruct e as [| | | |q c]; simpl; try done.
  case_bool_decide; [done|]. intros Hw. destruct c; by apply IH.
Qed.

Lemma body_outcome_iterations shot ip vp ap (tts : JSON) skipRegen st w r t :
  body_outcome shot ip vp ap tts skipRegen st w r t ->
  match r with
  | Ok (Continue st') =>
      iteration st' = iteration st + 1
      /\ iteration st < maxIterations cfg
      /\ iteration_writes (promptPath shot) t = [iteration st + 1]
  | Ok (Return o) =>
      iteration_writes (promptPath shot) t = []
      /\ forall vd, validation o = Some vd ->
           vd_iteration vd = Some (js_nat (iteration st))
           /\ vd_prompt_used vd = Some (JString (currentPrompt st))
           /\ exists t0, t = t0 ++ [EvWrite vp (ValidationJson vd)]
  | Throw _ => iteration_writes (promptPath shot) t = []
  | Diverge => False
  end.
Proof.
  intros Hb. destruct r as [[st'|o]|e|].
  - destruct (body_continue_inv _ _ _ _ _ _ _ _ _ _ Hb)
      as (vr & w0 & _ & _ & _ & _ & Hi & -> & (a & url & b & ->)).
    split; [done|]. split; [done|]. simpl.
    by rewrite bool_decide_eq_true_2 by done.
  - inversion Hb as [e t' _ [->| ->]|vr w1 r' t' _ _ _ Hp]; subst;
      [by split|by split|].
    inversion Hp as [| | | |e t0 _ _ _ _ Hr]; subst; simpl.
    + split; [done|]. intros vd [= <-].
      split; [apply vd_iteration_of|]. split; [apply vd_prompt_used_of|].
      by exists [vision_event ip ap tts st].
    + split; [done|]. intros vd [= <-].
      split; [apply vd_iteration_of|]. split; [apply vd_prompt_used_of|].
      by exists [vision_event ip ap tts st].
    + split.
      * rewrite iteration_writes_app.
        rewrite (writes_to_iteration_writes _ t0)
          by (by eapply regen_failed_no_writes).
        done.
      * intros vd [= <-].
        split; [apply vd_iteration_of|]. split; [apply vd_prompt_used_of|].
        by exists (vision_event ip ap tts st :: t0).
  - by apply body_outcome_raised in Hb as [-> _].
  - by apply body_outcome_not_diverge in Hb.
Qed.

Lemma loop_run_iterations shot ip vp ap (tts : JSON) skipRegen st w r t :
  loop_run shot ip vp ap tts skipRegen st w r t ->
  exists k,
    iteration_writes (promptPath shot) t = seq (S (iteration st)) k
    /\ (k = 0 \/ iteration st + k <= maxIterations cfg)
    /\ match r with
       | Ok (Continue st') => iteration st' = iteration st + k
       | Ok (Return o) =>
           forall vd, validation o = Some vd ->
             vd_iteration vd = Some (js_nat (iteration st + k))
             /\ iteration st + k <= maxIterations cfg
             /\ exists t0, t = t0 ++ [EvWrite vp (ValidationJson vd)]
       | _ => True
       end.
Proof.
  induction 1 as [st w Hc|st w o t Hc Hb|st w e t Hc Hb
                  |st w st' w' t r t' Hc Hb Hev Hr IH].
  - exists 0. split_and!; [done|by left|simpl; lia].
  - apply body_outcome_iterations in Hb as [Hw Hv].
    exists 0. split_and!; [done|by left|].
    intros vd Hvd. destruct (Hv vd Hvd) as (Hi & _ & Ht).
    unfold loop_cond in Hc. apply Nat.leb_le in Hc.
    rewrite Nat.add_0_r. split_and!; [done|lia|done].
  - apply body_outcome_iterations in Hb.
    exists 0. split_and!; [done|by left|done].
  - apply body_outcome_iterations in Hb as (Hi & Hlt & Hw).
    destruct IH as (k & Hk & Hle & Hres).
    exists (S k). rewrite iteration_writes_app, Hw, Hk, Hi.
    split_and!.
    + simpl. by rewrite Nat.add_1_r.
    + right. destruct Hle as [->|]; lia.
    + destruct r as [[st''|o]|e|]; [lia| |done|done].
      intros vd Hvd. destruct (Hres vd Hvd) as (Hv & Hm & t0 & ->).
      rewrite Hi in Hv, Hm.
      replace (iteration st + S k) with (iteration st + 1 + k) by lia.
      split_and!; [done|lia|].
      exists (t ++ t0). by rewrite app_assoc.
Qed.

Lemma apply_writes_last t f p c :
  apply_writes (t ++ [EvWrite p c]) f !! p = Some c.
Proof.
  unfold apply_writes. rewrite foldl_app. simpl. apply lookup_insert_eq.
Qed.

Lemma validateShot_not_diverge shot scriptData skipRegen w :
  (validateShot env root cfg shot scriptData skipRegen w).1 <> Diverge.
Proof.
  destruct (validateShot_spec shot scriptData skipRegen w)
    as (r & w' & t & -> & _ & Ho). simpl.
  inversion Ho as [| | | |pd tts r0 t' _ _ _ _ Hr]; subst; try done.
  destruct r0 as [s|e|]; try done.
  by destruct (loop_run_not_diverge _ _ _ _ _ _ _ _ _ Hr).
Qed.

(** The iteration counts of a run of [validateShot], for any persisted
    start value. *)
Lemma iteration_progress shot scriptData skipRegen w pd :
  fs w !! promptPath shot = Some (PromptJson pd) ->
  exists r w' t k,
    validateShot env root cfg shot scriptData skipRegen w = (r, w')
    /\ r <> Diverge
    /\ trace w' = trace w ++ t
    /\ iteration_writes (promptPath shot) t
       = seq (S (default 0 (validation_iteration pd))) k
    /\ (k = 0 \/ default 0 (validation_iteration pd) + k <= maxIterations cfg)
    /\ forall o vd, r = Ok o -> validation o = Some vd ->
         vd_iteration vd
         = Some (js_nat (default 0 (validation_iteration pd) + k))
         /\ default 0 (validation_iteration pd) + k <= maxIterations cfg
         /\ fs w' !! validationPath_of shot = Some (ValidationJson vd).
Proof.
  intros Hpd.
  pose proof (validateShot_not_diverge shot scriptData skipRegen w) as Hnd.
  destruct (validateShot_spec shot scriptData skipRegen w)
    as (r & w' & t & E & Ev & Ho).
  rewrite E in Hnd. simpl in Hnd.
  exists r, w', t.
  assert (trace w' = trace w ++ t) as Ht by (by destruct Ev).
  inversion Ho as [Hi|e Hi| |pd' tts Hi|pd' tts r0 t' Hi Hl _ _ Hr]; subst;
    try (exists 0; split_and!; [done|done|done|done|by left|];
         by intros o vd [= <-]).
  rewrite loadPromptJson_run, Hpd in Hl. simpl in Hl.
  injection Hl as <-.
  destruct (loop_run_iterations _ _ _ _ _ _ _ _ _ _ Hr)
    as (k & Hk & Hle & Hres).
  exists k. split_and!; [done|done|done|done|done|].
  intros o vd Ho' Hvd. destruct r0 as [[st'|o0]|e|]; simplify_eq/=.
  destruct (Hres vd Hvd) as (Hv & Hm & t0 & ->).
  split_and!; [done|done|].
  destruct Ev as [_ -> _ _]. apply apply_writes_last.
Qed.

(** C4.  For a shot that starts from iteration count 0, the iteration
    counts written to prompt.json during the loop are 1, 2, ..., k in this
    order (the count never decreases), with k at most [maxIterations]; the
    outcome persisted in validation.json records [iteration = k], so
    0 <= iterationsUsed <= maxIterations, whatever the judge answers. *)
Theorem iteration_bounded shot scriptData skipRegen w pd :
  fs w !! promptPath shot = Some (PromptJson pd) ->
  default 0 (validation_iteration pd) = 0 ->
  exists r w' t k,
    validateShot env root cfg shot scriptData skipRegen w = (r, w')
    /\ r <> Diverge
    /\ ((exists tts, getTtsContextForShot env (id shot) scriptData = inr tts) ->
        replies_loggable env -> exists o, r = Ok o)
    /\ trace w' = trace w ++ t
    /\ iteration_writes (promptPath shot) t = seq 1 k
    /\ k <= maxIterations cfg
    /\ forall o vd, r = Ok o -> validation o = Some vd ->
         vd_iteration vd = Some (js_nat k)
         /\ 0 <= k <= maxIterations cfg
         /\ fs w' !! validationPath_of shot = Some (ValidationJson vd).
Proof.
  intros Hpd H0.
  destruct (iteration_progress shot scriptData skipRegen w pd Hpd)
    as (r & w' & t & k & E & Hnd & Ht & Hw & Hk & Hv).
  rewrite H0 in *. exists r, w', t, k.
  split_and!;
    [done|done|exact (validateShot_returns_ok _ _ _ _ _ _ E)|done|done|lia|].
  intros o vd Ho Hvd. destruct (Hv o vd Ho Hvd) as (? & ? & ?).
  split_and!; [done|lia|done|done].
Qed.

(** ** History and iteration count *)

Lemma well_formed_paths shot :
  well_formed_shot shot ->
  promptPath shot <> imagePath_of shot
  /\ promptPath shot <> validationPath_of shot.
Proof.
  unfold well_formed_shot, imagePath_of, validationPath_of, path_join.
  simpl. intros ->. split; intros H; by apply app_inv_head in H.
Qed.

Lemma regenerated_state_consistent vr st w :
  history_consistent st -> history_consistent (regenerated_state vr st w).
Proof.
  intros [Hl Hi]. split; simpl; [|done].
  unfold history_length in *. simpl. rewrite length_app. simpl. lia.
Qed.

Lemma loop_body_continue shot ip vp ap (tts : JSON) skipRegen st w st' w' :
  loop_body env root cfg shot ip vp ap tts skipRegen st w
  = (Ok (Continue st'), w') ->
  exists t, evolves t w w'
    /\ body_outcome shot ip vp ap tts skipRegen st w (Ok (Continue st')) t.
Proof.
  intros E.
  destruct (loop_body_spec shot ip vp ap tts skipRegen st w)
    as (r & w1 & t & E1 & Ev & Ho).
  rewrite E in E1. injection E1 as <- <-. eauto.
Qed.

Lemma body_outcome_writes_prompt shot ip vp ap (tts : JSON) skipRegen st w r t :
  body_outcome shot ip vp ap tts skipRegen st w r t ->
  promptPath shot <> vp ->
  (forall st', r <> Ok (Continue st')) ->
  writes_to (promptPath shot) t = [].
Proof.
  intros Hb Hne Hr.
  inversion Hb as [e t' _ [->| ->]|vr w1 r' t' _ _ _ Hp]; subst;
    [done|done|].
  inversion Hp as [| | |st' t0|e t0 _ _ _ _ Hreg]; subst; simpl;
    try (by rewrite bool_decide_eq_false_2 by done); [done|by destruct (Hr st')|].
  rewrite writes_to_app, (regen_failed_no_writes _ _ _ _ _ _ _ Hreg).
  simpl. by rewrite bool_decide_eq_false_2 by done.
Qed.

Lemma body_outcome_prompt_file (shot : Shot) (ip vp ap : path) (tts : JSON)
    (skipRegen : bool) (st : LoopState) (w : World)
    (r : Res (Step LoopState Outcome)) (t : list Event) (f : gmap path File) :
  body_outcome shot ip vp ap tts skipRegen st w r t ->
  promptPath shot <> vp ->
  f !! promptPath shot = Some (PromptJson (promptData st)) ->
  apply_writes t f !! promptPath shot
  = Some (PromptJson (promptData (state_after st r))).
Proof.
  intros Hb Hne Hf.
  assert ((exists st', r = Ok (Continue st'))
          \/ forall st', r <> Ok (Continue st')) as [[st' ->]|Hn].
  { destruct r as [[st'|o]|e|]; eauto. }
  - destruct (body_continue_inv _ _ _ _ _ _ _ _ _ _ Hb)
      as (vr & w0 & _ & _ & _ & _ & Hi & -> & (a & url & b & ->)).
    by apply (apply_writes_last [_; _; _; _; _]).
  - rewrite apply_writes_lookup_other.
    + destruct r as [[st'|o]|e|]; try done. by destruct (Hn st').
    + by eapply body_outcome_writes_prompt.
Qed.

Lemma reaches_consistent shot ip vp ap (tts : JSON) skipRegen st w st' w' :
  reaches shot ip vp ap tts skipRegen st w st' w' ->
  promptPath shot <> vp ->
  history_consistent st ->
  fs w !! promptPath shot = Some (PromptJson (promptData st)) ->
  history_consistent st'
  /\ fs w' !! promptPath shot = Some (PromptJson (promptData st'))
  /\ iteration st <= iteration st'.
Proof.
  induction 1 as [st w|st w st' w' st'' w'' Hc E Hr IH]; intros Hne Hh Hf.
  - by split_and!.
  - destruct (loop_body_continue _ _ _ _ _ _ _ _ _ _ E) as (t & Ev & Hb).
    pose proof (body_outcome_prompt_file _ _ _ _ _ _ _ _ _ _ _ Hb Hne Hf)
      as Hf'.
    destruct (body_continue_inv _ _ _ _ _ _ _ _ _ _ Hb)
      as (vr & w0 & _ & _ & _ & _ & Hi & Hst & _).
    destruct IH as (Hh'' & Hf'' & Hle); [done| | |].
    + subst st'. by apply regenerated_state_consistent.
    + destruct Ev as [_ -> _ _]. done.
    + split_and!; [done|done|]. subst st'. simpl in Hle. lia.
Qed.

Lemma loop_run_history (shot : Shot) (ip vp ap : path) (tts : JSON)
    (skipRegen : bool) (st : LoopState) (w : World)
    (r : Res (Step LoopState Outcome)) (t : list Event) (f : gmap path File) :
  loop_run shot ip vp ap tts skipRegen st w r t ->
  promptPath shot <> vp ->
  history_consistent st ->
  f !! promptPath shot = Some (PromptJson (promptData st)) ->
  exists st',
    apply_writes t f !! promptPath shot = Some (PromptJson (promptData st'))
    /\ history_consistent st'
    /\ match r with
       | Ok (Continue s) => s = st'
       | Ok (Return o) =>
           forall vd, validation o = Some vd ->
             vd_iteration vd = Some (js_nat (iteration st'))
       | _ => True
       end.
Proof.
  intros Hr Hne. revert f.
  induction Hr as [st w Hc|st w o t Hc Hb|st w e t Hc Hb
                   |st w st' w' t r t' Hc Hb Hev Hr IH];
    intros f Hh Hf.
  - exists st. by split_and!.
  - exists st. split_and!; [|done|].
    + by apply (body_outcome_prompt_file _ _ _ _ _ _ _ _ _ _ _ Hb).
    + intros vd Hvd.
      by destruct (body_outcome_iterations _ _ _ _ _ _ _ _ _ _ Hb)
        as [_ Hv]; destruct (Hv vd Hvd).
  - exists st. split_and!; [|done|done].
    by apply (body_outcome_prompt_file _ _ _ _ _ _ _ _ _ _ _ Hb).
  - pose proof (body_outcome_prompt_file _ _ _ _ _ _ _ _ _ _ _ Hb Hne Hf)
      as Hf'.
    destruct (body_continue_inv _ _ _ _ _ _ _ _ _ _ Hb)
      as (vr & w0 & _ & _ & _ & _ & Hi & Hst & _).
    destruct (IH (apply_writes t f)) as (stf & Hff & Hhf & Hres);
      [subst st'; by apply regenerated_state_consistent|done|].
    exists stf. split_and!; [|done|done].
    unfold apply_writes in *. by rewrite foldl_app.
Qed.

(** C8 (amended).  For a shot whose persisted record is consistent at the
    start (the history has as many entries as the iteration count says, as
    in the record phase 5 creates: empty history, no iteration count), the
    length of the prompt history equals the iteration count at the head of
    every pass of the loop, in memory and in prompt.json; and when the run
    ends the record in prompt.json is consistent again, and its history has
    as many entries as the iteration recorded in the outcome (approved,
    flagged or error after a validation). *)
Theorem history_matches_iteration shot scriptData skipRegen w pd :
  well_formed_shot shot ->
  fs w !! promptPath shot = Some (PromptJson pd) ->
  history_length pd = default 0 (validation_iteration pd) ->
  (forall ap tts st' w',
     reaches shot (imagePath_of shot) (validationPath_of shot) ap tts
       skipRegen (initial_state pd) w st' w' ->
     history_length (promptData st') = iteration st'
     /\ fs w' !! promptPath shot = Some (PromptJson (promptData st')))
  /\ exists r w' pd',
       validateShot env root cfg shot scriptData skipRegen w = (r, w')
       /\ r <> Diverge
       /\ fs w' !! promptPath shot = Some (PromptJson pd')
       /\ history_length pd' = default 0 (validation_iteration pd')
       /\ forall o vd, r = Ok o -> validation o = Some vd ->
            vd_iteration vd = Some (js_nat (history_length pd')).
Proof.
  intros Hwf Hpd Hlen.
  destruct (well_formed_paths shot Hwf) as [_ Hne].
  assert (history_consistent (initial_state pd)) as Hh0 by (by split).
  split.
  - intros ap tts st' w' Hr.
    destruct (reaches_consistent _ _ _ _ _ _ _ _ _ _ Hr Hne Hh0 Hpd)
      as ([? ?] & ? & _).
    by split.
  - pose proof (validateShot_not_diverge shot scriptData skipRegen w) as Hnd.
    destruct (validateShot_spec shot scriptData skipRegen w)
      as (r & w' & t & E & Ev & Ho).
    rewrite E in Hnd. simpl in Hnd.
    assert (fs w' = apply_writes t (fs w)) as Hfs by (by destruct Ev).
    inversion Ho as [Hi|e Hi| |pd0 tts Hi|pd0 tts r0 t' Hi Hl _ _ Hr]; subst;
      try (eexists _, w', pd; split_and!;
           [done|done|by rewrite Hfs|done|by intros o vd [= <-]]).
    rewrite loadPromptJson_run, Hpd in Hl. simpl in Hl.
    injection Hl as <-.
    destruct (loop_run_history _ _ _ _ _ _ _ _ _ _ (fs w) Hr Hne Hh0 Hpd)
      as (stf & Hff & [Hhl Hhi] & Hres).
    exists (Res_map loop_result r0), w', (promptData stf).
    split_and!; [done|done|by rewrite Hfs|congruence|].
    intros o vd Ho' Hvd. destruct r0 as [[s|o0]|e|]; simplify_eq/=.
    rewrite Hhl. by apply Hres.
Qed.

(** ** A pass, once the judge has answered *)

Lemma loop_body_validated shot ip vp ap (tts : JSON) skipRegen st w vr w1 :
  validateImage env root ip ap (currentPrompt st) tts w = (Ok vr, w1) ->
  loop_body env root cfg shot ip vp ap tts skipRegen st w
  = handle_validation env root cfg shot ip vp skipRegen vr st w1.
Proof.
  intros E. unfold loop_body. by rewrite bind_run, attempt_run, E.
Qed.

Lemma validateImage_ok_inv ip ap p (tts : JSON) w vr w1 :
  validateImage env root ip ap p tts w = (Ok vr, w1) ->
  evolves [EvVision ip ap p tts] w w1 /\ is_Some (PROMPTS_CONFIG w1)
  /\ is_Some (fs w !! ip) /\ is_Some (fs w !! ap)
  /\ judge_result (vision_reply env (count_ev is_vision (trace w))) = Ok vr.
Proof.
  intros E.
  destruct (validateImage_spec ip ap p tts w)
    as (r & w' & t & E' & Ev & _ & _ & Hok).
  rewrite E in E'. injection E' as <- <-.
  destruct (Hok vr eq_refl) as (-> & ? & ? & ? & ?). done.
Qed.

Lemma regen_outcome_config shot ip vr st w r t :
  regen_outcome shot ip vr st w r t -> is_Some (PROMPTS_CONFIG w) ->
  refine_request env vr = inr tt ->
  exists t', t = refine_event vr st :: t'.
Proof.
  inversion 1 as [e Hc|e Hq| | | |]; subst; intros Hs Hb; eauto.
  - destruct Hc. by left.
  - congruence.
Qed.


Lemma parse_failure_result_failed msg :
  overall_pass (parse_failure_result msg) = false.
Proof. reflexivity. Qed.

Lemma parse_failure_result_logged msg :
  log_lines env (parse_failure_result msg) = inr tt.
Proof. reflexivity. Qed.

Lemma parse_failure_result_request msg :
  refine_request env (parse_failure_result msg) = inr tt.
Proof. reflexivity. Qed.

(** C1 (amended).  When the text of the judge's reply cannot be parsed,
    [validateImage] does not raise: it returns a failing result
    ([overall_pass = false], [success = false], the issue "Failed to parse
    validation response"), so the validation attempt itself produces no
    error outcome.  The loop handles this result as any failed validation:
    it flags the shot when regeneration is skipped or the iteration count
    has reached [maxIterations]; otherwise it calls the refiner with the
    parse-failure issue and regenerates (the pass that goes on has called
    the generator after the refiner), and a successful regeneration
    consumes an iteration. *)
Theorem unparseable_reply_is_failed_validation
    shot ap (tts : JSON) skipRegen st w content tc msg :
  config_available w ->
  is_Some (fs w !! imagePath_of shot) -> is_Some (fs w !! ap) ->
  vision_reply env (count_ev is_vision (trace w)) = ApiResponse content ->
  find_text content = Some tc ->
  JSON_parse env (trim env (cb_text tc)) = inl msg ->
  exists w1 r w' t,
    validateImage env root (imagePath_of shot) ap (currentPrompt st) tts w
    = (Ok (parse_failure_result msg), w1)
    /\ loop_body env root cfg shot (imagePath_of shot)
         (validationPath_of shot) ap tts skipRegen st w = (Ok r, w')
    /\ trace w' = trace w ++
         EvVision (imagePath_of shot) ap (currentPrompt st) tts :: t
    /\ if skipRegen || (maxIterations cfg <=? iteration st)
       then r = Return
                  (flagged_outcome
                     (flagged_record env (parse_failure_result msg) st w1))
       else (exists t',
               t = EvRefine (currentPrompt st)
                     (JArray [JString "Failed to parse validation response"])
                     (JArray [JString "Retry validation"])
                     (criteria_scores (parse_failure_result msg)) :: t'
               /\ forall st', r = Continue st' ->
                    exists a t'', t' = EvEdit a (currentPrompt st') :: t'')
            /\ match r with
               | Continue st' => iteration st' = iteration st + 1
               | Return o =>
                   status o = error
                   /\ exists time e,
                        validation o
                        = Some (validationData_of (parse_failure_result msg)
                                  st time (Some error) (Some e))
               end.
Proof.
  intros Hc Hi Ha Hreply Hfind Hparse.
  destruct (validateImage_called (imagePath_of shot) ap (currentPrompt st)
              tts w Hc Hi Ha) as (w1 & Ev1 & Hc1 & E1).
  rewrite Hreply in E1. simpl in E1. rewrite Hfind, Hparse in E1.
  destruct (handle_validation_spec shot (imagePath_of shot)
              (validationPath_of shot) skipRegen (parse_failure_result msg)
              st w1) as (r & w' & t & E & Ev & Hp).
  pose proof (parse_failure_result_failed msg) as Hfailed.
  pose proof (parse_failure_result_logged msg) as Hlog.
  pose proof (parse_failure_result_request msg) as Hreq.
  pose proof (evolves_trans _ _ _ _ _ Ev1 Ev) as [Ht _ _ _].
  rewrite (loop_body_validated _ _ _ _ _ _ _ _ _ _ E1).
  inversion Hp as [e He|Hpass|Hpass Hl Hs|st' t0 Hpass Hl Hs Hlt Hr
                   |e t0 Hpass Hl Hs Hlt Hr]; subst; try congruence.
  - eexists w1, _, w', _. split_and!; [done|done|done|]. by rewrite Hs.
  - eexists w1, _, w', _. split_and!; [done|done|done|].
    apply Nat.ltb_lt in Hlt as Hlt'.
    rewrite Nat.ltb_antisym in Hlt'. apply negb_true_iff in Hlt' as ->.
    simpl. apply regen_ok_inv in Hr as [-> (a & url & b & ->)].
    split; [|done]. eexists. split; [reflexivity|].
    intros st' [= <-]. by eexists _, _.
  - eexists w1, _, w', _. split_and!; [done|done|done|].
    apply Nat.ltb_lt in Hlt as Hlt'.
    rewrite Nat.ltb_antisym in Hlt'. apply negb_true_iff in Hlt' as ->.
    simpl. destruct (regen_outcome_config _ _ _ _ _ _ _ Hr Hc1 Hreq) as [t' ->].
    split; [eexists; split; [reflexivity|done]|]. split; [done|].
    by eexists _, _.
Qed.

Lemma refinePrompt_rejected p i s c w e :
  config_available w -> userPrompt env i s c = inr tt ->
  refine_reply env (count_ev is_refine (trace w)) = ApiRejects e ->
  exists w', refinePrompt env root p i s c w = (Ok p, w')
    /\ evolves [EvRefine p i s c] w w'.
Proof.
  intros Hc Hu Hr.
  destruct (refinePrompt_spec p i s c w)
    as (r & w' & t & E & Ev & [(e' & _ & _ & [Hn|Hn])|(-> & -> & _)]);
    [done|congruence|].
  rewrite Hr in E. simpl in E. eauto.
Qed.

(** C7.  When the request of [refinePrompt] fails, [refinePrompt] returns
    the original prompt instead of raising: whenever the request is made
    and rejected, the result is the original prompt, and the request is
    made whenever the configuration is there and the text of the request
    can be built.  In the loop, a pass whose refiner call fails therefore
    goes on to the generator with the unchanged prompt: it ends in an error
    only if the regeneration itself fails, and otherwise continues with the
    same prompt and the next iteration count. *)
Theorem refiner_failure_keeps_prompt :
  (forall p i s c w e,
     config_available w -> userPrompt env i s c = inr tt ->
     refine_reply env (count_ev is_refine (trace w)) = ApiRejects e ->
     exists w', refinePrompt env root p i s c w = (Ok p, w')
       /\ trace w' = trace w ++ [EvRefine p i s c])
  /\ (forall p i s c w e r w',
        refinePrompt env root p i s c w = (r, w') ->
        trace w' = trace w ++ [EvRefine p i s c] ->
        refine_reply env (count_ev is_refine (trace w)) = ApiRejects e ->
        r = Ok p)
  /\ (forall shot ap tts st w vr w1 e,
        validateImage env root (imagePath_of shot) ap (currentPrompt st) tts w
        = (Ok vr, w1) ->
        overall_pass vr = false ->
        log_lines env vr = inr tt ->
        refine_request env vr = inr tt ->
        iteration st < maxIterations cfg ->
        refine_reply env (count_ev is_refine (trace w1)) = ApiRejects e ->
        is_Some (fs w !! (root ++ anchor_image (promptData st))) ->
        exists r w' a t,
          loop_body env root cfg shot (imagePath_of shot)
            (validationPath_of shot) ap tts false st w = (Ok r, w')
          /\ trace w' = trace w ++
               [EvVision (imagePath_of shot) ap (currentPrompt st) tts;
                EvRefine (currentPrompt st) (or_empty (issues vr))
                  (or_empty (suggestions vr)) (criteria_scores vr);
                EvEdit a (currentPrompt st)] ++ t
          /\ (forall st', r = Continue st' ->
                currentPrompt st' = currentPrompt st
                /\ engineered_prompt (promptData st') = currentPrompt st
                /\ iteration st' = iteration st + 1)
          /\ (forall url b,
                edit_result (fal_reply env (count_ev is_edit (trace w1)))
                = Ok url ->
                fetch_reply env (count_ev is_fetch (trace w1)) = FetchBody b ->
                exists st', r = Continue st')).
Proof.
  split_and!.
  - intros p i s c w e Hc Hu Hr.
    destruct (refinePrompt_rejected p i s c w e Hc Hu Hr) as (w' & E & Ev).
    exists w'. split; [done|]. by destruct Ev.
  - intros p i s c w e r w' E Ht Hr.
    destruct (refinePrompt_spec p i s c w)
      as (r0 & w0 & t & E0 & Ev & [(e' & -> & -> & _)|(-> & -> & _)]);
      rewrite E in E0; injection E0 as -> ->.
    + destruct Ev as [Ht' _ _ _]. rewrite Ht in Ht'.
      by apply app_inv_head in Ht'.
    + by rewrite Hr.
  - intros shot ap tts st w vr w1 e E1 Hpass Hlog Hreq Hlt Hr [f Hf].
    destruct (validateImage_ok_inv _ _ _ _ _ _ _ E1) as (Ev1 & Hc1 & _ & _ & _).
    rewrite (loop_body_validated _ _ _ _ _ _ _ _ _ _ E1).
    destruct (handle_validation_spec shot (imagePath_of shot)
                (validationPath_of shot) false vr st w1)
      as (r & w' & t & E & Ev & Hp).
    assert (refined_prompt st w1 = currentPrompt st) as Hrp.
    { unfold refined_prompt. by rewrite Hr. }
    assert (fs w1 !! (root ++ anchor_image (promptData st)) = Some f) as Hf1.
    { destruct Ev1 as [_ -> _ _]. done. }
    pose proof (evolves_trans _ _ _ _ _ Ev1 Ev) as [Ht _ _ _].
    inversion Hp as [e' He|Hp'|Hp' _ Hs|st' t0 _ _ _ _ Hreg
                     |e' t0 _ _ _ _ Hreg]; subst; try congruence.
    + simpl in Hs. apply Nat.leb_le in Hs. lia.
    + apply regen_ok_inv in Hreg as [-> (a & url & b & ->)].
      rewrite Hrp in *.
      eexists _, w', a, _. split_and!; [done|exact Ht| |by eauto].
      intros st' [= <-]. simpl. by rewrite Hrp.
    + inversion Hreg as [e0 Hn|e0 Hn|e0 Hn|a e0 He|a url e0 He Hfe|]; subst.
      * destruct Hn. by left.
      * congruence.
      * congruence.
      * rewrite Hrp in *.
        eexists _, w', a, _. split_and!; [done|exact Ht|done|].
        intros url b Hu. congruence.
      * rewrite Hrp in *.
        eexists _, w', a, _. split_and!; [done|exact Ht|done|].
        intros url' b Hu Hb. congruence.
Qed.

(** ** The first pass of a run *)

(** A run whose first pass returns or raises ends with that pass. *)
Lemma validateShot_first_pass shot scriptData skipRegen w pd tts vr w1 r w' :
  fs w !! promptPath shot = Some (PromptJson pd) ->
  default 0 (validation_iteration pd) <= maxIterations cfg ->
  getTtsContextForShot env (id shot) scriptData = inr tts ->
  validateImage env root (imagePath_of shot) (root ++ anchor_image pd)
    (engineered_prompt pd) tts w = (Ok vr, w1) ->
  handle_validation env root cfg shot (imagePath_of shot)
    (validationPath_of shot) skipRegen vr (initial_state pd) w1 = (r, w') ->
  (forall st', r <> Ok (Continue st')) ->
  validateShot env root cfg shot scriptData skipRegen w
  = (Res_map loop_result r, w').
Proof.
  intros Hpd H0 Htts E1 E2 Hr.
  destruct (validateImage_ok_inv _ _ _ _ _ _ _ E1)
    as (_ & _ & [fi Hfi] & [fa Hfa] & _).
  unfold validateShot, validateShot_fuel.
  fold (imagePath_of shot). fold (validationPath_of shot).
  rewrite bind_run, attempt_run, fs_access_run, (path_exists_file _ _ _ Hfi).
  rewrite bind_run, attempt_run, loadPromptJson_run, Hpd. simpl as_prompt.
  cbv iota. rewrite bind_run, lift_run, Htts.
  rewrite bind_run, attempt_run, getAnchorPath_spec,
    (path_exists_file _ _ _ Hfa).
  fold (initial_state pd). rewrite bind_run. simpl while.
  assert (loop_cond cfg (initial_state pd) = true) as ->.
  { unfold loop_cond, initial_state. simpl. by apply Nat.leb_le. }
  rewrite bind_run.
  rewrite (loop_body_validated shot _ _ _ tts skipRegen (initial_state pd)
             w vr w1) by done.
  rewrite E2. destruct r as [[st'|o]|e|]; try done. by destruct (Hr st').
Qed.

(** When the judge passes the image at the first call of a run and the
    confidence of its result is a number, the run ends at once as
    approved. *)
Lemma first_pass_approved shot scriptData skipRegen w pd tts vr w1 :
  fs w !! promptPath shot = Some (PromptJson pd) ->
  default 0 (validation_iteration pd) <= maxIterations cfg ->
  getTtsContextForShot env (id shot) scriptData = inr tts ->
  validateImage env root (imagePath_of shot) (root ++ anchor_image pd)
    (engineered_prompt pd) tts w = (Ok vr, w1) ->
  overall_pass vr = true ->
  toFixed (confidence vr) = inr tt ->
  exists o w' vd,
    validateShot env root cfg shot scriptData skipRegen w = (Ok o, w')
    /\ status o = approved
    /\ validation o = Some vd
    /\ vd_iteration vd = Some (js_nat (default 0 (validation_iteration pd)))
    /\ fs w' !! validationPath_of shot = Some (ValidationJson vd)
    /\ trace w' = trace w
         ++ [EvVision (imagePath_of shot) (root ++ anchor_image pd)
               (engineered_prompt pd) tts;
             EvWrite (validationPath_of shot) (ValidationJson vd)].
Proof.
  intros Hpd H0 Htts E1 Hpass Hfix.
  destruct (validateImage_ok_inv _ _ _ _ _ _ _ E1) as (Ev1 & _).
  destruct (handle_validation_spec shot (imagePath_of shot)
              (validationPath_of shot) skipRegen vr (initial_state pd) w1)
    as (r & w' & t & E & Ev & Hp).
  assert (log_lines env vr = inr tt) as Hlog.
  { unfold log_lines. by rewrite Hpass. }
  inversion Hp as [e He|_ _|Hp' _ Hs|st' t0 Hp'|e t0 Hp']; subst;
    try congruence.
  rewrite (validateShot_first_pass shot scriptData skipRegen w pd tts vr w1
             _ w' Hpd H0 Htts E1 E) by done.
  pose proof (evolves_trans _ _ _ _ _ Ev1 Ev) as [Ht Hf _ _].
  eexists _, w', _. split_and!; [done|done|done| | |done].
  - apply vd_iteration_of.
  - rewrite Hf. by apply (apply_writes_last [_]).
Qed.

(** When the confidence of a passing result is not a number, the run
    raises at the [console.log] of the pass, before anything is written. *)
Lemma first_pass_raised shot scriptData skipRegen w pd tts vr w1 e :
  fs w !! promptPath shot = Some (PromptJson pd) ->
  default 0 (validation_iteration pd) <= maxIterations cfg ->
  getTtsContextForShot env (id shot) scriptData = inr tts ->
  validateImage env root (imagePath_of shot) (root ++ anchor_image pd)
    (engineered_prompt pd) tts w = (Ok vr, w1) ->
  log_lines env vr = inl e ->
  validateShot env root cfg shot scriptData skipRegen w = (Throw e, w1)
  /\ trace w1 = trace w
       ++ [EvVision (imagePath_of shot) (root ++ anchor_image pd)
             (engineered_prompt pd) tts]
  /\ fs w1 = fs w /\ dirs w1 = dirs w.
Proof.
  intros Hpd H0 Htts E1 Hlog.
  destruct (validateImage_ok_inv _ _ _ _ _ _ _ E1) as ([Ht Hf Hd _] & _).
  destruct (handle_validation_spec shot (imagePath_of shot)
              (validationPath_of shot) skipRegen vr (initial_state pd) w1)
    as (r & w' & t & E & Ev & Hp).
  inversion Hp; subst; try congruence.
  assert (e0 = e) as -> by congruence.
  destruct Ev as [Ht' Hf' Hd' _]. simpl in *.
  assert (w' = w1) as ->.
  { revert E. unfold handle_validation.
    destruct (overall_pass vr) eqn:Ep.
    - unfold log_lines in Hlog. rewrite Ep in Hlog.
      rewrite bind_run, lift_run, Hlog. congruence.
    - unfold log_lines in Hlog. rewrite Ep in Hlog.
      rewrite bind_run, lift_run, Hlog. congruence. }
  rewrite (validateShot_first_pass shot scriptData skipRegen w pd tts vr w1
             _ w1 Hpd H0 Htts E1 E) by done.
  done.
Qed.

(** ** The exercise orchestrator *)

Lemma push_result_total results shot o :
  bucket_total (push_result results shot o) = S (bucket_total results).
Proof.
  unfold bucket_total, push_result.
  destruct (status o); simpl; rewrite length_app; simpl; lia.
Qed.

Lemma push_result_rejected results shot o :
  status o <> rejected ->
  r_rejected (push_result results shot o) = r_rejected results.
Proof. unfold push_result. by destruct (status o). Qed.

Lemma push_result_approved_mono results shot o e :
  e ∈ r_approved results -> e ∈ r_approved (push_result results shot o).
Proof.
  unfold push_result. destruct (status o); simpl; try done.
  intros H. apply elem_of_app. by left.
Qed.

Lemma push_result_approved results shot o :
  status o = approved -> (id shot, o) ∈ r_approved (push_result results shot o).
Proof.
  unfold push_result. intros ->. simpl. apply elem_of_app. right.
  by apply list_elem_of_singleton.
Qed.

Lemma push_result_no_image_mono results shot o :
  r_no_image results <> [] -> r_no_image (push_result results shot o) <> [].
Proof.
  unfold push_result. destruct (status o); simpl; try done.
  intros H. by destruct (r_no_image results).
Qed.

Lemma regen_outcome_writes shot ip vr st w r t p :
  regen_outcome shot ip vr st w r t ->
  p <> ip -> p <> promptPath shot -> writes_to p t = [].
Proof.
  inversion 1; subst; intros Hp1 Hp2; simpl; try done.
  by rewrite !bool_decide_eq_false_2 by done.
Qed.

Lemma body_outcome_writes shot ip vp ap (tts : JSON) skipRegen st w r t p :
  body_outcome shot ip vp ap tts skipRegen st w r t ->
  p <> ip -> p <> vp -> p <> promptPath shot -> writes_to p t = [].
Proof.
  intros Hb H1 H2 H3.
  inversion Hb as [e t' _ [->| ->]|vr w1 r' t' _ _ _ Hp]; subst;
    [done|done|].
  inversion Hp as [| | |st' t0 _ _ _ _ Hr|e t0 _ _ _ _ Hr]; subst; simpl;
    try (by rewrite bool_decide_eq_false_2 by done); [done|..].
  - by eapply regen_outcome_writes.
  - rewrite writes_to_app, (regen_outcome_writes _ _ _ _ _ _ _ _ Hr) by done.
    simpl. by rewrite bool_decide_eq_false_2 by done.
Qed.

Lemma loop_run_writes shot ip vp ap (tts : JSON) skipRegen st w r t p :
  loop_run shot ip vp ap tts skipRegen st w r t ->
  p <> ip -> p <> vp -> p <> promptPath shot -> writes_to p t = [].
Proof.
  induction 1 as [|st w o t Hc Hb|st w e t Hc Hb
                  |st w st' w' t r t' Hc Hb Hev Hr IH];
    intros H1 H2 H3;
    [done|by eapply body_outcome_writes|by eapply body_outcome_writes|].
  rewrite writes_to_app, (body_outcome_writes _ _ _ _ _ _ _ _ _ _ _ Hb),
    IH by done. done.
Qed.

(** [validateShot] never runs on, never returns [rejected], and writes
    only the three files of its shot. *)
Lemma validateShot_returns shot scriptData skipRegen w :
  exists r w' t,
    validateShot env root cfg shot scriptData skipRegen w = (r, w')
    /\ evolves t w w'
    /\ r <> Diverge
    /\ (forall o, r = Ok o ->
          status o <> rejected
          /\ (status o = no_image <-> path_exists w (imagePath_of shot) = false))
    /\ forall p, p ∉ shot_files shot -> writes_to p t = [].
Proof.
  pose proof (validateShot_not_diverge shot scriptData skipRegen w) as Hnd.
  destruct (validateShot_spec shot scriptData skipRegen w)
    as (r & w' & t & E & Ev & Ho).
  rewrite E in Hnd. simpl in Hnd.
  exists r, w', t. split_and!; [done|done|done|..].
  - intros o Hr. subst r.
    destruct (validateShot_status _ _ _ _ _ _ E) as [Hs Hn]. split; [|done].
    intros Hrej. rewrite Hrej in Hs. destruct Hs as [?|[?|[?|?]]]; done.
  - intros p Hp. unfold shot_files in Hp.
    inversion Ho as [| | | |pd tts r0 t' _ _ _ _ Hr]; subst; try done.
    eapply loop_run_writes; [exact Hr|..]; intros ->; apply Hp;
      [apply list_elem_of_here|apply list_elem_of_further, list_elem_of_here
      |do 2 apply list_elem_of_further; apply list_elem_of_here].
Qed.

Lemma validate_shots_spec scriptData skipRegen shots results w :
  exists r w' t,
    validate_shots env root cfg scriptData skipRegen shots results w = (r, w')
    /\ evolves t w w'
    /\ r <> Diverge
    /\ forall results', r = Ok results' ->
         bucket_total results' = bucket_total results + length shots
         /\ r_rejected results' = r_rejected results
         /\ (forall e, e ∈ r_approved results -> e ∈ r_approved results')
         /\ (r_no_image results <> [] -> r_no_image results' <> []).
Proof.
  revert results w. induction shots as [|shot rest IH]; intros results w.
  - exists (Ok results), w, []. simpl.
    split_and!; [done|apply evolves_refl|done|].
    intros ? [= <-]. split_and!; [lia|done|done|done].
  - simpl.
    destruct (validateShot_returns shot scriptData skipRegen w)
      as (r1 & w1 & t1 & E & Ev1 & Hnd & Hs & _).
    rewrite bind_run, E. destruct r1 as [o|e|]; [| |done].
    2:{ eexists _, _, _. split_and!; [reflexivity|exact Ev1|done|done]. }
    destruct (Hs o eq_refl) as [Hrej _].
    destruct (IH (push_result results shot o) w1)
      as (r & w' & t2 & E' & Ev2 & Hnd' & Hres).
    exists r, w', (t1 ++ t2).
    split_and!; [done|by eapply evolves_trans|done|].
    intros results' Hr. destruct (Hres results' Hr) as (Ht & Hr' & Ha & Hn).
    split_and!.
    + rewrite Ht, push_result_total. lia.
    + by rewrite Hr', push_result_rejected.
    + intros e He. by apply Ha, push_result_approved_mono.
    + intros He. by apply Hn, push_result_no_image_mono.
Qed.

(** The loop over the shots returns when [validateShot] returns on each
    of them. *)
Lemma validate_shots_returns_ok scriptData skipRegen shots results w r w' :
  validate_shots env root cfg scriptData skipRegen shots results w = (r, w') ->
  Forall (fun s => exists tts,
            getTtsContextForShot env (id s) scriptData = inr tts) shots ->
  replies_loggable env -> exists results', r = Ok results'.
Proof.
  revert results w. induction shots as [|shot rest IH]; intros results w.
  - intros [= <- <-] _ _. by eexists.
  - simpl. rewrite bind_run.
    destruct (validateShot env root cfg shot scriptData skipRegen w)
      as [r1 w1] eqn:E1.
    intros E Hall Hlog. apply Forall_cons_1 in Hall as [Hs Hall].
    destruct (validateShot_returns_ok _ _ _ _ _ _ E1 Hs Hlog) as [o ->].
    by eapply IH.
Qed.

(** The buckets are the outcomes of the shots, pushed in order. *)
Lemma validate_shots_run scriptData skipRegen shots results w results' w' :
  validate_shots env root cfg scriptData skipRegen shots results w
  = (Ok results', w') ->
  exists outcomes,
    shots_run env root cfg scriptData skipRegen shots w outcomes w'
    /\ length outcomes = length shots
    /\ results' = push_results results (zip shots outcomes).
Proof.
  revert results w. induction shots as [|shot rest IH]; intros results w.
  - simpl. intros [= <- <-]. exists []. split_and!; [constructor|done|done].
  - simpl. rewrite bind_run.
    destruct (validateShot env root cfg shot scriptData skipRegen w)
      as [[o|e|] w1] eqn:E; [|done|done].
    intros E'. destruct (IH _ _ E') as (outcomes & Hrun & Hlen & ->).
    exists (o :: outcomes). split_and!; [by econstructor|simpl; lia|done].
Qed.

Lemma count_status_cons s o outcomes :
  count_status s (o :: outcomes)
  = (if decide (status o = s) then 1 else 0) + count_status s outcomes.
Proof.
  unfold count_status. rewrite filter_cons. by destruct (decide _).
Qed.

Lemma push_results_counts results l :
  length (r_approved (push_results results l))
  = length (r_approved results) + count_status approved l.*2
  /\ length (r_flagged (push_results results l))
     = length (r_flagged results) + count_status flagged l.*2
  /\ length (r_rejected (push_results results l))
     = length (r_rejected results) + count_status rejected l.*2
  /\ length (r_no_image (push_results results l))
     = length (r_no_image results) + count_status no_image l.*2
  /\ length (r_errors (push_results results l))
     = length (r_errors results) + count_status error l.*2.
Proof.
  revert results. induction l as [|[shot o] l IH]; intros results.
  - unfold count_status. simpl. by rewrite !Nat.add_0_r.
  - destruct (IH (push_result results shot o)) as (Ha & Hf & Hr & Hn & He).
    rewrite fmap_cons. cbn [push_results foldl fst snd].
    fold (push_results (push_result results shot o) l).
    rewrite Ha, Hf, Hr, Hn, He, !count_status_cons.
    generalize (l.*2). intros l2.
    unfold push_result. destruct (status o); simpl;
      rewrite ?length_app; simpl; repeat case_decide; try done; lia.
Qed.

(** Every outcome has one of the five statuses, so the five counts add up
    to the number of outcomes. *)
Lemma count_status_total outcomes :
  count_status approved outcomes + count_status flagged outcomes
  + count_status rejected outcomes + count_status no_image outcomes
  + count_status error outcomes = length outcomes.
Proof.
  induction outcomes as [|o l IH]; [done|].
  rewrite !count_status_cons. simpl.
  destruct (status o); repeat case_decide; try done; lia.
Qed.

Lemma shots_run_length scriptData skipRegen shots w outcomes w' :
  shots_run env root cfg scriptData skipRegen shots w outcomes w' ->
  length outcomes = length shots.
Proof. induction 1; simpl; congruence. Qed.

Lemma shots_run_not_rejected scriptData skipRegen shots w outcomes w' :
  shots_run env root cfg scriptData skipRegen shots w outcomes w' ->
  count_status rejected outcomes = 0.
Proof.
  induction 1 as [|shot rest w o w1 outcomes w' E Hr IH]; [done|].
  rewrite count_status_cons, IH.
  destruct (validateShot_returns shot scriptData skipRegen w)
    as (r & w2 & t & E2 & _ & _ & Hs & _).
  rewrite E in E2. injection E2 as <- <-.
  destruct (Hs o eq_refl) as [Hrej _]. by case_decide.
Qed.

(** With the counts adding up to the number of shots and nothing in the
    rejected bucket, the flag of the summary is the three-part formula. *)
Lemma generateValidationSummary_ready name results total :
  bucket_total results = total -> r_rejected results = [] ->
  ready_for_assembly (generateValidationSummary name results total)
  = (length (r_approved results) =? total)
    && (length (r_flagged results) =? 0)
    && (length (r_errors results) =? 0).
Proof.
  unfold bucket_total, generateValidationSummary. simpl.
  intros Ht Hr. rewrite Hr in *. simpl in *.
  destruct (length (r_flagged results)) as [|f] eqn:Ef;
    destruct (length (r_errors results)) as [|e] eqn:Ee;
    destruct (length (r_no_image results)) as [|n] eqn:En; simpl;
    rewrite ?andb_false_r, ?andb_true_r; try done.
  symmetry. apply Nat.eqb_neq. lia.
Qed.

(** ** validateExercise *)

Lemma collect_shots_run shotsDir entries w :
  collect_shots shotsDir entries w
  = (Ok (shot_folders_of w shotsDir entries), w).
Proof.
  unfold shot_folders_of.
  induction entries as [|[name isDirectory] rest IH]; [done|].
  simpl. destruct isDirectory.
  - rewrite bind_run, attempt_run, fs_access_run.
    destruct (path_exists w _) eqn:Ep.
    + rewrite filter_cons_True
        by (unfold is_shot_entry, shot_folder; simpl; by rewrite Ep).
      rewrite bind_run, IH. done.
    + rewrite filter_cons_False
        by (unfold is_shot_entry, shot_folder; simpl; by rewrite Ep).
      rewrite bind_run, IH. done.
  - rewrite filter_cons_False by (by unfold is_shot_entry).
    done.
Qed.

Lemma getShotFolders_run exerciseDir w :
  getShotFolders env exerciseDir w
  = (if path_exists w (path_join exerciseDir "shots") then
       match dirs w !! path_join exerciseDir "shots" with
       | Some entries =>
           Ok (sort_by (fun a b => localeCompare env (id a) (id b))
                 (shot_folders_of w (path_join exerciseDir "shots")
                    (map_to_list entries)))
       | None =>
           Throw (Error ("ENOTDIR: not a directory, scandir "
                           +:+ show_path (path_join exerciseDir "shots")))
       end
     else Ok [], w).
Proof.
  unfold getShotFolders.
  rewrite bind_run, attempt_run, fs_access_run.
  destruct (path_exists w _); [|done].
  rewrite bind_run. unfold fs_readdir.
  destruct (dirs w !! _) as [entries|]; [|done].
  by rewrite bind_run, collect_shots_run.
Qed.

Lemma loadScriptJson_run exerciseDir w :
  loadScriptJson exerciseDir w = (Ok (script_of w exerciseDir), w).
Proof.
  unfold loadScriptJson, script_of. rewrite try_catch_run, bind_run.
  unfold fs_readFile.
  destruct (fs w !! path_join exerciseDir "script.json") as [f|]; [|done].
  unfold parse_file. simpl. by destruct (as_script f).
Qed.

Lemma validateExercise_unfold name skipRegen w :
  validateExercise env root cfg name skipRegen w
  = if path_exists w (path_join (videoScriptsDir cfg) name) then
      match (getShotFolders env (path_join (videoScriptsDir cfg) name) w).1
      with
      | Ok shots =>
          if length shots =? 0 then
            (Throw (Error ("No shots found in: "
                             +:+ show_path
                                   (path_join (videoScriptsDir cfg) name)
                             +:+ "/shots/")), w)
          else
            (results ← validate_shots env root cfg
                         (script_of w (path_join (videoScriptsDir cfg) name))
                         skipRegen shots empty_results;
             fs_writeFile
               (path_join (path_join (videoScriptsDir cfg) name)
                  "validation-summary.json")
               (SummaryJson
                  (generateValidationSummary name results (length shots)));;
             mret (results,
                   generateValidationSummary name results (length shots))) w
      | Throw e => (Throw e, w)
      | Diverge => (Diverge, w)
      end
    else (Throw (Error ("Exercise not found: " +:+ name)), w).
Proof.
  unfold validateExercise.
  rewrite bind_run, attempt_run, fs_access_run.
  destruct (path_exists w _); [|done].
  rewrite bind_run, loadScriptJson_run, bind_run, getShotFolders_run.
  destruct (path_exists w _); simpl; [|done].
  destruct (dirs w !! _); simpl; [|done].
  by destruct (length _ =? 0).
Qed.

(** A run of [validateExercise] that returns: the exercise directory is
    there, it has shots, each of them was validated, and the summary of
    the outcomes was written. *)
Lemma validateExercise_inv name skipRegen w results summary w' :
  validateExercise env root cfg name skipRegen w = (Ok (results, summary), w')
  -> exists shots w2,
       shots <> []
       /\ path_exists w (path_join (videoScriptsDir cfg) name) = true
       /\ getShotFolders env (path_join (videoScriptsDir cfg) name) w
          = (Ok shots, w)
       /\ validate_shots env root cfg
            (script_of w (path_join (videoScriptsDir cfg) name)) skipRegen
            shots empty_results w = (Ok results, w2)
       /\ summary = generateValidationSummary name results (length shots)
       /\ fs_writeFile (path_join (path_join (videoScriptsDir cfg) name)
                          "validation-summary.json") (SummaryJson summary) w2
          = (Ok tt, w').
Proof.
  rewrite validateExercise_unfold.
  destruct (path_exists w _) eqn:Ep; [|done].
  pose proof (getShotFolders_run (path_join (videoScriptsDir cfg) name) w)
    as Hg.
  destruct (getShotFolders env _ w) as [[shots|e|] w1] eqn:Eg; simpl;
    [|done|done].
  assert (w1 = w) as ->.
  { revert Hg. destruct (path_exists w _); [|congruence].
    destruct (dirs w !! _); congruence. }
  destruct (length shots =? 0) eqn:El; [done|].
  rewrite bind_run.
  destruct (validate_shots env root cfg _ skipRegen shots empty_results w)
    as [[res|e|] w2] eqn:Ev; [|done|done].
  rewrite bind_run.
  destruct (fs_writeFile_run
              (path_join (path_join (videoScriptsDir cfg) name)
                 "validation-summary.json")
              (SummaryJson (generateValidationSummary name res (length shots)))
              w2) as (w3 & E3 & _).
  rewrite E3. intros [= <- <- <-].
  exists shots, w2. split_and!; try done.
  intros ->. done.
Qed.

(** C6.  The flag computed for an exercise is
    [(approved == total) && flagged == 0 && errors == 0], where [total] is
    the number of shots of the exercise and the counts are the numbers of
    outcomes [validateShot] returned for these shots with the status
    approved, flagged and error: the counts of the summary are these
    numbers, and the flag is a function of the statuses of the per-shot
    outcomes alone. *)
Theorem ready_for_assembly_formula name skipRegen w results summary w' :
  validateExercise env root cfg name skipRegen w = (Ok (results, summary), w')
  -> exists shots outcomes w2,
       getShotFolders env (path_join (videoScriptsDir cfg) name) w
       = (Ok shots, w)
       /\ shots_run env root cfg
            (script_of w (path_join (videoScriptsDir cfg) name)) skipRegen
            shots w outcomes w2
       /\ length outcomes = length shots
       /\ total_shots summary = length shots
       /\ c_approved (counts summary) = count_status approved outcomes
       /\ c_flagged (counts summary) = count_status flagged outcomes
       /\ c_rejected (counts summary) = count_status rejected outcomes
       /\ c_no_image (counts summary) = count_status no_image outcomes
       /\ c_errors (counts summary) = count_status error outcomes
       /\ ready_for_assembly summary
          = (count_status approved outcomes =? length shots)
            && (count_status flagged outcomes =? 0)
            && (count_status error outcomes =? 0)
       /\ results = push_results empty_results (zip shots outcomes).
Proof.
  intros E.
  destruct (validateExercise_inv _ _ _ _ _ _ E)
    as (shots & w2 & Hne & _ & Hg & Ev & -> & _).
  destruct (validate_shots_run _ _ _ _ _ _ _ Ev) as (outcomes & Hrun & Hlen & ->).
  exists shots, outcomes, w2.
  destruct (push_results_counts empty_results (zip shots outcomes))
    as (Ha & Hf & Hr & Hn & Her).
  rewrite snd_zip in Ha, Hf, Hr, Hn, Her by lia. simpl in *.
  pose proof (count_status_total outcomes) as Htot.
  pose proof (shots_run_not_rejected _ _ _ _ _ _ Hrun) as Hrej.
  split_and!; try done.
  rewrite Ha, Hf, Hr, Hn, Her, Hrej. simpl.
  destruct (count_status flagged outcomes) as [|f];
    destruct (count_status error outcomes) as [|e];
    destruct (count_status no_image outcomes) as [|n]; simpl;
    rewrite ?andb_false_r, ?andb_true_r; try done.
  symmetry. apply Nat.eqb_neq. lia.
Qed.

(** ** Batches *)

Lemma config_available_evolves t w w' :
  evolves t w w' -> writes_to (promptsPath root) t = [] ->
  config_available w -> config_available w'.
Proof.
  intros [_ Hf _ Hc] Hw [Hs|[c Hfile]].
  - left. destruct Hc as [->|[_ ?]]; done.
  - right. exists c. by rewrite Hf, apply_writes_lookup_other.
Qed.

(** A shot that is validated after another one is approved when the judge
    passes its image with a confidence: the shot before it touched none
    of its files. *)
Lemma next_shot_approved scriptData skipRegen A B w oA wA pdB tts vr :
  validateShot env root cfg A scriptData skipRegen w = (Ok oA, wA) ->
  Forall (fun p => p ∉ shot_files A)
    [imagePath_of B; promptPath B; root ++ anchor_image pdB;
     promptsPath root] ->
  is_Some (fs w !! imagePath_of B) ->
  fs w !! promptPath B = Some (PromptJson pdB) ->
  is_Some (fs w !! (root ++ anchor_image pdB)) ->
  config_available w ->
  default 0 (validation_iteration pdB) <= maxIterations cfg ->
  getTtsContextForShot env (id B) scriptData = inr tts ->
  judge_result (vision_reply env (count_ev is_vision (trace wA))) = Ok vr ->
  overall_pass vr = true ->
  toFixed (confidence vr) = inr tt ->
  exists oB wB,
    validateShot env root cfg B scriptData skipRegen wA = (Ok oB, wB)
    /\ status oB = approved.
Proof.
  intros EA Hdis Hi Hp Ha Hc Hle Htts Hj Hpass Hfix.
  destruct (validateShot_returns A scriptData skipRegen w)
    as (rA & wA' & tA & EA' & EvA & _ & _ & Hframe).
  rewrite EA in EA'. injection EA' as <- <-.
  apply Forall_cons in Hdis as [Hd1 Hdis].
  apply Forall_cons in Hdis as [Hd2 Hdis].
  apply Forall_cons in Hdis as [Hd3 Hdis].
  apply Forall_cons in Hdis as [Hd4 _].
  assert (forall p, p ∉ shot_files A -> fs wA !! p = fs w !! p) as Hsame.
  { intros p Hn. destruct EvA as [_ -> _ _].
    by apply apply_writes_lookup_other, Hframe. }
  destruct (validateImage_called (imagePath_of B) (root ++ anchor_image pdB)
              (engineered_prompt pdB) tts wA)
    as (w1 & _ & _ & E1).
  { eapply config_available_evolves; [exact EvA|by apply Hframe|done]. }
  { by rewrite Hsame. }
  { by rewrite Hsame. }
  rewrite Hj in E1.
  destruct (first_pass_approved B scriptData skipRegen wA pdB tts vr w1)
    as (oB & wB & vd & EB & Hs & _); [by rewrite Hsame|done..|].
  by exists oB, wB.
Qed.

Lemma terminates_ret {A} (a : A) : terminates (mret a).
Proof. by intros w. Qed.

Lemma terminates_throw {A} e : terminates (@throw A e).
Proof. by intros w. Qed.

Lemma terminates_bind {A B} (m : M A) (f : A -> M B) :
  terminates m -> (forall a, terminates (f a)) -> terminates (m ≫= f).
Proof.
  intros Hm Hf w. rewrite bind_run. specialize (Hm w).
  destruct (m w) as [[a|e|] w1]; [apply Hf|done|done].
Qed.

Lemma terminates_try_catch {A} (m : M A) h :
  terminates m -> (forall e, terminates (h e)) -> terminates (try_catch m h).
Proof.
  intros Hm Hh w. rewrite try_catch_run. specialize (Hm w).
  destruct (m w) as [[a|e|] w1]; [done|apply Hh|done].
Qed.

Lemma terminates_attempt {A} (m : M A) : terminates m -> terminates (attempt m).
Proof.
  intros Hm w. rewrite attempt_run. specialize (Hm w).
  by destruct (m w) as [[a|e|] w1].
Qed.

Lemma terminates_fs_access p : terminates (fs_access p).
Proof. intros w. rewrite fs_access_run. by destruct (path_exists w p). Qed.

Lemma terminates_fs_readFile p : terminates (fs_readFile p).
Proof. intros w. unfold fs_readFile. by destruct (fs w !! p). Qed.

Lemma terminates_fs_readdir p : terminates (fs_readdir p).
Proof. intros w. unfold fs_readdir. by destruct (dirs w !! p). Qed.

Lemma terminates_fs_writeFile p f : terminates (fs_writeFile p f).
Proof. by intros w. Qed.

Lemma terminates_parse_file {A} (pick : File -> option A) f :
  terminates (parse_file pick f).
Proof. intros w. unfold parse_file. by destruct (pick f). Qed.

Lemma terminates_collect_shots shotsDir entries :
  terminates (collect_shots shotsDir entries).
Proof.
  induction entries as [|[name isDir] rest IH]; simpl;
    [apply terminates_ret|].
  destruct isDir; [|done].
  apply terminates_bind; [apply terminates_attempt, terminates_fs_access|].
  intros r. apply terminates_bind; [done|].
  intros l. destruct r; apply terminates_ret.
Qed.

Lemma terminates_validate_shots scriptData skipRegen shots results :
  terminates (validate_shots env root cfg scriptData skipRegen shots results).
Proof.
  intros w.
  destruct (validate_shots_spec scriptData skipRegen shots results w)
    as (r & w' & t & -> & _ & Hnd & _). done.
Qed.

Lemma terminates_validateExercise name skipRegen :
  terminates (validateExercise env root cfg name skipRegen).
Proof.
  unfold validateExercise.
  apply terminates_bind; [apply terminates_attempt, terminates_fs_access|].
  intros [e|[]]; [apply terminates_throw|].
  apply terminates_bind.
  { apply terminates_try_catch; [|intros; apply terminates_ret].
    apply terminates_bind; [apply terminates_fs_readFile|].
    intros f. apply terminates_parse_file. }
  intros sd. apply terminates_bind.
  { unfold getShotFolders.
    apply terminates_bind; [apply terminates_attempt, terminates_fs_access|].
    intros [e|[]]; [apply terminates_ret|].
    apply terminates_bind; [apply terminates_fs_readdir|].
    intros entries.
    apply terminates_bind; [apply terminates_collect_shots|].
    intros l. apply terminates_ret. }
  intros shots. destruct (length shots =? 0); [apply terminates_throw|].
  apply terminates_bind; [apply terminates_validate_shots|].
  intros res. apply terminates_bind; [apply terminates_fs_writeFile|].
  intros []. apply terminates_ret.
Qed.

Lemma run_exercises_spec skipRegen exercises allResults w :
  exists allResults' w',
    run_exercises env root cfg skipRegen exercises allResults w
    = (Ok allResults', w')
    /\ map er_exercise allResults' = map er_exercise allResults ++ exercises.
Proof.
  revert allResults w.
  induction exercises as [|exercise rest IH]; intros allResults w; simpl.
  - exists allResults, w. by rewrite app_nil_r.
  - rewrite bind_run, attempt_run.
    pose proof (terminates_validateExercise exercise skipRegen w) as Ht.
    destruct (validateExercise env root cfg exercise skipRegen w)
      as [[[res summary]|e|] w1]; [| |done].
    + destruct (IH (allResults ++ [{| er_exercise := exercise;
                                      er_outcome := inr summary |}]) w1)
        as (all' & w' & E & Hm).
      exists all', w'. split; [done|].
      by rewrite Hm, map_app, <- app_assoc.
    + destruct (IH (allResults ++ [{| er_exercise := exercise;
                                      er_outcome := inl (message e) |}]) w1)
        as (all' & w' & E & Hm).
      exists all', w'. split; [done|].
      by rewrite Hm, map_app, <- app_assoc.
Qed.

Lemma main_exit_code process w code allResults w' :
  main env root cfg process w = (Ok (code, allResults), w') ->
  (code = 1 /\ allResults = [])
  \/ (code = exit_code allResults
      /\ exists skipRegen exercises w0,
           exercises <> []
           /\ run_exercises env root cfg skipRegen exercises [] w0
              = (Ok allResults, w')).
Proof.
  unfold main.
  destruct (negb (truthy (find _ (drop 2 (argv process)))) && _);
    [intros [= <- <- <-]; by left|].
  destruct (negb (truthy (FAL_KEY process)));
    [intros [= <- <- <-]; by left|].
  destruct (negb (truthy (ANTHROPIC_API_KEY process)));
    [intros [= <- <- <-]; by left|].
  rewrite bind_run, attempt_run, fs_access_run.
  destruct (path_exists w (videoScriptsDir cfg));
    [|intros [= <- <- <-]; by left].
  destruct (bool_decide ("--all" ∈ drop 2 (argv process))).
  - rewrite bind_run. unfold fs_readdir.
    destruct (dirs w !! videoScriptsDir cfg) as [entries|]; [|done].
    destruct (length _ =? 0) eqn:El; [intros [= <- <- <-]; by left|].
    rewrite bind_run.
    destruct (run_exercises env root cfg _ _ [] w) as [[all| |] w1] eqn:E;
      [|done|done].
    intros [= <- <- <-]. right. split; [done|].
    eexists _, _, w. split; [|exact E].
    intros Hn. by rewrite Hn in El.
  - rewrite bind_run.
    destruct (run_exercises env root cfg _ _ [] w) as [[all| |] w1] eqn:E;
      [|done|done].
    intros [= <- <- <-]. right. split; [done|].
    eexists _, _, w. split; [|exact E]. done.
Qed.

Lemma total_of_zero (f : Counts -> nat) allResults :
  Forall (fun r => exists s, er_outcome r = inr s /\ f (counts s) = 0)
    allResults ->
  total_of f allResults = 0.
Proof.
  unfold total_of.
  assert (forall acc,
            Forall (fun r => exists s, er_outcome r = inr s
                                       /\ f (counts s) = 0) allResults ->
            foldl (fun acc r => match er_outcome r with
                                | inr summary => acc + f (counts summary)
                                | inl _ => acc
                                end) acc allResults = acc) as H.
  { induction allResults as [|r l IH]; intros acc Hall; [done|].
    apply Forall_cons in Hall as [(s & Hs & H0) Hall]. simpl.
    rewrite Hs, H0, Nat.add_0_r. by apply IH. }
  apply H.
Qed.

(** C10.  A shot whose folder has no image.png gets the outcome
    [no_image] without any call to the judge, the refiner or the generator
    (the world is unchanged).  In [validateExercise] the outcome goes into
    the no_image bucket, the loop goes on with the next shot, and the
    summary of the buckets the loop returns has [ready_for_assembly]
    false.  The exit code of [main] depends only on the flagged and error
    counts and on exercises that failed: a batch whose exercises all
    succeeded without flagged or error shots exits with 0, however many
    shots had no image. *)
Theorem missing_image_outcome :
  (forall shot scriptData skipRegen w,
     path_exists w (imagePath_of shot) = false ->
     validateShot env root cfg shot scriptData skipRegen w
     = (Ok {| status := no_image;
              o_message := Some "No image.png found in shot folder";
              validation := None |}, w))
  /\ (forall scriptData skipRegen shot rest results w name total,
        path_exists w (imagePath_of shot) = false ->
        exists r w',
          validate_shots env root cfg scriptData skipRegen (shot :: rest)
            results w = (r, w')
          /\ validate_shots env root cfg scriptData skipRegen rest
               (push_result results shot
                  {| status := no_image;
                     o_message := Some "No image.png found in shot folder";
                     validation := None |}) w = (r, w')
          /\ r <> Diverge
          /\ (Forall (fun s => exists tts,
                        getTtsContextForShot env (id s) scriptData = inr tts)
                rest ->
              replies_loggable env -> exists results', r = Ok results')
          /\ forall results', r = Ok results' ->
               r_no_image results' <> []
               /\ ready_for_assembly
                    (generateValidationSummary name results' total) = false)
  /\ (forall allResults,
        Forall (fun r => exists s, er_outcome r = inr s
                                   /\ c_flagged (counts s) = 0
                                   /\ c_errors (counts s) = 0) allResults ->
        exit_code allResults = 0).
Proof.
  assert (forall shot scriptData skipRegen w,
            path_exists w (imagePath_of shot) = false ->
            validateShot env root cfg shot scriptData skipRegen w
            = (Ok {| status := no_image;
                     o_message := Some "No image.png found in shot folder";
                     validation := None |}, w)) as Hno.
  { intros shot scriptData skipRegen w Hi.
    unfold validateShot, validateShot_fuel.
    fold (imagePath_of shot).
    by rewrite bind_run, attempt_run, fs_access_run, Hi. }
  split_and!; [exact Hno| |].
  - intros scriptData skipRegen shot rest results w name total Hi.
    simpl. rewrite bind_run, (Hno _ _ _ _ Hi).
    destruct (validate_shots_spec scriptData skipRegen rest
                (push_result results shot
                   {| status := no_image;
                      o_message := Some "No image.png found in shot folder";
                      validation := None |}) w)
      as (r & w' & t & E & _ & Hnd & Hres).
    exists r, w'.
    split_and!;
      [done|done|done|exact (validate_shots_returns_ok _ _ _ _ _ _ _ E)|].
    intros results' Hr. destruct (Hres results' Hr) as (_ & _ & _ & Hn).
    assert (r_no_image results' <> []) as Hne.
    { apply Hn. unfold push_result. simpl. by destruct (r_no_image results). }
    split; [done|].
    unfold generateValidationSummary. simpl.
    destruct (r_no_image results') as [|x l] eqn:En; [done|].
    simpl. by rewrite andb_false_r.
  - intros allResults Hall. unfold exit_code.
    rewrite !total_of_zero.
    + simpl. replace (existsb _ allResults) with false; [done|].
      symmetry. apply not_true_iff_false. intros He.
      apply existsb_exists in He as (r & Hin & Hr).
      rewrite Forall_forall in Hall.
      destruct (Hall r) as (s & Hs & _); [by apply list_elem_of_In|].
      unfold er_success in Hr. by rewrite Hs in Hr.
    + eapply Forall_impl; [exact Hall|]. intros r (s & Hs & _ & He). eauto.
    + eapply Forall_impl; [exact Hall|]. intros r (s & Hs & Hf & _). eauto.
Qed.

End Specs.

(** * Further properties of the validator and of the validation script *)

Section More.

Context (env : Env) (root : path) (cfg : Config).

(** ** vision-validator.js *)

Lemma loadPromptsConfig_run w :
  loadPromptsConfig root w =
  match PROMPTS_CONFIG w with
  | Some c => (Ok c, w)
  | None =>
      match fs w !! promptsPath root with
      | Some f =>
          match as_config f with
          | Some c => (Ok c, set_PROMPTS_CONFIG (Some c) w)
          | None => (Throw (SyntaxError "Unexpected token in JSON"), w)
          end
      | None =>
          (Throw (Error ("ENOENT: no such file or directory, open "
                           +:+ show_path (promptsPath root))), w)
      end
  end.
Proof.
  unfold loadPromptsConfig. rewrite get_world_bind.
  destruct (PROMPTS_CONFIG w) as [c|]; [done|].
  rewrite bind_run. unfold fs_readFile.
  destruct (fs w !! promptsPath root) as [f|]; [|done].
  rewrite bind_run. unfold parse_file.
  by destruct (as_config f).
Qed.

(** X1.  [loadPromptsConfig] reads the configuration file once: after a
    load that succeeded, every later load returns the same configuration
    and leaves the world alone, whatever has become of the files in the
    meantime. *)
Theorem loadPromptsConfig_reads_once w c w1 :
  loadPromptsConfig root w = (Ok c, w1) ->
  PROMPTS_CONFIG w1 = Some c
  /\ forall w2, PROMPTS_CONFIG w2 = PROMPTS_CONFIG w1 ->
       loadPromptsConfig root w2 = (Ok c, w2).
Proof.
  rewrite loadPromptsConfig_run. intros H.
  assert (PROMPTS_CONFIG w1 = Some c) as Hc.
  { destruct (PROMPTS_CONFIG w) as [c'|] eqn:E; [by simplify_eq|].
    destruct (fs w !! promptsPath root) as [f|]; [|done].
    destruct (as_config f); by simplify_eq. }
  split; [done|].
  intros w2 E2. rewrite loadPromptsConfig_run, E2, Hc. done.
Qed.





(** X3.  [validateImage] reads both images before it calls the judge: when
    the generated image or the anchor cannot be read it raises, and no
    request has been made. *)
Theorem validateImage_reads_before_calling ip ap p (tts : JSON) w :
  fs w !! ip = None \/ fs w !! ap = None ->
  exists e w',
    validateImage env root ip ap p tts w = (Throw e, w')
    /\ trace w' = trace w /\ fs w' = fs w.
Proof.
  intros Hmiss.
  destruct (validateImage_spec env root ip ap p tts w)
    as (r & w' & t & E & Ev & Hd & Ht & Hok).
  destruct r as [vr|e|]; [|..|done].
  - destruct (Hok vr eq_refl) as (_ & _ & [f Hf] & [g Hg] & _).
    destruct Hmiss; congruence.
  - exists e, w'. split; [done|].
    unfold validateImage in E.
    rewrite bind_run, loadPromptsConfig_run in E.
    assert (forall w0 : World, fs w0 = fs w -> trace w0 = trace w ->
      forall k : M ValidationResult,
      (generatedBase64 ← fileToBase64 ip;
       anchorBase64 ← fileToBase64 ap; k) w0 = (Throw e, w') ->
      trace w' = trace w /\ fs w' = fs w) as Hrest.
    { intros w0 Hf0 Ht0 k. rewrite bind_run. unfold fileToBase64, fs_readFile.
      rewrite Hf0.
      destruct (fs w !! ip) as [f|] eqn:Ei.
      - rewrite bind_run. rewrite Hf0.
        destruct Hmiss as [|Ha]; [done|]. rewrite Ha.
        intros [= <- <-]. done.
      - intros [= <- <-]. done. }
    destruct (PROMPTS_CONFIG w) as [c|].
    + eapply Hrest; [..|exact E]; done.
    + destruct (fs w !! promptsPath root) as [f|].
      * destruct (as_config f) as [c|].
        -- eapply Hrest; [..|exact E]; done.
        -- by simplify_eq.
      * by simplify_eq.
Qed.


(** ** The validation loop: what a run calls and writes *)

Ltac count_evs :=
  repeat (rewrite ?count_ev_app, ?count_ev_cons, ?count_ev_nil);
  unfold refine_event, vision_event; simpl.

Lemma evolves_lookup t w w' p :
  evolves t w w' -> writes_to p t = [] -> fs w' !! p = fs w !! p.
Proof. intros [_ -> _ _] Hw. by apply apply_writes_lookup_other. Qed.

Lemma regen_outcome_calls shot ip vr st w r t :
  regen_outcome env root shot ip vr st w r t ->
  count_ev is_refine t <= 1 /\ count_ev is_edit t <= 1
  /\ count_ev is_fetch t <= 1.
Proof. inversion 1; subst; count_evs; lia. Qed.

(** The calls of one pass: none but the judge's when the pass may not
    regenerate. *)
Lemma body_outcome_calls shot ip vp ap (tts : JSON) skipRegen st w r t :
  body_outcome env root cfg shot ip vp ap tts skipRegen st w r t ->
  count_ev is_refine t <= 1 /\ count_ev is_edit t <= 1
  /\ count_ev is_fetch t <= 1
  /\ (skipRegen = true \/ maxIterations cfg <= iteration st ->
      count_ev is_refine t = 0 /\ count_ev is_edit t = 0
      /\ count_ev is_fetch t = 0).
Proof.
  inversion 1 as [e t' _ [->| ->]|vr w1 r' t' _ _ _ Hp]; subst.
  - count_evs. lia.
  - count_evs. lia.
  - inversion Hp as [| | |st' t0 _ _ Hs Hi Hr|e t0 _ _ Hs Hi Hr]; subst.
    + count_evs. lia.
    + count_evs. lia.
    + count_evs. lia.
    + apply regen_outcome_calls in Hr. count_evs.
      split_and!; [lia..|]. intros [?|?]; [done|lia].
    + apply regen_outcome_calls in Hr. count_evs.
      split_and!; [lia..|]. intros [?|?]; [done|lia].
Qed.

(** A pass that does not go on writes validation.json at most. *)
Lemma body_return_writes shot ip vp ap (tts : JSON) skipRegen st w r t p :
  body_outcome env root cfg shot ip vp ap tts skipRegen st w r t ->
  (forall st', r <> Ok (Continue st')) ->
  p <> vp -> writes_to p t = [].
Proof.
  intros Hb Hr Hne.
  inversion Hb as [e t' _ [->| ->]|vr w1 r' t' _ _ _ Hp]; subst; [done..|].
  inversion Hp as [| | |st' t0|e t0 _ _ _ _ Hreg]; subst; simpl;
    try (by rewrite bool_decide_eq_false_2 by done);
    [done|by destruct (Hr st')|].
  rewrite writes_to_app, (regen_failed_no_writes _ _ _ _ _ _ _ _ _ Hreg).
  simpl. by rewrite bool_decide_eq_false_2 by done.
Qed.

Lemma loop_run_calls shot ip vp ap (tts : JSON) skipRegen st w r t :
  loop_run env root cfg shot ip vp ap tts skipRegen st w r t ->
  count_ev is_refine t <= maxIterations cfg - iteration st
  /\ count_ev is_edit t <= maxIterations cfg - iteration st
  /\ count_ev is_fetch t <= maxIterations cfg - iteration st.
Proof.
  induction 1 as [st w Hc|st w o t Hc Hb|st w e t Hc Hb
                  |st w st' w' t r t' Hc Hb Hev Hr IH].
  - count_evs. lia.
  - apply body_outcome_calls in Hb as (? & ? & ? & Hz).
    destruct (decide (maxIterations cfg <= iteration st)) as [Hm|Hm].
    + destruct Hz as (-> & -> & ->); [by right|lia].
    + lia.
  - apply body_outcome_calls in Hb as (? & ? & ? & Hz).
    destruct (decide (maxIterations cfg <= iteration st)) as [Hm|Hm].
    + destruct Hz as (-> & -> & ->); [by right|lia].
    + lia.
  - pose proof (body_outcome_calls _ _ _ _ _ _ _ _ _ _ Hb) as (? & ? & ? & _).
    destruct (body_continue_inv _ _ _ _ _ _ _ _ _ _ _ _ _ Hb)
      as (vr & w0 & _ & _ & _ & _ & Hi & -> & _).
    rewrite !count_ev_app. simpl in IH. lia.
Qed.

Lemma loop_run_skip shot ip vp ap (tts : JSON) st w r t :
  loop_run env root cfg shot ip vp ap tts true st w r t ->
  count_ev is_vision t <= 1 /\ count_ev is_refine t = 0
  /\ count_ev is_edit t = 0 /\ count_ev is_fetch t = 0
  /\ forall p, p <> vp -> writes_to p t = [].
Proof.
  inversion 1 as [st0 w0 Hc|st0 w0 o t0 Hc Hb|st0 w0 e t0 Hc Hb
                  |st0 w0 st' w' t0 r0 t' Hc Hb Hev Hr]; subst.
  - count_evs. split_and!; [lia|done..].
  - pose proof (body_outcome_vision _ _ _ _ _ _ _ _ _ _ _ _ _ Hb).
    destruct (body_outcome_calls _ _ _ _ _ _ _ _ _ _ Hb)
      as (_ & _ & _ & (? & ? & ?)); [by left|].
    split_and!; [done..|]. intros p Hp.
    by eapply body_return_writes.
  - pose proof (body_outcome_vision _ _ _ _ _ _ _ _ _ _ _ _ _ Hb).
    destruct (body_outcome_calls _ _ _ _ _ _ _ _ _ _ Hb)
      as (_ & _ & _ & (? & ? & ?)); [by left|].
    split_and!; [done..|]. intros p Hp.
    by eapply body_return_writes.
  - by destruct (body_continue_inv _ _ _ _ _ _ _ _ _ _ _ _ _ Hb)
      as (vr & w1 & _ & _ & _ & ? & _).
Qed.

(** X4.  With [--skip-regen], [validateShot] only validates: at most one
    call of the judge, no call of the refiner or of the generator, no
    download, and no file written other than validation.json; the image and
    prompt.json are never touched. *)
Theorem skip_regen_validates_only shot scriptData w :
  exists r w' t,
    validateShot env root cfg shot scriptData true w = (r, w')
    /\ r <> Diverge
    /\ ((exists tts, getTtsContextForShot env (id shot) scriptData = inr tts) ->
        replies_loggable env -> exists o, r = Ok o)
    /\ trace w' = trace w ++ t
    /\ count_ev is_vision t <= 1
    /\ count_ev is_refine t = 0
    /\ count_ev is_edit t = 0
    /\ count_ev is_fetch t = 0
    /\ forall p, p <> validationPath_of shot ->
         writes_to p t = [] /\ fs w' !! p = fs w !! p.
Proof.
  pose proof (validateShot_not_diverge env root cfg shot scriptData true w)
    as Hnd.
  destruct (validateShot_spec env root cfg shot scriptData true w)
    as (r & w' & t & E & Ev & Ho).
  rewrite E in Hnd. exists r, w', t. split; [done|]. split; [done|].
  split; [exact (validateShot_returns_ok env root cfg _ _ _ _ _ _ E)|].
  split; [by destruct Ev|].
  assert (count_ev is_vision t <= 1 /\ count_ev is_refine t = 0
          /\ count_ev is_edit t = 0 /\ count_ev is_fetch t = 0
          /\ forall p, p <> validationPath_of shot -> writes_to p t = [])
    as (? & ? & ? & ? & Hw).
  { inversion Ho as [| | | |pd tts r0 t' _ _ _ _ Hr]; subst;
      [count_evs; split_and!; [lia|done..]..|].
    by apply loop_run_skip in Hr. }
  split_and!; [done..|].
  intros p Hp. split; [by apply Hw|].
  eapply evolves_lookup; [done|by apply Hw].
Qed.

(** X5.  The regeneration budget is shared by all runs on a shot: a run
    that finds iteration count [n] in prompt.json calls the refiner, the
    generator and the download at most [maxIterations - n] times each, and
    the judge at most once more.  A shot that was flagged after
    [maxIterations] regenerations is only judged again when re-run. *)
Theorem regeneration_budget shot scriptData skipRegen w pd :
  fs w !! promptPath shot = Some (PromptJson pd) ->
  exists r w' t,
    validateShot env root cfg shot scriptData skipRegen w = (r, w')
    /\ r <> Diverge
    /\ ((exists tts, getTtsContextForShot env (id shot) scriptData = inr tts) ->
        replies_loggable env -> exists o, r = Ok o)
    /\ trace w' = trace w ++ t
    /\ count_ev is_refine t
       <= maxIterations cfg - default 0 (validation_iteration pd)
    /\ count_ev is_edit t
       <= maxIterations cfg - default 0 (validation_iteration pd)
    /\ count_ev is_fetch t
       <= maxIterations cfg - default 0 (validation_iteration pd)
    /\ count_ev is_vision t
       <= S (maxIterations cfg) - default 0 (validation_iteration pd).
Proof.
  intros Hpd.
  pose proof (validateShot_not_diverge env root cfg shot scriptData skipRegen w)
    as Hnd.
  destruct (validateShot_spec env root cfg shot scriptData skipRegen w)
    as (r & w' & t & E & Ev & Ho).
  rewrite E in Hnd. exists r, w', t. split; [done|]. split; [done|].
  split; [exact (validateShot_returns_ok env root cfg _ _ _ _ _ _ E)|].
  split; [by destruct Ev|].
  inversion Ho as [| | | |pd' tts r0 t' _ Hl _ _ Hr]; subst;
    [count_evs; lia..|].
  rewrite loadPromptJson_run, Hpd in Hl. simpl in Hl. injection Hl as <-.
  pose proof (loop_run_vision _ _ _ _ _ _ _ _ _ _ _ _ _ Hr) as Hv.
  apply loop_run_calls in Hr. simpl in *. lia.
Qed.

(** X6.  The statement after the loop can be reached: when prompt.json
    holds an iteration count above [maxIterations] (the record was edited,
    or the bound lowered between two runs) and the script can be searched
    for the shot, [validateShot] calls nobody, writes nothing and returns
    the error "Unexpected end of validation loop". *)
Theorem resume_beyond_bound_is_an_error shot scriptData skipRegen w pd tts :
  path_exists w (imagePath_of shot) = true ->
  fs w !! promptPath shot = Some (PromptJson pd) ->
  getTtsContextForShot env (id shot) scriptData = inr tts ->
  path_exists w (root ++ anchor_image pd) = true ->
  maxIterations cfg < default 0 (validation_iteration pd) ->
  validateShot env root cfg shot scriptData skipRegen w
  = (Ok unexpected_end, w).
Proof.
  intros Hi Hpd Htts Ha Hlt.
  unfold validateShot, validateShot_fuel.
  rewrite bind_run, attempt_run, fs_access_run.
  fold (imagePath_of shot). rewrite Hi.
  rewrite bind_run, attempt_run, loadPromptJson_run, Hpd. simpl.
  rewrite bind_run, lift_run, Htts.
  rewrite bind_run, attempt_run, getAnchorPath_spec, Ha.
  rewrite bind_run. simpl. unfold loop_cond. simpl.
  by rewrite (proj2 (Nat.leb_gt _ _)) by lia.
Qed.

(** X7.  A failure of the judge's call ends the run at once: when
    [validateImage] raises on the first pass (the service rejects the
    request, the reply has no text block, or a file cannot be read), the
    outcome is the error "Validation failed: ..." with no validation
    record, and no file has been written: validation.json keeps whatever
    an earlier run left. *)
Theorem judge_failure_is_an_error_outcome
    shot scriptData skipRegen w pd tts e w1 :
  path_exists w (imagePath_of shot) = true ->
  fs w !! promptPath shot = Some (PromptJson pd) ->
  getTtsContextForShot env (id shot) scriptData = inr tts ->
  path_exists w (root ++ anchor_image pd) = true ->
  default 0 (validation_iteration pd) <= maxIterations cfg ->
  validateImage env root (imagePath_of shot) (root ++ anchor_image pd)
    (engineered_prompt pd) tts w
  = (Throw e, w1) ->
  validateShot env root cfg shot scriptData skipRegen w
  = (Ok {| status := error;
           o_message := Some ("Validation failed: " +:+ message e);
           validation := None |}, w1)
  /\ fs w1 = fs w.
Proof.
  intros Hi Hpd Htts Ha Hle Hv. split.
  - unfold validateShot, validateShot_fuel.
    rewrite bind_run, attempt_run, fs_access_run.
    fold (imagePath_of shot). rewrite Hi.
    rewrite bind_run, attempt_run, loadPromptJson_run, Hpd. simpl.
    rewrite bind_run, lift_run, Htts.
    rewrite bind_run, attempt_run, getAnchorPath_spec, Ha.
    rewrite bind_run. simpl. unfold loop_cond at 1. simpl.
    rewrite (proj2 (Nat.leb_le _ _)) by lia.
    rewrite bind_run. unfold loop_body.
    rewrite bind_run, attempt_run. simpl. by rewrite Hv.
  - destruct (validateImage_spec env root (imagePath_of shot)
                (root ++ anchor_image pd) (engineered_prompt pd) tts w)
      as (r & w' & t & E & Ev & _ & Ht & _).
    rewrite Hv in E. injection E as <- <-.
    destruct Ev as [_ -> _ _]. by destruct Ht as [->| ->].
Qed.

(** X8.  The pass that ends the loop writes validation.json and nothing
    else: after a regeneration that failed (refiner, anchor, generator or
    download), image.png and prompt.json are as the pass found them. *)
Theorem final_pass_writes_validation_only
    shot ip vp ap (tts : JSON) skipRegen st w o w' :
  loop_body env root cfg shot ip vp ap tts skipRegen st w
  = (Ok (Return o), w') ->
  forall p, p <> vp -> fs w' !! p = fs w !! p.
Proof.
  intros E p Hp.
  destruct (loop_body_spec env root cfg shot ip vp ap tts skipRegen st w)
    as (r & w1 & t & E1 & Ev & Hb).
  rewrite E in E1. injection E1 as <- <-.
  eapply evolves_lookup; [done|]. by eapply body_return_writes.
Qed.

Lemma written_dirs_within (t : list Event) (l : list path) :
  (forall p, p ∉ l -> writes_to p t = []) ->
  forall d, d ∈ written_dirs t -> d ∈ map dirname l.
Proof.
  induction t as [|e t IH]; intros Hw d Hd; [by apply elem_of_nil in Hd|].
  assert (forall p, p ∉ l -> writes_to p t = []) as Hw'.
  { intros p Hp. specialize (Hw p Hp). simpl in Hw.
    destruct e as [| | | |q c]; try done.
    by case_bool_decide. }
  destruct e as [| | | |q c]; simpl in Hd; try (by apply IH).
  apply elem_of_cons in Hd as [->|Hd]; [|by apply IH].
  destruct (decide (q ∈ l)) as [Hin|Hn].
  - apply list_elem_of_fmap. by exists q.
  - specialize (Hw q Hn). simpl in Hw.
    by rewrite bool_decide_eq_true_2 in Hw.
Qed.

(** X9.  [validateShot] touches the three files of its shot and nothing
    else: every other file is as before, the listing of every directory
    other than the ones these files lie in is as before, and no directory
    is made or removed. *)
Theorem validateShot_writes_own_files_only shot scriptData skipRegen w :
  exists r w',
    validateShot env root cfg shot scriptData skipRegen w = (r, w')
    /\ r <> Diverge
    /\ (forall p, p ∉ shot_files shot -> fs w' !! p = fs w !! p)
    /\ (forall d, d ∉ map dirname (shot_files shot) ->
          dirs w' !! d = dirs w !! d)
    /\ (forall d, is_Some (dirs w' !! d) <-> is_Some (dirs w !! d)).
Proof.
  destruct (validateShot_returns env root cfg shot scriptData skipRegen w)
    as (r & w' & t & E & Ev & Hnd & _ & Hw).
  exists r, w'. split_and!; [done|done|..].
  - intros p Hp. eapply evolves_lookup; [done|by apply Hw].
  - intros d Hd. destruct Ev as [_ _ -> _].
    apply apply_entries_lookup_other. intros Hin. apply Hd.
    by eapply written_dirs_within.
  - intros d. destruct Ev as [_ _ -> _]. apply apply_entries_is_Some.
Qed.


(** ** The outcome and the persisted records *)




(** ** The prompts of a run *)

Lemma judged_prompts_app t1 t2 :
  judged_prompts (t1 ++ t2) = judged_prompts t1 ++ judged_prompts t2.
Proof. apply omap_app. Qed.

Lemma regen_outcome_no_judged shot ip vr st w r t :
  regen_outcome env root shot ip vr st w r t -> judged_prompts t = [].
Proof. by inversion 1. Qed.

Lemma body_outcome_prompts shot ip vp ap (tts : JSON) skipRegen st w r t :
  body_outcome env root cfg shot ip vp ap tts skipRegen st w r t ->
  match r with
  | Ok (Continue st') =>
      judged_prompts t = [currentPrompt st]
      /\ iteration st' = iteration st + 1
      /\ currentPrompt st' = engineered_prompt (promptData st')
      /\ anchor_image (promptData st') = anchor_image (promptData st)
      /\ exists iss,
           default [] (prompt_history (promptData st'))
           = default [] (prompt_history (promptData st))
             ++ [{| h_iteration := iteration st;
                    h_prompt := currentPrompt st; h_issues := iss |}]
  | Ok (Return o) =>
      forall vd, validation o = Some vd ->
        vd_prompt_used vd = Some (JString (currentPrompt st))
        /\ judged_prompts t = [currentPrompt st]
  | _ => True
  end.
Proof.
  intros Hb. destruct r as [[st'|o]|e|]; [| |done|done].
  - destruct (body_continue_inv _ _ _ _ _ _ _ _ _ _ _ _ _ Hb)
      as (vr & w0 & _ & _ & _ & _ & Hi & -> & (a & url & b & ->)).
    split_and!; [done..|]. by eexists.
  - inversion Hb as [e t' _ _|vr w1 r' t' _ _ _ Hp]; subst; [done|].
    inversion Hp as [| | | |e t0 _ _ _ _ Hr]; subst; simpl;
      intros vd [= <-]; (split; [apply vd_prompt_used_of|]); try done.
    rewrite judged_prompts_app, (regen_outcome_no_judged _ _ _ _ _ _ _ Hr).
    done.
Qed.




(** ** Stopping and resuming *)

Lemma apply_writes_is_Some (t : list Event) (f : gmap path File) (p : path) :
  is_Some (f !! p) -> is_Some (apply_writes t f !! p).
Proof.
  revert f. induction t as [|e t IH]; intros f Hf; [done|].
  simpl. apply IH. destruct e as [| | | |q c]; simpl; try done.
  destruct (decide (q = p)) as [->|Hne].
  - rewrite lookup_insert_eq. by eexists.
  - by rewrite lookup_insert_ne.
Qed.

Lemma evolves_is_Some (t : list Event) (w w' : World) (p : path) :
  evolves t w w' -> is_Some (fs w !! p) -> is_Some (fs w' !! p).
Proof. intros [_ -> _ _]. apply apply_writes_is_Some. Qed.

Lemma evolves_path_exists (t : list Event) (w w' : World) (p : path) :
  evolves t w w' -> path_exists w p = true -> path_exists w' p = true.
Proof.
  intros Ev. unfold path_exists. rewrite !orb_true_iff.
  rewrite !bool_decide_eq_true.
  intros [Hf|Hd]; [left; by eapply evolves_is_Some|right].
  destruct Ev as [_ _ -> _]. by apply apply_entries_is_Some.
Qed.

(** [validateShot] once the image, prompt.json, the context and the
    anchor are found: the loop from the persisted state. *)
Lemma validateShot_fuel_loop fuel shot scriptData skipRegen w pd tts :
  path_exists w (imagePath_of shot) = true ->
  fs w !! promptPath shot = Some (PromptJson pd) ->
  getTtsContextForShot env (id shot) scriptData = inr tts ->
  path_exists w (root ++ anchor_image pd) = true ->
  validateShot_fuel env root cfg fuel shot scriptData skipRegen w
  = (r ← while fuel (loop_cond cfg)
           (loop_body env root cfg shot (imagePath_of shot)
              (validationPath_of shot) (root ++ anchor_image pd)
              tts skipRegen)
           (initial_state pd);
     mret (loop_result r)) w.
Proof.
  intros Hi Hpd Htts Ha. unfold validateShot_fuel.
  rewrite bind_run, attempt_run, fs_access_run.
  fold (imagePath_of shot). rewrite Hi.
  rewrite bind_run, attempt_run, loadPromptJson_run, Hpd. simpl.
  rewrite bind_run, lift_run, Htts.
  rewrite bind_run, attempt_run, getAnchorPath_spec, Ha.
  rewrite !bind_run. fold (initial_state pd). fold (validationPath_of shot).
  destruct (while _ _ _ _ _) as [[[s|o]|e|] w1]; done.
Qed.

Lemma reaches_resume shot scriptData ip vp ap tts skipRegen st w st' w' :
  reaches env root cfg shot ip vp ap tts skipRegen st w st' w' ->
  well_formed_shot shot ->
  ip = imagePath_of shot -> vp = validationPath_of shot ->
  getTtsContextForShot env (id shot) scriptData = inr tts ->
  forall pd,
    st = initial_state pd ->
    ap = root ++ anchor_image pd ->
    path_exists w (imagePath_of shot) = true ->
    fs w !! promptPath shot = Some (PromptJson pd) ->
    path_exists w (root ++ anchor_image pd) = true ->
    validateShot env root cfg shot scriptData skipRegen w'
    = validateShot env root cfg shot scriptData skipRegen w.
Proof.
  intros Hr Hwf -> -> Htts.
  destruct (well_formed_paths shot Hwf) as [_ Hne].
  induction Hr as [st w|st w st1 w1 st'' w'' Hc E Hr IH];
    intros pd -> Hap Hi Hpd Ha; [done|].
  destruct (loop_body_continue _ _ _ _ _ _ _ _ _ _ _ _ _ E) as (t & Ev & Hb).
  pose proof (body_outcome_prompt_file _ _ _ _ _ _ _ _ _ _ _ _ _ _
                Hb Hne Hpd) as Hf1.
  destruct (body_outcome_prompts _ _ _ _ _ _ _ _ _ _ Hb)
    as (_ & Hit & Hs1 & Ha1 & _).
  destruct (body_continue_inv _ _ _ _ _ _ _ _ _ _ _ _ _ Hb)
    as (vr & w0 & _ & _ & _ & _ & _ & Hst & _).
  assert (st1 = initial_state (promptData st1)) as Hst1.
  { rewrite Hst. reflexivity. }
  simpl in Ha1. simpl in Hf1.
  rewrite (IH (promptData st1)); [|done|by rewrite Ha1| | |].
  - unfold validateShot.
    rewrite (validateShot_fuel_loop _ _ _ _ w pd tts) by done.
    rewrite (validateShot_fuel_loop _ _ _ _ w1 (promptData st1) tts).
    + rewrite !bind_run. rewrite Ha1, <- Hst1.
      rewrite (while_fuel_irrelevant _ _ _ _ _ _ _ _ _
                 (S (maxIterations cfg)) (maxIterations cfg) st1 w1)
        by (rewrite Hit; simpl; lia).
      simpl. rewrite Hc. rewrite bind_run.
      rewrite <- Hap. rewrite E. done.
    + by eapply evolves_path_exists.
    + destruct Ev as [_ -> _ _]. done.
    + done.
    + rewrite Ha1. by eapply evolves_path_exists.
  - by eapply evolves_path_exists.
  - destruct Ev as [_ -> _ _]. done.
  - rewrite Ha1. by eapply evolves_path_exists.
Qed.

(** X12.  The loop can be stopped between two passes.  Every pass that
    regenerates leaves its whole state in prompt.json, so a run started in
    the world at the head of any later pass returns what the uninterrupted
    run returns, and ends in the same world. *)
Theorem validateShot_resumes shot scriptData skipRegen w pd tts st' w' :
  well_formed_shot shot ->
  path_exists w (imagePath_of shot) = true ->
  fs w !! promptPath shot = Some (PromptJson pd) ->
  getTtsContextForShot env (id shot) scriptData = inr tts ->
  path_exists w (root ++ anchor_image pd) = true ->
  reaches env root cfg shot (imagePath_of shot) (validationPath_of shot)
    (root ++ anchor_image pd) tts
    skipRegen (initial_state pd) w st' w' ->
  st' = initial_state (promptData st')
  /\ fs w' !! promptPath shot = Some (PromptJson (promptData st'))
  /\ validateShot env root cfg shot scriptData skipRegen w'
     = validateShot env root cfg shot scriptData skipRegen w.
Proof.
  intros Hwf Hi Hpd Htts Ha Hr.
  destruct (well_formed_paths shot Hwf) as [_ Hne].
  split_and!.
  - clear Hi Hpd Ha. remember (initial_state pd) as st eqn:Hst.
    assert (st = initial_state (promptData st)) as H0 by (by subst).
    clear Hst. induction Hr as [|st w st1 w1 st'' w'' Hc E Hr IH]; [done|].
    apply IH.
    destruct (loop_body_continue _ _ _ _ _ _ _ _ _ _ _ _ _ E)
      as (t & Ev & Hb).
    destruct (body_continue_inv _ _ _ _ _ _ _ _ _ _ _ _ _ Hb)
      as (vr & w0 & _ & _ & _ & _ & _ & -> & _).
    reflexivity.
  - clear Hi Ha. remember (initial_state pd) as st eqn:Hst.
    assert (fs w !! promptPath shot = Some (PromptJson (promptData st)))
      as Hf by (by subst).
    clear Hst Hpd. induction Hr as [|st w st1 w1 st'' w'' Hc E Hr IH]; [done|].
    apply IH.
    destruct (loop_body_continue _ _ _ _ _ _ _ _ _ _ _ _ _ E)
      as (t & Ev & Hb).
    pose proof (body_outcome_prompt_file _ _ _ _ _ _ _ _ _ _ _ _ _ _
                  Hb Hne Hf) as Hf1.
    destruct Ev as [_ -> _ _]. done.
  - by eapply (reaches_resume shot scriptData).
Qed.

(** ** A shot the judge never accepts *)

Lemma loop_run_exhausts shot ip vp ap (tts : JSON) st w r t :
  loop_run env root cfg shot ip vp ap tts false st w r t ->
  judge_always_fails env -> generation_always_succeeds env ->
  promptsPath root <> ip -> promptsPath root <> promptPath shot ->
  config_available root w ->
  is_Some (fs w !! ip) -> is_Some (fs w !! ap) ->
  is_Some (fs w !! (root ++ anchor_image (promptData st))) ->
  iteration st <= maxIterations cfg ->
  exists vd,
    r = Ok (Return (flagged_outcome vd))
    /\ vd_iteration vd = Some (js_nat (maxIterations cfg))
    /\ count_ev is_vision t = maxIterations cfg - iteration st + 1
    /\ count_ev is_refine t = maxIterations cfg - iteration st
    /\ count_ev is_edit t = maxIterations cfg - iteration st.
Proof.
  intros Hr Hj [Hfal Hfetch] Hci Hcp.
  assert (forall st w r t,
            body_outcome env root cfg shot ip vp ap tts false st w r t ->
            config_available root w ->
            is_Some (fs w !! ip) -> is_Some (fs w !! ap) ->
            is_Some (fs w !! (root ++ anchor_image (promptData st))) ->
            (exists st', r = Ok (Continue st'))
            \/ (exists vd,
                  maxIterations cfg <= iteration st
                  /\ r = Ok (Return (flagged_outcome vd))
                  /\ vd_iteration vd = Some (js_nat (iteration st))
                  /\ count_ev is_vision t = 1 /\ count_ev is_refine t = 0
                  /\ count_ev is_edit t = 0)) as Hbody.
  { clear Hr. intros st0 w0 r0 t0 Hb Hcfg Hip Hap Han.
    destruct (validateImage_called env root ip ap (currentPrompt st0) tts w0
                Hcfg Hip Hap) as (w1' & Ev1 & Hc1 & E1).
    destruct (Hj (count_ev is_vision (trace w0)))
      as (vr0 & Hvr0 & Hfail & Hlog & Hreq).
    rewrite Hvr0 in E1.
    inversion Hb as [e t1 Hthrow _|vr w1 r' t1 Hv Ev Hcf Hp]; subst.
    { rewrite E1 in Hthrow. done. }
    rewrite E1 in Hv. injection Hv as <- <-.
    inversion Hp as [e He|Hpass|_ _ Hm|st' t2|e t2 _ _ _ Hi Hreg]; subst.
    - congruence.
    - congruence.
    - right. simpl in Hm. apply Nat.leb_le in Hm. eexists.
      split_and!; [done|done|apply vd_iteration_of|..]; count_evs; lia.
    - left. by eexists.
    - exfalso.
      inversion Hreg as [e0 Hn|e0 Hn|e0 Hn|a e0 He|a url e0 He Hf|]; subst.
      + apply Hn. by left.
      + congruence.
      + destruct Ev1 as [_ Hfs _ _]. simpl in Hfs. rewrite Hfs in Hn.
        rewrite Hn in Han. by destruct Han.
      + destruct (Hfal (count_ev is_edit (trace w1'))) as [url Hu].
        congruence.
      + destruct (Hfetch (count_ev is_fetch (trace w1'))) as [b Hb'].
        congruence. }
  induction Hr as [st w Hc|st w o t Hc Hb|st w e t Hc Hb
                   |st w st' w' t r t' Hc Hb Hev Hr IH];
    intros Hcfg Hip Hap Han Hle.
  - unfold loop_cond in Hc. apply Nat.leb_gt in Hc. lia.
  - unfold loop_cond in Hc. apply Nat.leb_le in Hc.
    destruct (Hbody _ _ _ _ Hb Hcfg Hip Hap Han)
      as [[st' [=]]|(vd & Hm & Hr & Hvd & Hcv & Hcr & Hce)].
    exists vd. split; [exact Hr|]. rewrite Hvd, Hcv, Hcr, Hce.
    replace (iteration st) with (maxIterations cfg) by lia.
    split_and!; [done|lia..].
  - by destruct (Hbody _ _ _ _ Hb Hcfg Hip Hap Han)
      as [[st' [=]]|(vd & _ & [=] & _)].
  - destruct (body_continue_inv _ _ _ _ _ _ _ _ _ _ _ _ _ Hb)
      as (vr & w0 & _ & _ & _ & _ & Hi & Hst & (a & url & b & Ht)).
    destruct IH as (vd & -> & Hvd & Hcv & Hcr & Hce).
    + eapply config_available_evolves; [done| |done].
      rewrite Ht. simpl. rewrite !bool_decide_eq_false_2 by done. done.
    + by eapply evolves_is_Some.
    + by eapply evolves_is_Some.
    + rewrite Hst. simpl. by eapply evolves_is_Some.
    + rewrite Hst. simpl. lia.
    + exists vd. split; [done|]. split; [done|].
      rewrite !count_ev_app, Hcv, Hcr, Hce. rewrite Ht, Hst.
      count_evs. lia.
Qed.

(** X13.  The bound of the loop is reached.  When the judge fails every
    image with a result that can be logged and refined, and every
    regeneration succeeds, a run that starts at iteration count [n] uses
    the whole budget: [maxIterations - n] calls of the refiner and of the
    generator, one call of the judge more, and the outcome is flagged at
    iteration [maxIterations]. *)
Theorem failing_shot_uses_whole_budget shot scriptData w pd tts :
  judge_always_fails env -> generation_always_succeeds env ->
  promptsPath root ∉ shot_files shot ->
  config_available root w ->
  is_Some (fs w !! imagePath_of shot) ->
  fs w !! promptPath shot = Some (PromptJson pd) ->
  getTtsContextForShot env (id shot) scriptData = inr tts ->
  is_Some (fs w !! (root ++ anchor_image pd)) ->
  default 0 (validation_iteration pd) <= maxIterations cfg ->
  exists o w' t vd,
    validateShot env root cfg shot scriptData false w = (Ok o, w')
    /\ trace w' = trace w ++ t
    /\ status o = flagged
    /\ validation o = Some vd
    /\ vd_iteration vd = Some (js_nat (maxIterations cfg))
    /\ count_ev is_vision t
       = maxIterations cfg - default 0 (validation_iteration pd) + 1
    /\ count_ev is_refine t
       = maxIterations cfg - default 0 (validation_iteration pd)
    /\ count_ev is_edit t
       = maxIterations cfg - default 0 (validation_iteration pd).
Proof.
  intros Hj Hg Hcp Hcfg [fi Hi] Hpd Htts [fa Ha] Hle.
  destruct (validateShot_spec env root cfg shot scriptData false w)
    as (r & w' & t & E & Ev & Ho).
  assert (trace w' = trace w ++ t) as Ht by (by destruct Ev).
  pose proof (path_exists_file _ _ _ Hi) as Hpi.
  inversion Ho as [Hn|e Hn Hl|pd0 e Hn Hl He|pd0 tts0 Hn Hl Ht0 Hna
                   |pd0 tts0 r0 t' Hn Hl Ht0 Hna Hr]; subst.
  - congruence.
  - rewrite loadPromptJson_run, Hpd in Hl. done.
  - congruence.
  - rewrite loadPromptJson_run, Hpd in Hl. simpl in Hl. injection Hl as <-.
    rewrite (path_exists_file _ _ _ Ha) in Hna. done.
  - rewrite loadPromptJson_run, Hpd in Hl. simpl in Hl. injection Hl as <-.
    destruct (loop_run_exhausts _ _ _ _ _ _ _ _ _ Hr Hj Hg)
      as (vd & -> & Hvd & Hcv & Hcr & Hce); simpl; eauto.
    + intros H. apply Hcp. rewrite H. apply list_elem_of_here.
    + intros H. apply Hcp. rewrite H.
      do 2 apply list_elem_of_further. apply list_elem_of_here.
    + exists (flagged_outcome vd), w', t, vd. by split_and!.
Qed.


(** ** The helpers of the validation script *)

(** X14.  The anchor is read from disk once.  A call of
    [getAnchorDataUrl] that succeeds leaves the data in [anchorCache] and
    changes neither the files nor the trace; from then on the cached data
    is returned whatever the file holds by now.  The check that the anchor
    exists comes before the cache: when the path is gone the call raises,
    cached or not. *)
Theorem anchor_is_read_once a w f w1 :
  getAnchorDataUrl root a w = (Ok f, w1) ->
  anchorCache w1 !! (root ++ a) = Some f
  /\ fs w1 = fs w /\ trace w1 = trace w
  /\ forall w2, anchorCache w2 !! (root ++ a) = Some f ->
       getAnchorDataUrl root a w2
       = (if path_exists w2 (root ++ a) then Ok f
          else Throw (Error ("Anchor image not found: "
                               +:+ show_path (root ++ a))), w2).
Proof.
  intros E. split_and!.
  - unfold getAnchorDataUrl in E.
    rewrite bind_run, getAnchorPath_spec in E.
    destruct (path_exists w (root ++ a)); [|done].
    rewrite get_world_bind in E.
    destruct (anchorCache w !! (root ++ a)) as [d|] eqn:Ec.
    + injection E as <- <-. done.
    + rewrite bind_run in E. unfold fileToDataUrl, fs_readFile in E.
      destruct (fs w !! (root ++ a)) as [d|]; [|done].
      rewrite modify_world_bind in E. injection E as <- <-.
      simpl. apply lookup_insert_eq.
  - destruct (getAnchorDataUrl_spec root a w) as (r & w' & E' & Ev & _).
    rewrite E in E'. injection E' as <- <-. by destruct Ev as [_ -> _ _].
  - destruct (getAnchorDataUrl_spec root a w) as (r & w' & E' & Ev & _).
    rewrite E in E'. injection E' as <- <-. destruct Ev as [-> _ _ _].
    by rewrite app_nil_r.
  - intros w2 Hc. unfold getAnchorDataUrl.
    rewrite bind_run, getAnchorPath_spec.
    destruct (path_exists w2 (root ++ a)); [|done].
    rewrite get_world_bind. by rewrite Hc.
Qed.

(** ** The helpers of the validation script: shot folders *)

Lemma insert_by_perm {A} (cmp : A -> A -> Z) (x : A) (l : list A) :
  insert_by cmp x l ≡ₚ x :: l.
Proof.
  induction l as [|y l IH]; [done|]. simpl.
  destruct (0 <? cmp x y)%Z; [|done].
  rewrite IH. apply Permutation_swap.
Qed.

Lemma sort_by_perm {A} (cmp : A -> A -> Z) (l : list A) :
  sort_by cmp l ≡ₚ l.
Proof.
  induction l as [|x l IH]; [done|].
  unfold sort_by in *. simpl. by rewrite insert_by_perm, IH.
Qed.

Lemma shot_folders_of_ids w shotsDir entries :
  map id (shot_folders_of w shotsDir entries)
  = map fst (filter (fun e => is_shot_entry w shotsDir e = true) entries).
Proof. unfold shot_folders_of. by rewrite <- list_fmap_compose. Qed.

(** What [getShotFolders] returns, whenever it returns. *)
Lemma getShotFolders_inv exerciseDir w shots w' :
  getShotFolders env exerciseDir w = (Ok shots, w') ->
  w' = w
  /\ NoDup (map id shots)
  /\ Forall (fun s => s = shot_folder (path_join exerciseDir "shots") (id s)
                      /\ path_exists w (promptPath s) = true) shots
  /\ forall entries name,
       dirs w !! path_join exerciseDir "shots" = Some entries ->
       name ∈ map id shots
       <-> entries !! name = Some true
           /\ path_exists w
                (promptPath (shot_folder (path_join exerciseDir "shots") name))
              = true.
Proof.
  rewrite getShotFolders_run.
  set (shotsDir := path_join exerciseDir "shots").
  destruct (path_exists w shotsDir) eqn:Ep.
  2:{ intros [= <- <-]. split_and!; [done|constructor|constructor|].
      intros entries name Hd. unfold path_exists in Ep.
      apply orb_false_iff in Ep as [_ Ep].
      apply bool_decide_eq_false in Ep. destruct Ep. by eexists. }
  destruct (dirs w !! shotsDir) as [entries|] eqn:Ed; [|done].
  intros [= <- <-]. split; [done|].
  set (cmp := fun a b : Shot => localeCompare env (id a) (id b)).
  pose proof (sort_by_perm cmp
                (shot_folders_of w shotsDir (map_to_list entries)))
    as Hperm.
  split_and!.
  - rewrite Hperm, shot_folders_of_ids.
    apply NoDup_fmap_fst.
    + intros k v1 v2 H1 H2.
      apply list_elem_of_filter in H1 as [_ H1], H2 as [_ H2].
      apply elem_of_map_to_list in H1, H2. congruence.
    + apply NoDup_filter, NoDup_map_to_list.
  - rewrite Hperm. unfold shot_folders_of.
    apply Forall_fmap, Forall_forall. intros [name b] He.
    apply list_elem_of_filter in He as [He _]. simpl.
    split; [done|].
    unfold is_shot_entry in He. by apply andb_true_iff in He as [_ He].
  - intros entries' name [= <-].
    rewrite Hperm, shot_folders_of_ids, list_elem_of_fmap.
    split.
    + intros ([n b] & -> & He).
      apply list_elem_of_filter in He as [Hq He].
      apply elem_of_map_to_list in He.
      unfold is_shot_entry in Hq. simpl in *.
      apply andb_true_iff in Hq as [-> Hq]. done.
    + intros [He Hq]. exists (name, true). split; [done|].
      apply list_elem_of_filter. split.
      * unfold is_shot_entry. simpl. done.
      * by apply elem_of_map_to_list.
Qed.

(** X15.  [getShotFolders] returns the sub-directories of [shots/] that
    hold a prompt.json, each once: the ids are pairwise distinct, every
    shot has its folder [shots/<id>] and its prompt file
    [shots/<id>/prompt.json] (which exists), and a name is the id of a
    returned shot exactly when it is such a directory.  Plain files and
    directories with no prompt.json are left out.  The world is not
    changed. *)
Theorem getShotFolders_returns_shot_folders exerciseDir w shots w' :
  getShotFolders env exerciseDir w = (Ok shots, w') ->
  w' = w
  /\ NoDup (map id shots)
  /\ Forall (fun s => dir s = path_join (path_join exerciseDir "shots") (id s)
                      /\ well_formed_shot s
                      /\ path_exists w (promptPath s) = true) shots
  /\ forall entries name,
       dirs w !! path_join exerciseDir "shots" = Some entries ->
       name ∈ map id shots
       <-> entries !! name = Some true
           /\ path_exists w
                (path_join (path_join (path_join exerciseDir "shots") name)
                   "prompt.json") = true.
Proof.
  intros E. destruct (getShotFolders_inv _ _ _ _ E) as (-> & Hn & Hf & Hm).
  split_and!; [done|done| |done].
  eapply Forall_impl; [exact Hf|]. intros s [Hs Hp]. simpl in *.
  split_and!; [by rewrite Hs|by rewrite Hs|done].
Qed.

(** X16.  A missing [shots/] directory is not an error for
    [getShotFolders]: it returns the empty list (and [validateExercise]
    then raises "No shots found"). *)
Theorem getShotFolders_without_shots_directory exerciseDir w :
  path_exists w (path_join exerciseDir "shots") = false ->
  getShotFolders env exerciseDir w = (Ok [], w).
Proof. intros H. by rewrite getShotFolders_run, H. Qed.

Lemma ascending_insert_by cmp (x : Shot) (l : list Shot) :
  (forall a b, (0 < cmp a b)%Z -> (cmp b a <= 0)%Z) ->
  ascending cmp l ->
  ascending cmp (insert_by (fun a b => cmp (id a) (id b)) x l).
Proof.
  intros Hanti. induction l as [|y l IH]; [done|].
  intros Hl. simpl insert_by.
  destruct (0 <? cmp (id x) (id y))%Z eqn:Ec.
  - apply Z.ltb_lt in Ec.
    assert (ascending cmp l) as Hl'.
    { destruct l; [done|]. by destruct Hl. }
    specialize (IH Hl').
    destruct l as [|z l]; simpl.
    + split; [by apply Hanti|done].
    + simpl in IH. destruct Hl as [Hyz _].
      destruct (0 <? cmp (id x) (id z))%Z; simpl; split;
        [done|exact IH|by apply Hanti|exact IH].
  - apply Z.ltb_ge in Ec. simpl. done.
Qed.

(** X17.  The shots are returned in ascending order of their ids: each
    one is at most the next under [localeCompare], provided the comparison
    never puts two strings both ways round (as a collation does). *)
Theorem getShotFolders_ascending exerciseDir w shots w' :
  (forall a b, (0 < localeCompare env a b)%Z ->
               (localeCompare env b a <= 0)%Z) ->
  getShotFolders env exerciseDir w = (Ok shots, w') ->
  ascending (localeCompare env) shots.
Proof.
  intros Hanti. rewrite getShotFolders_run.
  destruct (path_exists w _); [|by intros [= <- <-]].
  destruct (dirs w !! _) as [entries|]; [|done].
  intros [= <- <-].
  generalize (shot_folders_of w (path_join exerciseDir "shots")
                (map_to_list entries)).
  intros l. induction l as [|x l IH]; [done|].
  unfold sort_by in *. simpl. by apply ascending_insert_by.
Qed.

Lemma path_join_inj (d : path) (a b : string) :
  path_join d a = path_join d b -> a = b.
Proof.
  unfold path_join.
  destruct (String.eqb a "") eqn:Ea; destruct (String.eqb b "") eqn:Eb.
  - apply String.eqb_eq in Ea, Eb. congruence.
  - intros H. apply (f_equal length) in H. rewrite length_app in H.
    simpl in H. lia.
  - intros H. apply (f_equal length) in H. rewrite length_app in H.
    simpl in H. lia.
  - intros H. apply app_inv_head in H. congruence.
Qed.

(** The three files of a shot folder lie in the folder. *)
Lemma shot_folder_files shotsDir a p :
  p ∈ shot_files (shot_folder shotsDir a) ->
  exists f, p = path_join shotsDir a ++ [f].
Proof.
  unfold shot_files, imagePath_of, validationPath_of, shot_folder. simpl.
  rewrite !elem_of_cons, elem_of_nil.
  intros [->|[->|[->|[]]]]; by eexists.
Qed.

Lemma shot_folder_files_disjoint shotsDir a b p :
  a <> b ->
  p ∈ shot_files (shot_folder shotsDir a) ->
  p ∉ shot_files (shot_folder shotsDir b).
Proof.
  intros Hne [f ->]%shot_folder_files [g Hg]%shot_folder_files.
  apply app_inj_tail in Hg as [Hd _]. by apply path_join_inj in Hd.
Qed.

(** X18.  The shots of an exercise do not share files: validating one
    shot that [getShotFolders] returned leaves image.png, validation.json
    and prompt.json of every other returned shot as they were. *)
Theorem shots_do_not_share_files exerciseDir w0 shots w0' i j A B :
  getShotFolders env exerciseDir w0 = (Ok shots, w0') ->
  shots !! i = Some A -> shots !! j = Some B -> i <> j ->
  forall scriptData skipRegen w,
    exists r w',
      validateShot env root cfg A scriptData skipRegen w = (r, w')
      /\ r <> Diverge
      /\ ((exists tts, getTtsContextForShot env (id A) scriptData = inr tts) ->
          replies_loggable env -> exists o, r = Ok o)
      /\ forall p, p ∈ shot_files B -> fs w' !! p = fs w !! p.
Proof.
  intros E HA HB Hij scriptData skipRegen w.
  destruct (getShotFolders_inv _ _ _ _ E) as (_ & Hn & Hf & _).
  rewrite Forall_forall in Hf.
  destruct (Hf A) as [HeA _]; [by eapply list_elem_of_lookup_2|].
  destruct (Hf B) as [HeB _]; [by eapply list_elem_of_lookup_2|].
  assert (id A <> id B) as Hne.
  { intros Heq. apply Hij.
    eapply (NoDup_lookup (map id shots)); [done|..].
    - by rewrite list_lookup_fmap, HA.
    - by rewrite list_lookup_fmap, HB, Heq. }
  destruct (validateShot_returns env root cfg A scriptData skipRegen w)
    as (r & w' & t & Ev & Hev & Hnd & _ & Hw).
  exists r, w'. split; [done|]. split; [done|].
  split; [exact (validateShot_returns_ok env root cfg _ _ _ _ _ _ Ev)|].
  intros p Hp. eapply evolves_lookup; [done|]. apply Hw.
  rewrite HeA. rewrite HeB in Hp. intros HpA.
  by eapply (shot_folder_files_disjoint _ (id A) (id B)).
Qed.

(** ** The script *)

(** X19.  [loadScriptJson] never raises and never changes the world: it
    returns the value script.json parses to, whatever it is (an object, an
    array, a number, [null]), and [null] when the file is missing or
    cannot be parsed. *)
Theorem loadScriptJson_never_raises exerciseDir w :
  exists v,
    loadScriptJson exerciseDir w = (Ok v, w)
    /\ (forall s,
          fs w !! path_join exerciseDir "script.json" = Some (ScriptJson s) ->
          v = s)
    /\ ((forall s,
           fs w !! path_join exerciseDir "script.json" <> Some (ScriptJson s))
        -> v = JNull).
Proof.
  exists (script_of w exerciseDir). split; [apply loadScriptJson_run|].
  unfold script_of. split.
  - by intros s ->.
  - intros Hn.
    destruct (fs w !! path_join exerciseDir "script.json") as [f|]; [|done].
    destruct f; try done. by destruct (Hn s).
Qed.


(** [getTtsContextForShot] raises nothing but a [TypeError]. *)
Lemma getTtsContextForShot_raises_TypeError shotId scriptData e :
  getTtsContextForShot env shotId scriptData = inl e ->
  instanceof_TypeError e = true.
Proof.
  unfold getTtsContextForShot.
  destruct (js_truthy (member "shots" scriptData)); simpl; [|done].
  destruct (member "shots" scriptData) as [v|]; [|by intros [= <-]].
  destruct v as [| | | |shots|]; try (by intros [= <-]).
  destruct (find_shot env shotId shots) as [e0|shot] eqn:Ef.
  - intros [= <-]. clear -Ef. induction shots as [|s l IH]; [done|].
    simpl in Ef.
    destruct s; simplify_eq/=; try done;
      destruct (shot_matches env shotId _); try done; by apply IH.
  - destruct (js_truthy shot); [|done].
    destruct (js_truthy (member "tts_text" (default JNull shot))); [done|].
    by destruct (js_truthy (member "description" (default JNull shot))).
Qed.



(** ** The summary of an exercise *)

Lemma omap_length_le {A B} (f : A -> option B) (l : list A) :
  length (omap f l) <= length l.
Proof.
  induction l as [|x l IH]; [done|]. csimpl.
  destruct (f x); simpl; lia.
Qed.

(** X21.  The summary accounts for the buckets it is given.  Each of the
    five lists of shot ids has the length of its count, which is the size
    of its bucket; every shot in error has a blocking issue that carries
    its message; there are at most [flagged + errors] blocking issues (a
    flagged shot whose validation has no issues contributes none); and a
    summary that is ready for assembly has no blocking issue, every shot
    approved and all other counts zero. *)
Theorem summary_accounts_for_results name results total :
  (length (sl_approved (summary_shots
             (generateValidationSummary name results total)))
   = c_approved (counts (generateValidationSummary name results total))
   /\ length (sl_flagged (summary_shots
                (generateValidationSummary name results total)))
      = c_flagged (counts (generateValidationSummary name results total))
   /\ length (sl_rejected (summary_shots
                (generateValidationSummary name results total)))
      = c_rejected (counts (generateValidationSummary name results total))
   /\ length (sl_no_image (summary_shots
                (generateValidationSummary name results total)))
      = c_no_image (counts (generateValidationSummary name results total))
   /\ length (sl_errors (summary_shots
                (generateValidationSummary name results total)))
      = c_errors (counts (generateValidationSummary name results total)))
  /\ (c_approved (counts (generateValidationSummary name results total))
      = length (r_approved results)
      /\ c_flagged (counts (generateValidationSummary name results total))
         = length (r_flagged results)
      /\ c_rejected (counts (generateValidationSummary name results total))
         = length (r_rejected results)
      /\ c_no_image (counts (generateValidationSummary name results total))
         = length (r_no_image results)
      /\ c_errors (counts (generateValidationSummary name results total))
         = length (r_errors results))
  /\ length (summary_ids (generateValidationSummary name results total))
     = bucket_total results
  /\ Forall (fun item =>
       {| bi_shot := item.1;
          bi_issues := JArray [JString (default "" (o_message item.2))] |}
       ∈ blocking_issues (generateValidationSummary name results total))
       (r_errors results)
  /\ c_errors (counts (generateValidationSummary name results total))
     <= length (blocking_issues (generateValidationSummary name results total))
     <= c_flagged (counts (generateValidationSummary name results total))
        + c_errors (counts (generateValidationSummary name results total))
  /\ (ready_for_assembly (generateValidationSummary name results total) = true
      -> blocking_issues (generateValidationSummary name results total) = []
         /\ c_approved (counts (generateValidationSummary name results total))
            = total
         /\ c_flagged (counts (generateValidationSummary name results total))
            = 0
         /\ c_rejected (counts (generateValidationSummary name results total))
            = 0
         /\ c_no_image (counts (generateValidationSummary name results total))
            = 0
         /\ c_errors (counts (generateValidationSummary name results total))
            = 0
         /\ bucket_total results = total).
Proof.
  unfold generateValidationSummary, summary_ids, bucket_total. simpl.
  split_and!; try (by rewrite length_map); try done.
  - rewrite !length_app, !length_map. lia.
  - apply Forall_forall. intros item Hi.
    apply elem_of_app. right.
    apply list_elem_of_fmap. by exists item.
  - rewrite length_app, length_map. lia.
  - rewrite length_app, length_map.
    pose proof (omap_length_le flagged_issue (r_flagged results)). lia.
  - rewrite !andb_true_iff, !Nat.eqb_eq.
    intros ((((Hf & Hr) & He) & Hn) & Ha).
    rewrite Hf, Hr, He, Hn.
    apply length_zero_iff_nil in Hf, He.
    rewrite Hf, He. simpl. split_and!; try done. lia.
Qed.

(** ** validateExercise *)

Lemma push_result_ids results shot o :
  bucket_ids (push_result results shot o) ≡ₚ id shot :: bucket_ids results.
Proof.
  unfold bucket_ids, push_result.
  destruct (status o); simpl; rewrite !map_app; simpl;
    rewrite <- ?app_assoc; simpl;
    rewrite <- ?Permutation_middle, ?app_nil_r; done.
Qed.

Lemma validate_shots_more scriptData skipRegen shots results w :
  exists r w' t,
    validate_shots env root cfg scriptData skipRegen shots results w = (r, w')
    /\ evolves t w w'
    /\ r <> Diverge
    /\ (forall results', r = Ok results' ->
          bucket_ids results' ≡ₚ bucket_ids results ++ map id shots)
    /\ forall p, (forall s, s ∈ shots -> p ∉ shot_files s) ->
         writes_to p t = [].
Proof.
  revert results w. induction shots as [|shot rest IH]; intros results w.
  - exists (Ok results), w, []. simpl.
    split_and!; [done|apply evolves_refl|done| |done].
    intros ? [= <-]. by rewrite app_nil_r.
  - simpl.
    destruct (validateShot_returns env root cfg shot scriptData skipRegen w)
      as (r1 & w1 & t1 & E & Ev1 & Hnd & _ & Hw1).
    rewrite bind_run, E. destruct r1 as [o|e|]; [| |done].
    2:{ eexists _, _, _. split_and!; [reflexivity|exact Ev1|done|done|].
        intros p Hp. apply Hw1, Hp. by left. }
    destruct (IH (push_result results shot o) w1)
      as (r & w' & t2 & E' & Ev2 & Hnd' & Hids & Hw2).
    exists r, w', (t1 ++ t2).
    split_and!; [done|by eapply evolves_trans|done|..].
    + intros results' Hr. rewrite (Hids results' Hr), push_result_ids.
      by rewrite <- Permutation_middle.
    + intros p Hp. rewrite writes_to_app, Hw1, Hw2; [done|..].
      * intros s Hs. apply Hp. by right.
      * apply Hp. by left.
Qed.

(** When the loop over the shots raises, it is [validateShot] that raised,
    on one of the shots; the shots before it have their outcomes, the
    shots after it are not validated. *)
Lemma validate_shots_raised scriptData skipRegen shots results w e w' :
  validate_shots env root cfg scriptData skipRegen shots results w
  = (Throw e, w') ->
  exists (before : list Shot) shot (rest : list Shot) outcomes w1,
    shots = before ++ shot :: rest
    /\ shots_run env root cfg scriptData skipRegen before w outcomes w1
    /\ validateShot env root cfg shot scriptData skipRegen w1 = (Throw e, w').
Proof.
  revert results w. induction shots as [|shot rest IH]; intros results w;
    [done|].
  simpl. rewrite bind_run.
  destruct (validateShot env root cfg shot scriptData skipRegen w)
    as [[o|e0|] w1] eqn:E; [| |done].
  - intros E'.
    destruct (IH _ _ E') as (before & s & rest' & outcomes & w2 & -> & Hrun & Hs).
    exists (shot :: before), s, rest', (o :: outcomes), w2.
    split_and!; [done|by econstructor|done].
  - intros [= <- <-]. exists [], shot, rest, [], w.
    split_and!; [done|constructor|done].
Qed.

(** What [validateShot] raises is a [TypeError] of the runtime. *)
Lemma validateShot_raises_TypeError shot scriptData skipRegen w e w' :
  validateShot env root cfg shot scriptData skipRegen w = (Throw e, w') ->
  instanceof_TypeError e = true.
Proof.
  intros E0.
  destruct (validateShot_spec env root cfg shot scriptData skipRegen w)
    as (r & w1 & t & E & Ev & Ho).
  rewrite E0 in E. injection E as <- <-.
  inversion Ho as [| |pd e0 _ _ He| |pd tts r0 t' _ _ _ _ Hr]; subst.
  - by eapply getTtsContextForShot_raises_TypeError.
  - destruct r0 as [s|e0|]; simplify_eq/=.
    apply loop_run_raised in Hr as (n & vr & _ & Hl).
    revert Hl. unfold log_lines, log_failed, toFixed, log_issues.
    destruct (overall_pass vr), (confidence vr) as [[]|]; simpl;
      try (by intros [= <-]);
      destruct (issues vr) as [[]|]; simpl; try done;
      repeat case_match; by intros [= <-].
Qed.

(** X22.  [validateExercise] raises either before it starts or because
    [validateShot] raised.  Before it starts the cause is a missing
    exercise directory ("Exercise not found"), an exercise with no shot
    folder ("No shots found"), or a [shots] entry that is not a directory;
    no shot has been judged then and nothing has been written.  Otherwise
    [validateShot] raised a [TypeError] on one of the shots: the shots
    before it have been validated, the shots after it have not, and no
    summary has been written. *)
Theorem validateExercise_raises name skipRegen w e w' :
  validateExercise env root cfg name skipRegen w = (Throw e, w') ->
  (w' = w
   /\ (path_exists w (path_join (videoScriptsDir cfg) name) = false
       /\ e = Error ("Exercise not found: " +:+ name)
       \/ path_exists w (path_join (videoScriptsDir cfg) name) = true
          /\ (e = Error ("No shots found in: "
                           +:+ show_path (path_join (videoScriptsDir cfg) name)
                           +:+ "/shots/")
              \/ (getShotFolders env (path_join (videoScriptsDir cfg) name) w).1
                 = Throw e)))
  \/ (instanceof_TypeError e = true
      /\ fs w' !! path_join (path_join (videoScriptsDir cfg) name)
                    "validation-summary.json"
         = fs w !! path_join (path_join (videoScriptsDir cfg) name)
                     "validation-summary.json"
      /\ exists (before : list Shot) shot (rest : list Shot) outcomes w1,
           getShotFolders env (path_join (videoScriptsDir cfg) name) w
           = (Ok (before ++ shot :: rest), w)
           /\ shots_run env root cfg
                (script_of w (path_join (videoScriptsDir cfg) name)) skipRegen
                before w outcomes w1
           /\ validateShot env root cfg shot
                (script_of w (path_join (videoScriptsDir cfg) name)) skipRegen
                w1 = (Throw e, w')).
Proof.
  rewrite validateExercise_unfold.
  destruct (path_exists w _) eqn:Ep; [|intros [= <- <-]; by auto].
  destruct (getShotFolders env _ w) as [[shots|e'|] ws] eqn:Eg; simpl;
    [|intros [= <- <-]; by auto 6|done].
  destruct (getShotFolders_inv _ _ _ _ Eg) as (-> & _ & Hf & _).
  destruct (length shots =? 0); [intros [= <- <-]; by auto 6|].
  rewrite bind_run.
  destruct (validate_shots_more
              (script_of w (path_join (videoScriptsDir cfg) name))
              skipRegen shots empty_results w)
    as (r & w2 & t & Ev & Hev & Hnd & _ & Hw).
  rewrite Ev. destruct r as [res|e0|]; [| |done].
  { rewrite bind_run.
    destruct (fs_writeFile_run
                (path_join (path_join (videoScriptsDir cfg) name)
                   "validation-summary.json")
                (SummaryJson (generateValidationSummary name res (length shots)))
                w2) as (w3 & -> & _).
    done. }
  intros [= <- <-]. right.
  destruct (validate_shots_raised _ _ _ _ _ _ _ Ev)
    as (before & shot & rest & outcomes & w1 & -> & Hrun & Hs).
  split_and!.
  - by eapply validateShot_raises_TypeError.
  - eapply evolves_lookup; [exact Hev|]. apply Hw.
    intros s Hs' Hin. rewrite Forall_forall in Hf.
    destruct (Hf s Hs') as [Hse _]. rewrite Hse in Hin.
    apply shot_folder_files in Hin as [f Hin].
    revert Hin. unfold path_join. simpl.
    destruct (String.eqb (id s) ""); rewrite <- ?app_assoc; simpl;
      intros Hin; apply app_inv_head in Hin; done.
  - by exists before, shot, rest, outcomes, w1.
Qed.

(** X23.  When [validateExercise] returns, validation-summary.json holds
    the summary it returns; [total_shots] is the number of shot folders;
    and the five lists of shot ids are a partition of the shot folders:
    put together they are a rearrangement of the ids of the folders, which
    are pairwise distinct. *)
Theorem validateExercise_summary_is_persisted
    name skipRegen w results summary w' :
  validateExercise env root cfg name skipRegen w
  = (Ok (results, summary), w') ->
  fs w' !! path_join (path_join (videoScriptsDir cfg) name)
             "validation-summary.json" = Some (SummaryJson summary)
  /\ exists shots,
       getShotFolders env (path_join (videoScriptsDir cfg) name) w
       = (Ok shots, w)
       /\ total_shots summary = length shots /\ 0 < length shots
       /\ NoDup (map id shots)
       /\ summary_ids summary ≡ₚ map id shots.
Proof.
  intros E.
  destruct (validateExercise_inv env root cfg _ _ _ _ _ _ E)
    as (shots & w2 & Hne & _ & Hg & Ev & -> & Ew).
  destruct (getShotFolders_inv _ _ _ _ Hg) as (_ & Hn & _).
  destruct (validate_shots_more
              (script_of w (path_join (videoScriptsDir cfg) name))
              skipRegen shots empty_results w)
    as (r & w2' & t & Ev' & _ & _ & Hids & _).
  rewrite Ev in Ev'. injection Ev' as <- <-.
  split.
  - unfold fs_writeFile, modify_world in Ew. injection Ew as <-.
    simpl. apply lookup_insert_eq.
  - exists shots. split_and!; [done|done| |done|].
    + destruct shots; [done|simpl; lia].
    + exact (Hids results eq_refl).
Qed.

Lemma shot_folder_files_below exerciseDir name p :
  p ∈ shot_files (shot_folder (path_join exerciseDir "shots") name) ->
  exists l, p = exerciseDir ++ "shots" :: l ++ [default "" (last p)].
Proof.
  intros [f ->]%shot_folder_files. unfold path_join. simpl.
  rewrite last_snoc. simpl.
  destruct (String.eqb name ""); rewrite <- ?app_assoc; simpl.
  - by exists [].
  - by exists [name].
Qed.

Lemma dirname_below (d l : path) (x : string) :
  d `prefix_of` dirname (d ++ l ++ [x]).
Proof.
  unfold dirname. rewrite app_assoc, removelast_last. by exists l.
Qed.

(** X24.  [validateExercise] works inside the directory of its exercise:
    whatever its result, every file outside that directory is as before,
    and so is the listing of every directory outside it; no directory is
    made or removed. *)
Theorem validateExercise_stays_in_its_directory name skipRegen w :
  exists r w',
    validateExercise env root cfg name skipRegen w = (r, w')
    /\ (forall p, ~ path_join (videoScriptsDir cfg) name `prefix_of` p ->
          fs w' !! p = fs w !! p)
    /\ (forall d, ~ path_join (videoScriptsDir cfg) name `prefix_of` d ->
          dirs w' !! d = dirs w !! d)
    /\ (forall d, is_Some (dirs w' !! d) <-> is_Some (dirs w !! d)).
Proof.
  set (exerciseDir := path_join (videoScriptsDir cfg) name).
  assert (exists r w' t,
            validateExercise env root cfg name skipRegen w = (r, w')
            /\ evolves t w w'
            /\ forall p, ~ (exists l x, p = exerciseDir ++ l ++ [x]) ->
                 writes_to p t = []) as (r & w' & t & E & Ev & Hw).
  { rewrite validateExercise_unfold. fold exerciseDir.
    destruct (path_exists w _) eqn:Ep;
      [|eexists _, _, []; split_and!; [done|apply evolves_refl|done]].
    destruct (getShotFolders env _ w) as [[shots|e'|] ws] eqn:Eg; simpl;
      [|eexists _, _, []; split_and!; [done|apply evolves_refl|done]..].
    destruct (getShotFolders_inv _ _ _ _ Eg) as (-> & _ & Hf & _).
    destruct (length shots =? 0) eqn:El;
      [eexists _, _, []; split_and!; [done|apply evolves_refl|done]|].
    rewrite bind_run.
    destruct (validate_shots_more (script_of w exerciseDir)
                skipRegen shots empty_results w)
      as (r2 & w2 & t & -> & Ev2 & Hnd & _ & Hw).
    assert (forall p, ~ (exists l x, p = exerciseDir ++ l ++ [x]) ->
                      writes_to p t = []) as Hw'.
    { intros p Hp. apply Hw. intros s Hs Hps. rewrite Forall_forall in Hf.
      destruct (Hf s Hs) as [Hse _]. rewrite Hse in Hps.
      apply shot_folder_files_below in Hps as [l Hl].
      apply Hp. exists ("shots" :: l), (default "" (last p)). by rewrite Hl at 1. }
    destruct r2 as [res|e0|]; [| |done].
    2:{ eexists _, _, t. by split_and!. }
    rewrite bind_run.
    destruct (fs_writeFile_run
                (path_join exerciseDir "validation-summary.json")
                (SummaryJson (generateValidationSummary name res (length shots)))
                w2) as (w3 & -> & Ev3).
    eexists _, _, _. split; [reflexivity|].
    split; [exact (evolves_trans _ _ _ _ _ Ev2 Ev3)|].
    intros p Hp. rewrite writes_to_app, Hw' by done. simpl.
    rewrite bool_decide_eq_false_2; [done|].
    intros <-. apply Hp. by exists [], "validation-summary.json". }
  exists r, w'. split_and!; [done|..].
  - intros p Hp. eapply evolves_lookup; [exact Ev|]. apply Hw.
    intros (l & x & ->). apply Hp. by eexists.
  - intros d Hd. destruct Ev as [_ _ -> _].
    apply apply_entries_lookup_other. intros Hin. apply Hd.
    clear -Hin Hw. induction t as [|e t IH]; [by apply elem_of_nil in Hin|].
    assert (forall p, ~ (exists l x, p = exerciseDir ++ l ++ [x]) ->
                      writes_to p t = []) as Hw'.
    { intros p Hp. specialize (Hw p Hp). simpl in Hw.
      destruct e as [| | | |q c]; try done. by case_bool_decide. }
    destruct e as [| | | |q c]; simpl in Hin; try (by apply IH).
    apply elem_of_cons in Hin as [->|Hin]; [|by apply IH].
    destruct (decide (exerciseDir `prefix_of` dirname q)) as [|Hn]; [done|].
    exfalso.
    assert (~ (exists l x, q = exerciseDir ++ l ++ [x])) as Hq.
    { intros (l & x & ->). apply Hn, dirname_below. }
    specialize (Hw q Hq). simpl in Hw.
    by rewrite bool_decide_eq_true_2 in Hw.
  - intros d. destruct Ev as [_ _ -> _]. apply apply_entries_is_Some.
Qed.

(** ** main *)

(** X25.  [main] refuses to start, with exit code 1 and before it touches
    anything, when it is given neither an exercise name nor [--all], when
    [FAL_KEY] or [ANTHROPIC_API_KEY] is missing or empty, and when the
    video-scripts directory does not exist. *)
Theorem main_refuses_to_start process w :
  (truthy (find (fun a => negb (String.prefix "--" a))
             (drop 2 (argv process))) = false
   /\ "--all" ∉ drop 2 (argv process))
  \/ truthy (FAL_KEY process) = false
  \/ truthy (ANTHROPIC_API_KEY process) = false
  \/ path_exists w (videoScriptsDir cfg) = false ->
  main env root cfg process w = (Ok (1, []), w).
Proof.
  intros H. unfold main.
  destruct (truthy (find _ (drop 2 (argv process)))) eqn:En; simpl.
  2:{ rewrite bool_decide_decide.
      destruct (decide ("--all" ∈ drop 2 (argv process))) as [Hall|Hall];
        simpl; [|done].
      destruct (truthy (FAL_KEY process)) eqn:Ef; simpl; [|done].
      destruct (truthy (ANTHROPIC_API_KEY process)) eqn:Ea; simpl; [|done].
      rewrite bind_run, attempt_run, fs_access_run.
      destruct (path_exists w (videoScriptsDir cfg)) eqn:Ep; [|done].
      destruct H as [[_ ?]|[?|[?|?]]]; done. }
  destruct (truthy (FAL_KEY process)) eqn:Ef; simpl; [|done].
  destruct (truthy (ANTHROPIC_API_KEY process)) eqn:Ea; simpl; [|done].
  rewrite bind_run, attempt_run, fs_access_run.
  destruct (path_exists w (videoScriptsDir cfg)) eqn:Ep; [|done].
  destruct H as [[? _]|[?|[?|?]]]; done.
Qed.

Lemma total_of_acc (f : Counts -> nat) (a : nat) allResults :
  foldl (fun acc r =>
           match er_outcome r with
           | inr summary => acc + f (counts summary)
           | inl _ => acc
           end) a allResults
  = a + total_of f allResults.
Proof.
  unfold total_of. revert a.
  induction allResults as [|r l IH]; intros a; simpl; [lia|].
  destruct (er_outcome r) as [msg|s].
  - apply IH.
  - rewrite (IH (a + _)), (IH (f (counts s))). lia.
Qed.

Lemma total_of_cons (f : Counts -> nat) r allResults :
  total_of f (r :: allResults)
  = match er_outcome r with
    | inr summary => f (counts summary)
    | inl _ => 0
    end + total_of f allResults.
Proof.
  unfold total_of at 1. simpl. rewrite total_of_acc.
  by destruct (er_outcome r).
Qed.

(** X26.  The exit code of [main] is 0 or 1, and it is 0 exactly when
    every exercise of the batch succeeded with no flagged shot and no
    shot in error.  Shots without an image do not count: a batch whose
    only defect is a missing image exits with 0. *)
Theorem exit_code_zero_iff allResults :
  (exit_code allResults = 0 \/ exit_code allResults = 1)
  /\ (exit_code allResults = 0 <-> Forall clean_exercise allResults).
Proof.
  unfold exit_code. split.
  { destruct (_ || _); by auto. }
  induction allResults as [|r l IH]; [by split|].
  rewrite Forall_cons, <- IH. clear IH.
  rewrite !total_of_cons. simpl. unfold clean_exercise, er_success.
  destruct (er_outcome r) as [msg|s]; simpl.
  - rewrite orb_true_r. split; [done|]. by intros [(s & [=] & _) _].
  - destruct (c_flagged (counts s)) as [|nf] eqn:Ef; simpl.
    2:{ split; [done|]. intros [(s' & [= <-] & ? & _) _]. congruence. }
    destruct (c_errors (counts s)) as [|ne] eqn:Ee; simpl.
    2:{ rewrite orb_true_r. simpl. split; [done|].
        intros [(s' & [= <-] & _ & ?) _]. congruence. }
    split.
    + intros H. split; [|done]. by exists s.
    + by intros [_ H].
Qed.

(** X27.  The entry point never raises and never runs on: whatever the
    arguments, the environment and the services, [main().catch(...)] ends
    with an exit code, 0 or 1. *)
Theorem run_main_always_exits process w :
  exists code w',
    run_main env root cfg process w = (Ok code, w')
    /\ (code = 0 \/ code = 1).
Proof.
  unfold run_main. rewrite try_catch_run, bind_run.
  assert (forall skipRegen exercises w0,
            exists code all' w',
              (allResults ← run_exercises env root cfg skipRegen exercises [];
               mret (exit_code allResults, allResults)) w0
              = (Ok (code, all'), w') /\ (code = 0 \/ code = 1)) as Hrun.
  { intros skipRegen exercises w0. rewrite bind_run.
    destruct (run_exercises_spec env root cfg skipRegen exercises [] w0)
      as (all' & w' & -> & _).
    eexists _, _, _. split; [reflexivity|].
    unfold exit_code. destruct (_ || _); by auto. }
  unfold main.
  destruct (negb (truthy (find _ (drop 2 (argv process)))) && _);
    [by eexists _, _; split; [|right]|].
  destruct (negb (truthy (FAL_KEY process)));
    [by eexists _, _; split; [|right]|].
  destruct (negb (truthy (ANTHROPIC_API_KEY process)));
    [by eexists _, _; split; [|right]|].
  rewrite bind_run, attempt_run, fs_access_run.
  destruct (path_exists w (videoScriptsDir cfg));
    [|by eexists _, _; split; [|right]].
  destruct (bool_decide ("--all" ∈ drop 2 (argv process))).
  - rewrite bind_run. unfold fs_readdir.
    destruct (dirs w !! videoScriptsDir cfg) as [entries|];
      [|by eexists _, _; split; [|right]].
    destruct (length _ =? 0); [by eexists _, _; split; [|right]|].
    destruct (Hrun (bool_decide ("--skip-regen" ∈ drop 2 (argv process)))
                (map fst (filter (fun e => e.2 = true) (map_to_list entries)))
                w) as (code & all' & w' & -> & Hc).
    by eexists _, _.
  - destruct (Hrun (bool_decide ("--skip-regen" ∈ drop 2 (argv process)))
                [default "" (find (fun a => negb (String.prefix "--" a))
                               (drop 2 (argv process)))]
                w) as (code & all' & w' & -> & Hc).
    by eexists _, _.
Qed.



(** ** The pipeline *)

(** X28.  The pipeline and the validation agree on readiness.  The
    report of the pipeline computes [readyForAssembly] from the sizes of
    the buckets as [flagged = 0 && errors = 0 && noImage = 0]; on every
    result of [validateExercise] this is the [ready_for_assembly] of the
    validation summary, although the two formulas differ.  A failure of
    the validation reaches the pipeline as "Phase 6 failed: ..." with the
    message of the failure, in the world the validation left. *)
Theorem pipeline_readiness_agrees name options w :
  (forall phase6 summary w',
     run_phase6 env root cfg name options w = (Ok (phase6, summary), w') ->
     readyForAssembly phase6 = ready_for_assembly summary
     /\ p6_rejected phase6 = 0
     /\ p6_approved phase6 + p6_flagged phase6 + p6_noImage phase6
        + p6_errors phase6 = total_shots summary
     /\ exists results,
          validateExercise env root cfg name (opt_skipRegen options) w
          = (Ok (results, summary), w')
          /\ phase6 = phase6_of results)
  /\ (forall e w',
        run_phase6 env root cfg name options w = (Throw e, w') ->
        exists e0,
          validateExercise env root cfg name (opt_skipRegen options) w
          = (Throw e0, w')
          /\ e = Error ("Phase 6 failed: " +:+ message e0)).
Proof.
  unfold run_phase6. rewrite try_catch_run, bind_run.
  pose proof (terminates_validateExercise env root cfg name
                (opt_skipRegen options) w) as Hterm.
  destruct (validateExercise env root cfg name (opt_skipRegen options) w)
    as [[[results summary]|e|] w1] eqn:E; [| |done].
  - split; [|done]. intros phase6 summary' w' [= <- <- <-].
    destruct (validateExercise_inv env root cfg _ _ _ _ _ _ E)
      as (shots & w2 & Hne & _ & Hg & Ev & Hsum & Ew).
    destruct (validate_shots_spec env root cfg
                (script_of w (path_join (videoScriptsDir cfg) name))
                (opt_skipRegen options) shots empty_results w)
      as (r & w2' & t & Ev' & _ & _ & Hres).
    rewrite Ev in Ev'. injection Ev' as <- <-.
    destruct (Hres results eq_refl) as (Ht & Hr & _). simpl in Ht, Hr.
    subst summary.
    split_and!; [| | |by exists results].
    + rewrite (generateValidationSummary_ready name results
                 (length shots)) by done.
      unfold readyForAssembly, phase6_of, bucket_total in *. simpl.
      rewrite Hr in Ht. simpl in Ht.
      destruct (length (r_flagged results)) as [|f];
        destruct (length (r_errors results)) as [|e0];
        destruct (length (r_no_image results)) as [|n]; simpl;
        rewrite ?andb_false_r, ?andb_true_r; try done.
      * symmetry. apply Nat.eqb_eq. lia.
      * symmetry. apply Nat.eqb_neq. lia.
    + simpl. by rewrite Hr.
    + unfold phase6_of, bucket_total in *. simpl.
      rewrite Hr in Ht. simpl in Ht. lia.
  - split; [done|]. intros e0 w' [= <- <-]. by exists e.
Qed.

End More.

(** ** The command line of the pipeline *)

Lemma bool_decide_elem_of_cons (x a : string) (l : list string) :
  bool_decide (x ∈ a :: l) = String.eqb a x || bool_decide (x ∈ l).
Proof.
  destruct (String.eqb_spec a x) as [->|Hne]; simpl.
  - apply bool_decide_eq_true. by left.
  - apply bool_decide_ext. rewrite elem_of_cons.
    split; [intros [Hx|Hx]; [by subst|done]|by right].
Qed.

Lemma parse_args_from (options : Options) (args : list string) :
  opt_skipRegen (foldl parse_arg options args)
  = opt_skipRegen options || bool_decide ("--skip-regen" ∈ args)
  /\ opt_force (foldl parse_arg options args)
     = opt_force options || bool_decide ("--force" ∈ args)
  /\ opt_verbose (foldl parse_arg options args)
     = opt_verbose options || bool_decide ("--verbose" ∈ args)
  /\ opt_help (foldl parse_arg options args)
     = opt_help options
       || bool_decide ("--help" ∈ args) || bool_decide ("-h" ∈ args)
  /\ opt_exerciseName (foldl parse_arg options args)
     = match last (filter (fun a => positional a = true) args) with
       | Some a => Some a
       | None => opt_exerciseName options
       end.
Proof.
  revert options. induction args as [|a args IH]; intros options.
  - simpl. rewrite !orb_false_r. done.
  - simpl foldl.
    destruct (IH (parse_arg options a)) as (H1 & H2 & H3 & H4 & H5).
    rewrite H1, H2, H3, H4, H5. clear IH H1 H2 H3 H4 H5.
    rewrite !bool_decide_elem_of_cons.
    unfold parse_arg.
    destruct (String.eqb_spec a "--skip-regen") as [->|N1].
    { rewrite filter_cons_False by done. simpl.
      rewrite !orb_true_r. done. }
    destruct (String.eqb_spec a "--force") as [->|N2].
    { rewrite filter_cons_False by done. simpl.
      rewrite !orb_true_r. done. }
    destruct (String.eqb_spec a "--verbose") as [->|N3].
    { rewrite filter_cons_False by done. simpl.
      rewrite !orb_true_r. done. }
    destruct (String.eqb_spec a "--help") as [->|N4].
    { rewrite filter_cons_False by done. simpl.
      rewrite !orb_true_r. done. }
    destruct (String.eqb_spec a "-h") as [->|N5].
    { rewrite filter_cons_False by done. simpl.
      rewrite !orb_true_r. done. }
    assert (positional a = negb (String.prefix "--" a)) as Hp.
    { unfold positional. apply String.eqb_neq in N5. rewrite N5.
      apply andb_true_r. }
    simpl. destruct (String.prefix "--" a) eqn:Ep; simpl.
    + rewrite filter_cons_False by (by rewrite Hp). done.
    + rewrite filter_cons_True by (by rewrite Hp). split_and!; [done..|].
      rewrite last_cons. by destruct (last _).
Qed.

(** X29.  What [parseArgs] makes of a command line.  Each flag is set
    exactly when its word occurs, wherever it stands; the exercise name is
    the last argument that is neither [-h] nor a word starting with two
    dashes; unknown words starting with two dashes are ignored. *)
Theorem parseArgs_reads_flags_anywhere args :
  opt_skipRegen (parseArgs args) = bool_decide ("--skip-regen" ∈ args)
  /\ opt_force (parseArgs args) = bool_decide ("--force" ∈ args)
  /\ opt_verbose (parseArgs args) = bool_decide ("--verbose" ∈ args)
  /\ opt_help (parseArgs args)
     = bool_decide ("--help" ∈ args) || bool_decide ("-h" ∈ args)
  /\ opt_exerciseName (parseArgs args)
     = last (filter (fun a => positional a = true) args).
Proof.
  unfold parseArgs.
  destruct (parse_args_from
              {| opt_exerciseName := None; opt_skipRegen := false;
                 opt_force := false; opt_verbose := false;
                 opt_help := false |} args) as (H1 & H2 & H3 & H4 & H5).
  rewrite H1, H2, H3, H4, H5. simpl. split_and!; [done..|].
  by destruct (last _).
Qed.

(** ** The media type of an image *)

Lemma from_last_dot_ext (s e : string) :
  from_last_dot e = None ->
  from_last_dot (s +:+ "." +:+ e) = Some ("." +:+ e).
Proof.
  intros He. induction s as [|c s IH]; simpl.
  - change ("" +:+ e) with e. by rewrite He.
  - change (from_last_dot (s +:+ "." +:+ e) = Some ("." +:+ e)) in IH.
    by rewrite IH.
Qed.

Lemma extname_ext (d : path) (stem e : string) :
  stem <> "" -> e <> "" -> from_last_dot e = None ->
  extname (path_join d (stem +:+ "." +:+ e)) = "." +:+ e.
Proof.
  intros Hs He Hd. destruct stem as [|c s]; [done|].
  change (String c s +:+ "." +:+ e) with (String c (s +:+ "." +:+ e)).
  change (path_join d (String c (s +:+ "." +:+ e)))
    with (d ++ [String c (s +:+ "." +:+ e)]).
  unfold extname. rewrite last_snoc.
  assert (String.eqb (String c (s +:+ "." +:+ e)) ".." = false) as ->.
  { apply String.eqb_neq. intros [= -> H].
    destruct s as [|c' s]; simpl in H.
    - change ("" +:+ e) with e in H. by injection H.
    - injection H as _ H. by destruct s. }
  by rewrite (from_last_dot_ext s e Hd).
Qed.

(** X30.  [getMediaType] labels by extension and never fails: it returns
    one of four media types, PNG when the extension is unknown or absent;
    the generated image of a shot, [image.png], is always labelled
    [image/png]; and for a file name [stem.ext] the label depends on the
    extension only, whatever its case. *)
Theorem getMediaType_by_extension :
  (forall p, getMediaType p ∈ media_types)
  /\ (forall shot, getMediaType (imagePath_of shot) = "image/png")
  /\ (forall d d' stem stem' e e',
        stem <> "" -> stem' <> "" -> e <> "" -> e' <> "" ->
        from_last_dot e = None -> from_last_dot e' = None ->
        toLowerCase e = toLowerCase e' ->
        getMediaType (path_join d (stem +:+ "." +:+ e))
        = getMediaType (path_join d' (stem' +:+ "." +:+ e'))).
Proof.
  split_and!.
  - intros p. unfold getMediaType.
    destruct (find _ types) as [kv|] eqn:Ef; [|unfold media_types; set_solver].
    apply find_some in Ef as [Hin _].
    unfold types in Hin. simpl in Hin.
    destruct Hin as [<-|[<-|[<-|[<-|[<-|[]]]]]]; unfold media_types; simpl;
      set_solver.
  - intros shot. unfold getMediaType, extname, imagePath_of.
    change (path_join (dir shot) "image.png") with (dir shot ++ ["image.png"]).
    rewrite last_snoc. reflexivity.
  - intros d d' stem stem' e e' Hs Hs' He He' Hd Hd' Hl.
    unfold getMediaType. rewrite !extname_ext by done.
    simpl toLowerCase. change ("" +:+ e) with e.
    change ("" +:+ e') with e'. by rewrite Hl.
Qed.


(** * Witnesses and counterexamples *)

Import Example.

(** A run is its result and the world it ends in. *)
Lemma run_eq {A} (x : Res A * World) (r : Res A) : x.1 = r -> x = (r, x.2).
Proof. destruct x as [r' w]. simpl. by intros ->. Qed.

(** ** C1 *)

(** C1, counterexample.  The first reply of the judge is not JSON, the
    loop is not in skip mode and the iteration count is 0: the parse
    failure sends the loop through the refiner and the generator (one call
    each), prompt.json is rewritten with iteration count 1 and a history
    entry for the parse failure, and the shot is approved at iteration 1.
    The claim says the attempt consumes no iteration and triggers no
    refinement. *)
Lemma unparseable_reply_consumes_iteration :
  judge_result env_unparseable (vision_reply env_unparseable 0)
  = Ok (parse_failure_result parse_error)
  /\ count_ev is_refine (trace run_unparseable.2) = 1
  /\ count_ev is_edit (trace run_unparseable.2) = 1
  /\ fs run_unparseable.2 !! promptPath shotA
     = Some (PromptJson
               {| anchor_image := anchor;
                  engineered_prompt := "better prompt";
                  validation_iteration := Some 1;
                  prompt_history :=
                    Some [{| h_iteration := 0;
                             h_prompt := "orange mannequin, rowing";
                             h_issues :=
                               Some (JArray
                                       [JString
                                          "Failed to parse validation response"])
                          |}] |})
  /\ status <$> outcome_of run_unparseable.1 = Some approved
  /\ (outcome_of run_unparseable.1 ≫= validation) ≫= vd_iteration
     = Some (js_nat 1).
Proof. split_and!; vm_compute; reflexivity. Qed.

(** C1, witness: the first pass on shot 01-start when the judge's reply is
    not JSON. *)
Lemma unparseable_reply_witness :
  (config_available root w0
   /\ is_Some (fs w0 !! imagePath_of shotA)
   /\ is_Some (fs w0 !! (root ++ anchor))
   /\ vision_reply env_unparseable (count_ev is_vision (trace w0))
      = ApiResponse [garbage_block]
   /\ find_text [garbage_block] = Some garbage_block
   /\ JSON_parse env_unparseable
        (trim env_unparseable (cb_text garbage_block)) = inl parse_error)
  /\ exists w1 r w' t,
       validateImage env_unparseable root (imagePath_of shotA)
         (root ++ anchor) (currentPrompt (initial_state pd0)) tts0 w0
       = (Ok (parse_failure_result parse_error), w1)
       /\ loop_body env_unparseable root cfg shotA (imagePath_of shotA)
            (validationPath_of shotA) (root ++ anchor) tts0 false
            (initial_state pd0) w0 = (Ok r, w')
       /\ trace w' = trace w0 ++
            EvVision (imagePath_of shotA) (root ++ anchor)
              (currentPrompt (initial_state pd0)) tts0 :: t
       /\ (exists t',
             t = EvRefine (currentPrompt (initial_state pd0))
                   (JArray [JString "Failed to parse validation response"])
                   (JArray [JString "Retry validation"])
                   (criteria_scores (parse_failure_result parse_error)) :: t'
             /\ forall st', r = Continue st' ->
                  exists a t'', t' = EvEdit a (currentPrompt st') :: t'')
          /\ match r with
             | Continue st' => iteration st' = iteration (initial_state pd0) + 1
             | Return o =>
                 status o = error
                 /\ exists time e,
                      validation o
                      = Some (validationData_of
                                (parse_failure_result parse_error)
                                (initial_state pd0) time (Some error) (Some e))
             end.
Proof.
  assert (config_available root w0) as H1.
  { right. exists prompts_config. vm_compute. reflexivity. }
  assert (is_Some (fs w0 !! imagePath_of shotA)) as H2.
  { exists (ImageFile "image A"). vm_compute. reflexivity. }
  assert (is_Some (fs w0 !! (root ++ anchor))) as H3.
  { exists (ImageFile "anchor"). vm_compute. reflexivity. }
  split; [split_and!; try assumption; reflexivity|].
  exact (unparseable_reply_is_failed_validation env_unparseable root cfg
           shotA (root ++ anchor) tts0 false (initial_state pd0) w0
           [garbage_block] garbage_block parse_error
           H1 H2 H3 eq_refl eq_refl eq_refl).
Defined.

(** ** C2 *)



(** ** C3 *)

(** C3, counterexample.  Shot 03-end has a prompt record and no image:
    the outcome of [validateShot] is [no_image], none of approved, flagged
    and error. *)
Lemma no_image_is_a_fourth_outcome :
  exists o, run_no_image.1 = Ok o
    /\ status o = no_image
    /\ status o <> approved /\ status o <> flagged /\ status o <> error.
Proof. eexists. split; [vm_compute; reflexivity|]. by split_and!. Qed.

(** ** C4 *)

(** C4, witness: shot 01-start with a judge that fails every image. *)
Lemma iteration_bounded_witness :
  (fs w0 !! promptPath shotA = Some (PromptJson pd0)
   /\ default 0 (validation_iteration pd0) = 0)
  /\ exists r w' t k,
       validateShot env_fail root cfg shotA JNull false w0 = (r, w')
       /\ r <> Diverge
       /\ ((exists tts, getTtsContextForShot env_fail (id shotA) JNull = inr tts)
           -> replies_loggable env_fail -> exists o, r = Ok o)
       /\ trace w' = trace w0 ++ t
       /\ iteration_writes (promptPath shotA) t = seq 1 k
       /\ k <= maxIterations cfg
       /\ forall o vd, r = Ok o -> validation o = Some vd ->
            vd_iteration vd = Some (js_nat k)
            /\ 0 <= k <= maxIterations cfg
            /\ fs w' !! validationPath_of shotA = Some (ValidationJson vd).
Proof.
  assert (fs w0 !! promptPath shotA = Some (PromptJson pd0)) as H1
    by (vm_compute; reflexivity).
  split; [by split|].
  exact (iteration_bounded env_fail root cfg shotA JNull false w0 pd0
           H1 eq_refl).
Defined.

(** ** C5 *)

(** C5 (defect of the code).  An error in the processing of one shot is
    not always caught at the boundary of the shot.  The loop prints the
    confidence of every result of the judge with [toFixed], outside every
    [try]; the judge's reply [{"overall_pass": false, "issues": ["x"]}]
    for shot 01-start has no confidence, so [validateShot] raises a
    [TypeError].  The error leaves the loop over the shots and
    [validateExercise]: shot 02-pull, whose image the judge would pass, is
    never judged (one call of the judge in the whole run), no
    validation.json and no validation-summary.json is written, and [main]
    reports the whole exercise as failed and exits with 1. *)
Theorem shot_error_aborts_exercise :
  judge_result env_fail_without_confidence
    (vision_reply env_fail_without_confidence 0)
  = Ok (success_result fail_without_confidence)
  /\ overall_pass (success_result fail_without_confidence) = false
  /\ confidence (success_result fail_without_confidence) = None
  /\ shot_fail_without_confidence.1 = Throw toFixed_of_undefined
  /\ shots_fail_without_confidence.1 = Throw toFixed_of_undefined
  /\ exercise_fail_without_confidence.1 = Throw toFixed_of_undefined
  /\ count_ev is_vision (trace exercise_fail_without_confidence.2) = 1
  /\ judge_result env_fail_without_confidence
       (vision_reply env_fail_without_confidence 1)
     = Ok (success_result pass_judgement)
  /\ overall_pass (success_result pass_judgement) = true
  /\ fs exercise_fail_without_confidence.2 !! validationPath_of shotA = None
  /\ fs exercise_fail_without_confidence.2 !! validationPath_of shotB = None
  /\ fs exercise_fail_without_confidence.2
       !! path_join (path_join (videoScriptsDir cfg) "row")
            "validation-summary.json" = None
  /\ main_fail_without_confidence.1
     = Ok (1, [{| er_exercise := "row";
                  er_outcome := inl (message toFixed_of_undefined) |}]).
Proof. split_and!; vm_compute; reflexivity. Qed.

(** ** C6 *)

(** C6, witness: exercise "row" with a judge that passes every image. *)
Lemma ready_for_assembly_witness :
  exercise_run = (Ok (exercise_results, exercise_summary), exercise_run.2)
  /\ exists shots outcomes w2,
       getShotFolders env_pass (path_join (videoScriptsDir cfg) "row") w0
       = (Ok shots, w0)
       /\ shots_run env_pass root cfg
            (script_of w0 (path_join (videoScriptsDir cfg) "row")) false
            shots w0 outcomes w2
       /\ length outcomes = length shots
       /\ total_shots exercise_summary = length shots
       /\ c_approved (counts exercise_summary)
          = count_status approved outcomes
       /\ c_flagged (counts exercise_summary) = count_status flagged outcomes
       /\ c_rejected (counts exercise_summary)
          = count_status rejected outcomes
       /\ c_no_image (counts exercise_summary)
          = count_status no_image outcomes
       /\ c_errors (counts exercise_summary) = count_status error outcomes
       /\ ready_for_assembly exercise_summary
          = (count_status approved outcomes =? length shots)
            && (count_status flagged outcomes =? 0)
            && (count_status error outcomes =? 0)
       /\ exercise_results = push_results empty_results (zip shots outcomes).
Proof.
  assert (exercise_run
          = (Ok (exercise_results, exercise_summary), exercise_run.2)) as H1
    by (apply (run_eq exercise_run); vm_compute; reflexivity).
  split; [exact H1|].
  exact (ready_for_assembly_formula env_pass root cfg "row" false w0
           exercise_results exercise_summary exercise_run.2 H1).
Defined.

(** ** C7 *)

(** C7, witness: [refinePrompt], and the first pass on shot 01-start,
    when the request of the refiner fails. *)
Lemma refiner_failure_witness :
  ((config_available root w0
    /\ userPrompt env_refiner_fails (JArray [JString "pose wrong"]) (JArray [])
         (Some (JObject [("pose_accuracy", JNumber (3 # 10))])) = inr tt
    /\ refine_reply env_refiner_fails (count_ev is_refine (trace w0))
       = ApiRejects (Error "529 overloaded"))
   /\ exists w',
        refinePrompt env_refiner_fails root "orange mannequin, rowing"
          (JArray [JString "pose wrong"]) (JArray [])
          (Some (JObject [("pose_accuracy", JNumber (3 # 10))])) w0
        = (Ok "orange mannequin, rowing", w')
        /\ trace w' = trace w0 ++
             [EvRefine "orange mannequin, rowing"
                (JArray [JString "pose wrong"]) (JArray [])
                (Some (JObject [("pose_accuracy", JNumber (3 # 10))]))])
  /\ ((refiner_rejected = (refiner_rejected.1, refiner_rejected.2)
       /\ trace refiner_rejected.2 = trace w0 ++
            [EvRefine "orange mannequin, rowing"
               (JArray [JString "pose wrong"]) (JArray [])
               (Some (JObject [("pose_accuracy", JNumber (3 # 10))]))])
      /\ refiner_rejected.1 = Ok "orange mannequin, rowing")
  /\ ((judged_once env_refiner_fails
       = (Ok (success_result fail_judgement), (judged_once env_refiner_fails).2)
       /\ overall_pass (success_result fail_judgement) = false
       /\ log_lines env_refiner_fails (success_result fail_judgement) = inr tt
       /\ refine_request env_refiner_fails (success_result fail_judgement)
          = inr tt
       /\ iteration (initial_state pd0) < maxIterations cfg
       /\ refine_reply env_refiner_fails
            (count_ev is_refine (trace (judged_once env_refiner_fails).2))
          = ApiRejects (Error "529 overloaded")
       /\ is_Some (fs w0 !! (root ++ anchor_image
                                      (promptData (initial_state pd0)))))
      /\ exists r w' a t,
           loop_body env_refiner_fails root cfg shotA (imagePath_of shotA)
             (validationPath_of shotA) (root ++ anchor) tts0 false
             (initial_state pd0) w0 = (Ok r, w')
           /\ trace w' = trace w0 ++
                [EvVision (imagePath_of shotA) (root ++ anchor)
                   (currentPrompt (initial_state pd0)) tts0;
                 EvRefine (currentPrompt (initial_state pd0))
                   (or_empty (issues (success_result fail_judgement)))
                   (or_empty (suggestions (success_result fail_judgement)))
                   (criteria_scores (success_result fail_judgement));
                 EvEdit a (currentPrompt (initial_state pd0))] ++ t
           /\ (forall st', r = Continue st' ->
                 currentPrompt st' = currentPrompt (initial_state pd0)
                 /\ engineered_prompt (promptData st')
                    = currentPrompt (initial_state pd0)
                 /\ iteration st' = iteration (initial_state pd0) + 1)
           /\ (forall url b,
                 edit_result
                   (fal_reply env_refiner_fails
                      (count_ev is_edit
                         (trace (judged_once env_refiner_fails).2)))
                 = Ok url ->
                 fetch_reply env_refiner_fails
                   (count_ev is_fetch
                      (trace (judged_once env_refiner_fails).2))
                 = FetchBody b ->
                 exists st', r = Continue st')).
Proof.
  assert (config_available root w0) as H1.
  { right. exists prompts_config. vm_compute. reflexivity. }
  assert (judged_once env_refiner_fails
          = (Ok (success_result fail_judgement),
             (judged_once env_refiner_fails).2)) as H2
    by (apply (run_eq (judged_once env_refiner_fails));
        vm_compute; reflexivity).
  assert (iteration (initial_state pd0) < maxIterations cfg) as H3
    by (vm_compute; lia).
  assert (is_Some (fs w0 !! (root ++ anchor_image
                                       (promptData (initial_state pd0)))))
    as H4.
  { exists (ImageFile "anchor"). vm_compute. reflexivity. }
  assert (refiner_rejected = (refiner_rejected.1, refiner_rejected.2)) as H5
    by (by apply run_eq).
  assert (trace refiner_rejected.2 = trace w0 ++
            [EvRefine "orange mannequin, rowing"
               (JArray [JString "pose wrong"]) (JArray [])
               (Some (JObject [("pose_accuracy", JNumber (3 # 10))]))]) as H6
    by (vm_compute; reflexivity).
  split; [|split].
  - split; [split_and!; [exact H1|reflexivity|reflexivity]|].
    exact (proj1 (refiner_failure_keeps_prompt env_refiner_fails root cfg)
             "orange mannequin, rowing" (JArray [JString "pose wrong"])
             (JArray [])
             (Some (JObject [("pose_accuracy", JNumber (3 # 10))])) w0
             (Error "529 overloaded") H1 eq_refl eq_refl).
  - split; [by split|].
    exact (proj1 (proj2 (refiner_failure_keeps_prompt env_refiner_fails root
                           cfg))
             "orange mannequin, rowing" (JArray [JString "pose wrong"])
             (JArray [])
             (Some (JObject [("pose_accuracy", JNumber (3 # 10))])) w0
             (Error "529 overloaded") refiner_rejected.1 refiner_rejected.2
             H5 H6 eq_refl).
  - split; [split_and!; try assumption; reflexivity|].
    exact (proj2 (proj2 (refiner_failure_keeps_prompt env_refiner_fails root
                           cfg))
             shotA (root ++ anchor) tts0 (initial_state pd0) w0
             (success_result fail_judgement)
             (judged_once env_refiner_fails).2 (Error "529 overloaded")
             H2 eq_refl eq_refl eq_refl H3 eq_refl H4).
Defined.

(** ** C8 *)

(** C8, counterexample.  The loop reads the iteration count and the
    history from prompt.json independently of each other, each with its
    own default.  For a record of shot 01-start that holds iteration
    count 1 and no history, the loop starts with iteration 1 and an empty
    history; with a judge that fails every image, one refinement later
    the shot is flagged at iteration 2 and the history has one entry.
    The claim says that the two are equal at every point of the loop and
    for every flagged outcome that went through a refinement. *)
Lemma history_shorter_than_iteration :
  fs w_inconsistent !! promptPath shotA = Some (PromptJson pd_inconsistent)
  /\ iteration (initial_state pd_inconsistent) = 1
  /\ history_length (promptData (initial_state pd_inconsistent)) = 0
  /\ status <$> outcome_of run_inconsistent.1 = Some flagged
  /\ count_ev is_refine (trace run_inconsistent.2) = 1
  /\ (outcome_of run_inconsistent.1 ≫= validation) ≫= vd_iteration
     = Some (js_nat 2)
  /\ (fs run_inconsistent.2 !! promptPath shotA)
     = Some (PromptJson
               {| anchor_image := anchor;
                  engineered_prompt := "better prompt";
                  validation_iteration := Some 2;
                  prompt_history :=
                    Some [{| h_iteration := 1;
                             h_prompt := "orange mannequin, rowing";
                             h_issues := Some (JArray [JString "pose wrong"])
                          |}] |}).
Proof. split_and!; vm_compute; reflexivity. Qed.

(** C8, witness: shot 01-start, as phase 5 leaves it, with a judge that
    fails every image. *)
Lemma history_matches_witness :
  (well_formed_shot shotA
   /\ fs w0 !! promptPath shotA = Some (PromptJson pd0)
   /\ history_length pd0 = default 0 (validation_iteration pd0))
  /\ (forall ap tts st' w',
        reaches env_fail root cfg shotA (imagePath_of shotA)
          (validationPath_of shotA) ap tts false (initial_state pd0) w0
          st' w' ->
        history_length (promptData st') = iteration st'
        /\ fs w' !! promptPath shotA = Some (PromptJson (promptData st')))
  /\ exists r w' pd',
       validateShot env_fail root cfg shotA JNull false w0 = (r, w')
       /\ r <> Diverge
       /\ fs w' !! promptPath shotA = Some (PromptJson pd')
       /\ history_length pd' = default 0 (validation_iteration pd')
       /\ forall o vd, r = Ok o -> validation o = Some vd ->
            vd_iteration vd = Some (js_nat (history_length pd')).
Proof.
  assert (fs w0 !! promptPath shotA = Some (PromptJson pd0)) as H1
    by (vm_compute; reflexivity).
  split; [by split_and!|].
  exact (history_matches_iteration env_fail root cfg shotA JNull false w0 pd0
           eq_refl H1 eq_refl).
Defined.

(** ** C9 *)

(** C9 (defect of the code).  A first result of the judge with
    [overall_pass] true does not always give an approved outcome.  The
    loop prints the confidence of a passing result with [toFixed] before
    it writes validation.json, outside every [try]; for the reply
    [{"overall_pass": true}], which has no confidence, [validateShot]
    raises a [TypeError]: no outcome is returned and no validation.json
    is written, after one call of the judge and no call of the refiner or
    of the generator.  (The same printing raises for a failing result:
    see C5.) *)
Theorem passing_result_without_confidence_raises :
  fs w0 !! promptPath shotA = Some (PromptJson pd0)
  /\ default 0 (validation_iteration pd0) = 0
  /\ judge_result env_pass_without_confidence
       (vision_reply env_pass_without_confidence 0)
     = Ok (success_result pass_without_confidence)
  /\ overall_pass (success_result pass_without_confidence) = true
  /\ confidence (success_result pass_without_confidence) = None
  /\ shot_pass_without_confidence.1 = Throw toFixed_of_undefined
  /\ outcome_of shot_pass_without_confidence.1 = None
  /\ fs shot_pass_without_confidence.2 !! validationPath_of shotA = None
  /\ count_ev is_vision (trace shot_pass_without_confidence.2) = 1
  /\ count_ev is_refine (trace shot_pass_without_confidence.2) = 0
  /\ count_ev is_edit (trace shot_pass_without_confidence.2) = 0.
Proof. split_and!; vm_compute; reflexivity. Qed.

(** ** C10 *)

(** C10, witness: shot 03-end has no image; exercise "row" is then not
    ready for assembly, and [main] on this exercise alone exits with 0. *)
Lemma missing_image_witness :
  (path_exists w0 (imagePath_of shotC) = false
   /\ Forall (fun r => exists s, er_outcome r = inr s
                                 /\ c_flagged (counts s) = 0
                                 /\ c_errors (counts s) = 0)
        [{| er_exercise := "row"; er_outcome := inr exercise_summary |}]
   /\ c_no_image (counts exercise_summary) = 1
   /\ ready_for_assembly exercise_summary = false
   /\ (main env_pass root cfg process_row w0).1
      = Ok (0, [{| er_exercise := "row";
                   er_outcome := inr exercise_summary |}]))
  /\ validateShot env_pass root cfg shotC JNull false w0
     = (Ok {| status := no_image;
              o_message := Some "No image.png found in shot folder";
              validation := None |}, w0)
  /\ (exists r w',
        validate_shots env_pass root cfg JNull false [shotC] empty_results w0
        = (r, w')
        /\ validate_shots env_pass root cfg JNull false []
             (push_result empty_results shotC
                {| status := no_image;
                   o_message := Some "No image.png found in shot folder";
                   validation := None |}) w0 = (r, w')
        /\ r <> Diverge
        /\ (Forall (fun s => exists tts,
                      getTtsContextForShot env_pass (id s) JNull = inr tts)
              [] ->
            replies_loggable env_pass -> exists results', r = Ok results')
        /\ forall results', r = Ok results' ->
             r_no_image results' <> []
             /\ ready_for_assembly (generateValidationSummary "row" results' 1)
                = false)
  /\ exit_code [{| er_exercise := "row"; er_outcome := inr exercise_summary |}]
     = 0.
Proof.
  assert (path_exists w0 (imagePath_of shotC) = false) as H1
    by (vm_compute; reflexivity).
  assert (Forall (fun r => exists s, er_outcome r = inr s
                                     /\ c_flagged (counts s) = 0
                                     /\ c_errors (counts s) = 0)
            [{| er_exercise := "row"; er_outcome := inr exercise_summary |}])
    as H2.
  { apply Forall_cons_2; [|apply Forall_nil_2].
    exists exercise_summary. split_and!; vm_compute; reflexivity. }
  split; [split_and!; try assumption; vm_compute; reflexivity|].
  split_and!.
  - exact (proj1 (missing_image_outcome env_pass root cfg)
             shotC JNull false w0 H1).
  - exact (proj1 (proj2 (missing_image_outcome env_pass root cfg))
             JNull false shotC [] empty_results w0 "row" 1 H1).
  - exact (proj2 (proj2 (missing_image_outcome env_pass root cfg)) _ H2).
Defined.

(** * Instances of the further properties *)

Import Scenarios.

(** The comparison of the example environment is a collation. *)
Lemma example_localeCompare_antisym (a b : string) :
  (0 < localeCompare env_pass a b)%Z -> (localeCompare env_pass b a <= 0)%Z.
Proof.
  simpl. rewrite (String.compare_antisym a b).
  destruct (String.compare b a); simpl; lia.
Qed.

(** X1, instance: the configuration is loaded in the world [w0]; the
    file is then deleted, and the next load still returns it. *)
Lemma loadPromptsConfig_reads_once_witness :
  loadPromptsConfig root w0 = (Ok prompts_config, config_loaded.2)
  /\ fs config_file_deleted !! promptsPath root = None
  /\ loadPromptsConfig root config_file_deleted
     = (Ok prompts_config, config_file_deleted).
Proof.
  assert (loadPromptsConfig root w0 = (Ok prompts_config, config_loaded.2))
    as H1 by (apply run_eq; vm_compute; reflexivity).
  assert (PROMPTS_CONFIG config_file_deleted = PROMPTS_CONFIG config_loaded.2)
    as H2 by (vm_compute; reflexivity).
  split; [exact H1|]. split; [vm_compute; reflexivity|].
  exact (proj2 (loadPromptsConfig_reads_once root w0 prompts_config
                  config_loaded.2 H1) config_file_deleted H2).
Defined.

(** X3, instance: shot 03-end has no image. *)
Lemma validateImage_reads_before_calling_witness :
  fs w0 !! imagePath_of shotC = None
  /\ exists e w',
       validateImage env_pass root (imagePath_of shotC) (root ++ anchor)
         "orange mannequin, rowing" tts0 w0 = (Throw e, w')
       /\ trace w' = trace w0 /\ fs w' = fs w0.
Proof.
  assert (fs w0 !! imagePath_of shotC = None) as H1
    by (vm_compute; reflexivity).
  split; [exact H1|].
  exact (validateImage_reads_before_calling env_pass root
           (imagePath_of shotC) (root ++ anchor) "orange mannequin, rowing"
           tts0 w0 (or_introl H1)).
Defined.

(** X5, instance: shot 01-start, as phase 5 leaves it. *)
Lemma regeneration_budget_witness :
  fs w0 !! promptPath shotA = Some (PromptJson pd0)
  /\ exists r w' t,
       validateShot env_fail root cfg shotA JNull false w0 = (r, w')
       /\ r <> Diverge
       /\ ((exists tts, getTtsContextForShot env_fail (id shotA) JNull = inr tts)
           -> replies_loggable env_fail -> exists o, r = Ok o)
       /\ trace w' = trace w0 ++ t
       /\ count_ev is_refine t
          <= maxIterations cfg - default 0 (validation_iteration pd0)
       /\ count_ev is_edit t
          <= maxIterations cfg - default 0 (validation_iteration pd0)
       /\ count_ev is_fetch t
          <= maxIterations cfg - default 0 (validation_iteration pd0)
       /\ count_ev is_vision t
          <= S (maxIterations cfg) - default 0 (validation_iteration pd0).
Proof.
  assert (fs w0 !! promptPath shotA = Some (PromptJson pd0)) as H1
    by (vm_compute; reflexivity).
  split; [exact H1|].
  exact (regeneration_budget env_fail root cfg shotA JNull false w0 pd0 H1).
Defined.

(** X6, instance: prompt.json of shot 01-start holds iteration count 3. *)
Lemma resume_beyond_bound_witness :
  (path_exists w_beyond (imagePath_of shotA) = true
   /\ fs w_beyond !! promptPath shotA = Some (PromptJson pd_beyond)
   /\ getTtsContextForShot env_pass (id shotA) JNull = inr tts0
   /\ path_exists w_beyond (root ++ anchor_image pd_beyond) = true
   /\ maxIterations cfg < default 0 (validation_iteration pd_beyond))
  /\ validateShot env_pass root cfg shotA JNull false w_beyond
     = (Ok unexpected_end, w_beyond).
Proof.
  assert (path_exists w_beyond (imagePath_of shotA) = true) as H1
    by (vm_compute; reflexivity).
  assert (fs w_beyond !! promptPath shotA = Some (PromptJson pd_beyond)) as H2
    by (vm_compute; reflexivity).
  assert (path_exists w_beyond (root ++ anchor_image pd_beyond) = true) as H3
    by (vm_compute; reflexivity).
  assert (maxIterations cfg < default 0 (validation_iteration pd_beyond))
    as H4 by (vm_compute; lia).
  split; [by split_and!|].
  exact (resume_beyond_bound_is_an_error env_pass root cfg shotA JNull false
           w_beyond pd_beyond tts0 H1 H2 eq_refl H3 H4).
Defined.

(** X7, instance: the judge's service rejects the request. *)
Lemma judge_failure_witness :
  (path_exists w0 (imagePath_of shotA) = true
   /\ fs w0 !! promptPath shotA = Some (PromptJson pd0)
   /\ getTtsContextForShot env_judge_down (id shotA) JNull = inr tts0
   /\ path_exists w0 (root ++ anchor_image pd0) = true
   /\ default 0 (validation_iteration pd0) <= maxIterations cfg
   /\ (judged_once env_judge_down).1 = Throw (Error "529 overloaded"))
  /\ validateShot env_judge_down root cfg shotA JNull false w0
     = (Ok {| status := error;
              o_message := Some "Validation failed: 529 overloaded";
              validation := None |}, (judged_once env_judge_down).2)
  /\ fs (judged_once env_judge_down).2 = fs w0.
Proof.
  assert (path_exists w0 (imagePath_of shotA) = true) as H1
    by (vm_compute; reflexivity).
  assert (fs w0 !! promptPath shotA = Some (PromptJson pd0)) as H2
    by (vm_compute; reflexivity).
  assert (path_exists w0 (root ++ anchor_image pd0) = true) as H3
    by (vm_compute; reflexivity).
  assert (default 0 (validation_iteration pd0) <= maxIterations cfg) as H4
    by (vm_compute; lia).
  assert (validateImage env_judge_down root (imagePath_of shotA)
            (root ++ anchor_image pd0) (engineered_prompt pd0) tts0 w0
          = (Throw (Error "529 overloaded"), (judged_once env_judge_down).2))
    as H5 by (apply (run_eq (judged_once env_judge_down));
              vm_compute; reflexivity).
  split; [split_and!; try assumption; vm_compute; reflexivity|].
  exact (judge_failure_is_an_error_outcome env_judge_down root cfg shotA
           JNull false w0 pd0 tts0 (Error "529 overloaded")
           (judged_once env_judge_down).2 H1 H2 eq_refl H3 H4 H5).
Defined.

(** X8, instance: the generator fails on the first pass; image.png is as
    it was. *)
Lemma final_pass_witness :
  (pass_generation_fails
   = (Ok (Return (loop_result (step_of pass_generation_fails.1))),
      pass_generation_fails.2)
   /\ status (loop_result (step_of pass_generation_fails.1)) = error
   /\ imagePath_of shotA <> validationPath_of shotA)
  /\ fs pass_generation_fails.2 !! imagePath_of shotA
     = fs w0 !! imagePath_of shotA.
Proof.
  assert (loop_body env_generation_fails root cfg shotA (imagePath_of shotA)
            (validationPath_of shotA) (root ++ anchor) tts0 false
            (initial_state pd0) w0
          = (Ok (Return (loop_result (step_of pass_generation_fails.1))),
             pass_generation_fails.2)) as H1
    by (apply (run_eq pass_generation_fails); vm_compute; reflexivity).
  assert (imagePath_of shotA <> validationPath_of shotA) as H2
    by (apply (bool_decide_unpack _); vm_compute; exact I).
  split; [split_and!; [exact H1|vm_compute; reflexivity|exact H2]|].
  exact (final_pass_writes_validation_only env_generation_fails root cfg
           shotA (imagePath_of shotA) (validationPath_of shotA)
           (root ++ anchor) tts0 false (initial_state pd0) w0 _ _ H1
           (imagePath_of shotA) H2).
Defined.



(** X12, instance: the run on shot 01-start is stopped after its first
    pass and started again. *)
Lemma validateShot_resumes_witness :
  (well_formed_shot shotA
   /\ path_exists w0 (imagePath_of shotA) = true
   /\ fs w0 !! promptPath shotA = Some (PromptJson pd0)
   /\ getTtsContextForShot env_fail (id shotA) JNull = inr tts0
   /\ path_exists w0 (root ++ anchor_image pd0) = true
   /\ first_pass = (Ok (Continue state_after_first_pass), first_pass.2)
   /\ iteration state_after_first_pass = 1)
  /\ state_after_first_pass
     = initial_state (promptData state_after_first_pass)
  /\ fs first_pass.2 !! promptPath shotA
     = Some (PromptJson (promptData state_after_first_pass))
  /\ validateShot env_fail root cfg shotA JNull false first_pass.2
     = validateShot env_fail root cfg shotA JNull false w0.
Proof.
  assert (path_exists w0 (imagePath_of shotA) = true) as H1
    by (vm_compute; reflexivity).
  assert (fs w0 !! promptPath shotA = Some (PromptJson pd0)) as H2
    by (vm_compute; reflexivity).
  assert (path_exists w0 (root ++ anchor_image pd0) = true) as H3
    by (vm_compute; reflexivity).
  assert (loop_body env_fail root cfg shotA (imagePath_of shotA)
            (validationPath_of shotA) (root ++ anchor_image pd0)
            tts0 false (initial_state pd0) w0
          = (Ok (Continue state_after_first_pass), first_pass.2)) as H4
    by (apply (run_eq first_pass); vm_compute; reflexivity).
  assert (loop_cond cfg (initial_state pd0) = true) as H5
    by (vm_compute; reflexivity).
  split; [split_and!; try assumption; vm_compute; reflexivity|].
  exact (validateShot_resumes env_fail root cfg shotA JNull false w0 pd0 tts0
           state_after_first_pass first_pass.2 eq_refl H1 H2 eq_refl H3
           (reaches_next env_fail root cfg shotA _ _ _ _ false _ _ _ _ _ _
              H5 H4
              (reaches_here env_fail root cfg shotA _ _ _ _ false _ _))).
Defined.

(** X13, instance: shot 01-start with a judge that fails every image:
    three calls of the judge, two regenerations, flagged at iteration 2. *)
Lemma failing_shot_witness :
  (judge_always_fails env_fail /\ generation_always_succeeds env_fail
   /\ (promptsPath root ∉ shot_files shotA)
   /\ config_available root w0
   /\ is_Some (fs w0 !! imagePath_of shotA)
   /\ fs w0 !! promptPath shotA = Some (PromptJson pd0)
   /\ getTtsContextForShot env_fail (id shotA) JNull = inr tts0
   /\ is_Some (fs w0 !! (root ++ anchor_image pd0))
   /\ default 0 (validation_iteration pd0) <= maxIterations cfg)
  /\ exists o w' t vd,
       validateShot env_fail root cfg shotA JNull false w0 = (Ok o, w')
       /\ trace w' = trace w0 ++ t
       /\ status o = flagged
       /\ validation o = Some vd
       /\ vd_iteration vd = Some (js_nat (maxIterations cfg))
       /\ count_ev is_vision t
          = maxIterations cfg - default 0 (validation_iteration pd0) + 1
       /\ count_ev is_refine t
          = maxIterations cfg - default 0 (validation_iteration pd0)
       /\ count_ev is_edit t
          = maxIterations cfg - default 0 (validation_iteration pd0).
Proof.
  assert (judge_always_fails env_fail) as H1.
  { intros n. exists (success_result fail_judgement).
    split_and!; vm_compute; reflexivity. }
  assert (generation_always_succeeds env_fail) as H2.
  { split; intros n; eexists; vm_compute; reflexivity. }
  assert (promptsPath root ∉ shot_files shotA) as H3
    by (apply (bool_decide_unpack _); vm_compute; exact I).
  assert (config_available root w0) as H4.
  { right. exists prompts_config. vm_compute; reflexivity. }
  assert (is_Some (fs w0 !! imagePath_of shotA)) as H5.
  { exists (ImageFile "image A"). vm_compute; reflexivity. }
  assert (fs w0 !! promptPath shotA = Some (PromptJson pd0)) as H6
    by (vm_compute; reflexivity).
  assert (is_Some (fs w0 !! (root ++ anchor_image pd0))) as H7.
  { exists (ImageFile "anchor"). vm_compute; reflexivity. }
  assert (default 0 (validation_iteration pd0) <= maxIterations cfg) as H8
    by (vm_compute; lia).
  split; [by split_and!|].
  exact (failing_shot_uses_whole_budget env_fail root cfg shotA JNull w0 pd0
           tts0 H1 H2 H3 H4 H5 H6 eq_refl H7 H8).
Defined.

(** X14, instance: the anchor is read, the file is replaced, and the
    next call still returns what was read first. *)
Lemma anchor_is_read_once_witness :
  (getAnchorDataUrl root anchor w0 = (Ok (ImageFile "anchor"), anchor_read.2)
   /\ fs anchor_replaced !! (root ++ anchor)
      = Some (ImageFile "another anchor"))
  /\ anchorCache anchor_read.2 !! (root ++ anchor) = Some (ImageFile "anchor")
  /\ fs anchor_read.2 = fs w0 /\ trace anchor_read.2 = trace w0
  /\ getAnchorDataUrl root anchor anchor_replaced
     = (Ok (ImageFile "anchor"), anchor_replaced).
Proof.
  assert (getAnchorDataUrl root anchor w0
          = (Ok (ImageFile "anchor"), anchor_read.2)) as H1
    by (apply (run_eq anchor_read); vm_compute; reflexivity).
  assert (anchorCache anchor_replaced !! (root ++ anchor)
          = Some (ImageFile "anchor")) as H2 by (vm_compute; reflexivity).
  split; [split; [exact H1|vm_compute; reflexivity]|].
  pose proof (anchor_is_read_once root anchor w0 (ImageFile "anchor")
                anchor_read.2 H1) as (Ha & Hb & Hc & Hd).
  split_and!; [exact Ha|exact Hb|exact Hc|].
  exact (Hd anchor_replaced H2).
Defined.

(** X15, instance: the three shot folders of exercise "row". *)
Lemma getShotFolders_witness :
  getShotFolders env_pass row_dir w0
  = (Ok [shotA; shotB; shotC], row_shots.2)
  /\ NoDup (map id [shotA; shotB; shotC])
  /\ Forall (fun s => dir s = path_join (path_join row_dir "shots") (id s)
                      /\ well_formed_shot s
                      /\ path_exists w0 (promptPath s) = true)
       [shotA; shotB; shotC].
Proof.
  assert (getShotFolders env_pass row_dir w0
          = (Ok [shotA; shotB; shotC], row_shots.2)) as H1
    by (apply (run_eq row_shots); vm_compute; reflexivity).
  split; [exact H1|].
  pose proof (getShotFolders_returns_shot_folders env_pass row_dir w0
                [shotA; shotB; shotC] row_shots.2 H1) as (_ & Ha & Hb & _).
  split; [exact Ha|exact Hb].
Defined.

(** X16, instance: exercise "empty" has no shots folder. *)
Lemma getShotFolders_without_shots_witness :
  path_exists w0 (path_join (videoScriptsDir cfg ++ ["empty"]) "shots") = false
  /\ getShotFolders env_pass (videoScriptsDir cfg ++ ["empty"]) w0
     = (Ok [], w0).
Proof.
  assert (path_exists w0 (path_join (videoScriptsDir cfg ++ ["empty"]) "shots")
          = false) as H1 by (vm_compute; reflexivity).
  split; [exact H1|].
  exact (getShotFolders_without_shots_directory env_pass
           (videoScriptsDir cfg ++ ["empty"]) w0 H1).
Defined.

(** X17, instance: the shots of exercise "row" come in ascending order. *)
Lemma getShotFolders_ascending_witness :
  getShotFolders env_pass row_dir w0
  = (Ok [shotA; shotB; shotC], row_shots.2)
  /\ ascending (localeCompare env_pass) [shotA; shotB; shotC].
Proof.
  assert (getShotFolders env_pass row_dir w0
          = (Ok [shotA; shotB; shotC], row_shots.2)) as H1
    by (apply (run_eq row_shots); vm_compute; reflexivity).
  split; [exact H1|].
  exact (getShotFolders_ascending env_pass row_dir w0 [shotA; shotB; shotC]
           row_shots.2 example_localeCompare_antisym H1).
Defined.

(** X18, instance: validating shot 01-start leaves the files of shot
    02-pull alone. *)
Lemma shots_do_not_share_files_witness :
  (getShotFolders env_pass row_dir w0
   = (Ok [shotA; shotB; shotC], row_shots.2)
   /\ [shotA; shotB; shotC] !! 0 = Some shotA
   /\ [shotA; shotB; shotC] !! 1 = Some shotB /\ 0 <> 1)
  /\ exists r w',
       validateShot env_pass root cfg shotA JNull false w0 = (r, w')
       /\ r <> Diverge
       /\ ((exists tts, getTtsContextForShot env_pass (id shotA) JNull = inr tts)
           -> replies_loggable env_pass -> exists o, r = Ok o)
       /\ forall p, p ∈ shot_files shotB -> fs w' !! p = fs w0 !! p.
Proof.
  assert (getShotFolders env_pass row_dir w0
          = (Ok [shotA; shotB; shotC], row_shots.2)) as H1
    by (apply (run_eq row_shots); vm_compute; reflexivity).
  assert (0 <> 1) as H2 by lia.
  split; [by split_and!|].
  exact (shots_do_not_share_files env_pass root cfg row_dir w0
           [shotA; shotB; shotC] row_shots.2 0 1 shotA shotB H1 eq_refl
           eq_refl H2 JNull false w0).
Defined.

(** X22, instance: exercise "empty" has no shots folder. *)
Lemma validateExercise_raises_witness :
  validateExercise env_pass root cfg "empty" false w0
  = (Throw (Error "No shots found in: proj/output/video-scripts/empty/shots/"),
     empty_run.2)
  /\ empty_run.2 = w0
  /\ path_exists w0 (path_join (videoScriptsDir cfg) "empty") = true.
Proof.
  assert (validateExercise env_pass root cfg "empty" false w0
          = (Throw (Error
               "No shots found in: proj/output/video-scripts/empty/shots/"),
             empty_run.2)) as H1
    by (apply (run_eq empty_run); vm_compute; reflexivity).
  split; [exact H1|].
  pose proof (validateExercise_raises env_pass root cfg "empty" false w0 _
                empty_run.2 H1) as [[Hw [[_ H]|[H _]]]|[H _]].
  - discriminate H.
  - split; [exact Hw|exact H].
  - discriminate H.
Defined.

(** X23, instance: exercise "row". *)
Lemma validateExercise_summary_witness :
  exercise_run = (Ok (exercise_results, exercise_summary), exercise_run.2)
  /\ fs exercise_run.2
       !! path_join (path_join (videoScriptsDir cfg) "row")
            "validation-summary.json"
     = Some (SummaryJson exercise_summary)
  /\ exists shots,
       getShotFolders env_pass (path_join (videoScriptsDir cfg) "row") w0
       = (Ok shots, w0)
       /\ total_shots exercise_summary = length shots /\ 0 < length shots
       /\ NoDup (map id shots)
       /\ summary_ids exercise_summary ≡ₚ map id shots.
Proof.
  assert (validateExercise env_pass root cfg "row" false w0
          = (Ok (exercise_results, exercise_summary), exercise_run.2)) as H1
    by (apply (run_eq exercise_run); vm_compute; reflexivity).
  split; [exact H1|].
  exact (validateExercise_summary_is_persisted env_pass root cfg "row" false
           w0 exercise_results exercise_summary exercise_run.2 H1).
Defined.

(** X25, instance: a command line with [--skip-regen] only. *)
Lemma main_refuses_witness :
  (truthy (find (fun a => negb (String.prefix "--" a))
             (drop 2 (argv process_bare))) = false
   /\ "--all" ∉ drop 2 (argv process_bare))
  /\ main env_pass root cfg process_bare w0 = (Ok (1, []), w0).
Proof.
  assert (truthy (find (fun a => negb (String.prefix "--" a))
                    (drop 2 (argv process_bare))) = false) as H1
    by (vm_compute; reflexivity).
  assert ("--all" ∉ drop 2 (argv process_bare)) as H2
    by (apply (bool_decide_unpack _); vm_compute; exact I).
  split; [by split|].
  exact (main_refuses_to_start env_pass root cfg process_bare w0
           (or_introl (conj H1 H2))).
Defined.
